(** * The immigration capstone notebook: cleaning pipeline

    A shallow embedding of the code cells of
    [6_capstone_project/capstone_project_guide.ipynb]: the catalog parsers
    [get_valid_airport_list] and [get_valid_country_list], the Spark UDFs
    ([get_valid_port], [get_valid_country], [convert_to_datetime],
    [convert_mode], [convert_visa], [city_to_port]), the
    [immigration_df_clean] chain (columns, select, filter, fillna), the
    [row_number] key and the [demographics_df_clean] chain.

    Python values cross into the UDFs as [pyval]; a Python exception is the
    [Raise] outcome of [result].

    A text is a sequence of characters of code points below 256 (Latin-1),
    the character of code [n] being [ascii_of_nat n]; characters beyond
    these are outside the model. The character classes ([\s] of [re], the
    whitespace that [int] strips, the letters that [lower] folds) are those
    of Python on these 256 characters.

    A float is a whole number ([PFloat]: 117.0, 1.0, 20574.0, which is what
    the double columns of the I94 extract hold), a number with a fractional
    part ([PFrac]: an odd numerator over a power of two), NaN or an
    infinity. Whole numbers and fractions that no double holds are in the
    type as well, and the two zeros of a float are one value: no function of
    the notebook tells them apart. *)

From Stdlib Require Import ZArith String Ascii List Lia Permutation Bool.
From stdpp Require Import gmap strings list.

Local Open Scope string_scope.
Local Open Scope Z_scope.

(** ** Python outcomes *)

Inductive py_exception : Set :=
| TypeError
| ValueError
| KeyError
| AttributeError
| OverflowError.

Inductive result (A : Type) : Type :=
| Ok (a : A)
| Raise (e : py_exception).

Arguments Ok {A} a.
Arguments Raise {A} e.

Definition bind {A B} (r : result A) (k : A -> result B) : result B :=
  match r with
  | Ok a => k a
  | Raise e => Raise e
  end.

Notation "'do' x <- r ; k" := (bind r (fun x => k))
  (at level 10, x name, r at level 100, k at level 200).

Definition returns {A} (r : result A) : Prop := exists a, r = Ok a.

(** Running a function that may raise over every element, front to back; the
    first exception aborts the whole run, as a failing UDF aborts the job. *)
Fixpoint traverse {A B} (f : A -> result B) (l : list A) : result (list B) :=
  match l with
  | [] => Ok []
  | a :: l' => do b <- f a; do bs <- traverse f l'; Ok (b :: bs)
  end.

(** ** Python values *)

Inductive pyval : Set :=
| PNone
| PInt (n : Z)
| PFloat (n : Z)      (* the float whose value is the whole number n *)
| PStr (s : string)
| PFrac (m : Z) (e : positive)
                      (* the float (2m + 1) / 2^e, which is not whole *)
| PNan
| PInf (negative : bool).

(** Numerator and denominator of the float [PFrac m e]. *)
Definition frac_num (m : Z) : Z := 2 * m + 1.
Definition frac_den (e : positive) : Z := 2 ^ Z.pos e.

(** Truth value, as [if x:] takes it: of the floats only zero is false. *)
Definition truthy (x : pyval) : bool :=
  match x with
  | PNone => false
  | PInt n | PFloat n => negb (n =? 0)
  | PStr s => negb (String.eqb s EmptyString)
  | PFrac _ _ | PNan | PInf _ => true
  end.

(** [x == k] for an int key [k]: ints and floats compare by value, anything
    else is unequal. *)
Definition eq_int_key (x : pyval) (k : Z) : bool :=
  match x with
  | PInt n | PFloat n => n =? k
  | _ => false
  end.

(** *** [int(x)] *)

(** The whitespace of [str.isspace] and of [\s] in [re]: tab to carriage
    return, the four separators 28 to 31, the space, the next-line control
    (133) and the no-break space (160). *)
Definition is_space (c : ascii) : bool :=
  let n := nat_of_ascii c in
  ((9 <=? n) && (n <=? 13) || (28 <=? n) && (n <=? 32)
   || (n =? 133) || (n =? 160))%nat.

(** The whitespace that [int] lets stand around the digits: the same without
    the separators 28 to 31. *)
Definition is_int_space (c : ascii) : bool :=
  let n := nat_of_ascii c in
  ((9 <=? n) && (n <=? 13) || (n =? 32) || (n =? 133) || (n =? 160))%nat.

Definition is_digit (c : ascii) : bool :=
  let n := nat_of_ascii c in ((48 <=? n) && (n <=? 57))%nat.

Definition digit_value (c : ascii) : Z := Z.of_nat (nat_of_ascii c) - 48.

Fixpoint lstrip (s : string) : string :=
  match s with
  | String c s' => if is_int_space c then lstrip s' else s
  | EmptyString => EmptyString
  end.

Fixpoint rstrip (s : string) : string :=
  match s with
  | String c s' =>
      match rstrip s' with
      | EmptyString =>
          if is_int_space c then EmptyString else String c EmptyString
      | r => String c r
      end
  | EmptyString => EmptyString
  end.

(** Digits with single underscores between them; [after_digit] tells whether
    the previous character was a digit. *)
Fixpoint parse_digits (s : string) (acc : Z) (after_digit : bool) : option Z :=
  match s with
  | EmptyString => if after_digit then Some acc else None
  | String c s' =>
      if is_digit c then parse_digits s' (10 * acc + digit_value c) true
      else if Ascii.eqb c "_" then
        if after_digit then parse_digits s' acc false else None
      else None
  end.

Definition int_of_str (s : string) : result Z :=
  let body := rstrip (lstrip s) in
  let parsed :=
    match body with
    | String "-" s' => option_map Z.opp (parse_digits s' 0 false)
    | String "+" s' => parse_digits s' 0 false
    | _ => parse_digits body 0 false
    end in
  match parsed with
  | Some n => Ok n
  | None => Raise ValueError
  end.

(** A float is cut off toward zero; NaN and the infinities have no int. *)
Definition py_int (x : pyval) : result Z :=
  match x with
  | PNone => Raise TypeError
  | PInt n | PFloat n => Ok n
  | PStr s => int_of_str s
  | PFrac m e => Ok (Z.quot (frac_num m) (frac_den e))
  | PNan => Raise ValueError
  | PInf _ => Raise OverflowError
  end.

(** ** The two catalogs

    [valid_countries] is a dict with int keys, only looked up: a finite map.
    [valid_ports] is iterated by [city_to_port], so it keeps the insertion
    order of a Python dict: a list of (code, label) with each code once. *)

Abbreviation country_catalog := (gmap Z string).
Abbreviation port_catalog := (list (string * string)).

Fixpoint dict_get (d : port_catalog) (k : string) : option string :=
  match d with
  | [] => None
  | (k', v) :: d' => if String.eqb k' k then Some v else dict_get d' k
  end.

Definition dict_mem (d : port_catalog) (k : string) : bool :=
  match dict_get d k with Some _ => true | None => false end.

(** [d[k] = v]: an existing key keeps its place and takes the new value, a
    new key goes to the end. *)
Fixpoint dict_set (d : port_catalog) (k v : string) : port_catalog :=
  match d with
  | [] => [(k, v)]
  | (k', v') :: d' =>
      if String.eqb k' k then (k', v) :: d' else (k', v') :: dict_set d' k v
  end.

(** [x in valid_ports.keys()] for any Python value: only a string can equal
    a string key. *)
Definition port_key_mem (valid_ports : port_catalog) (x : pyval) : bool :=
  match x with
  | PStr s => dict_mem valid_ports s
  | _ => false
  end.

(** ** The UDFs over coded values *)

Section Normalizers.

Variable valid_ports : port_catalog.
Variable valid_countries : country_catalog.

(** def get_valid_port(x): never raises. *)
Definition get_valid_port (x : pyval) : pyval :=
  if port_key_mem valid_ports x then x else PStr "Other".

(** [valid_countries[x]] with the value [x] itself as the key. *)
Definition country_getitem (x : pyval) : result string :=
  match x with
  | PInt n | PFloat n =>
      match valid_countries !! n with
      | Some name => Ok name
      | None => Raise KeyError
      end
  | _ => Raise KeyError
  end.

(** def get_valid_country(x): [int(x)] is evaluated first and may raise. *)
Definition get_valid_country (x : pyval) : result pyval :=
  do n <- py_int x;
  match valid_countries !! n with
  | Some _ => do name <- country_getitem x; Ok (PStr name)
  | None => Ok (PStr "Other")
  end.

End Normalizers.

(** A dict literal with number keys, read with a Python value. *)
Fixpoint num_dict_get (d : list (Z * string)) (x : pyval) : option string :=
  match d with
  | [] => None
  | (k, v) :: d' => if eq_int_key x k then Some v else num_dict_get d' x
  end.

Definition mode_dict : list (Z * string) :=
  [(1, "Air"); (2, "Sea"); (3, "Land"); (9, "Not reported")].

(** def convert_mode(x) *)
Definition convert_mode (x : pyval) : pyval :=
  match num_dict_get mode_dict x with
  | Some label => PStr label
  | None => PStr "Not reported"
  end.

Definition visa_dict : list (Z * string) :=
  [(1, "Business"); (2, "Pleasure"); (3, "Student")].

(** def convert_visa(x) *)
Definition convert_visa (x : pyval) : pyval :=
  match num_dict_get visa_dict x with
  | Some label => PStr label
  | None => PStr "Unknown"
  end.

(** ** [datetime.date]: the proleptic Gregorian calendar of the library

    [convert_to_datetime] computes [date(1960,1,1) + timedelta(x)] and prints
    it with [isoformat]. The library keeps a date as (year, month, day) and
    adds days through the day number ([toordinal] / [fromordinal]); the
    definitions follow its Python source, [Lib/datetime.py] ([_is_leap],
    [_days_before_year], [_days_before_month], [_ymd2ord], [_ord2ymd],
    [date.__add__], [date.isoformat]). *)

Module Date.

Record date : Set := mk { year : Z; month : Z; day : Z }.

Definition MAXORDINAL : Z := 3652059.   (* date(9999, 12, 31).toordinal() *)

Definition is_leap (y : Z) : bool :=
  (y mod 4 =? 0) && (negb (y mod 100 =? 0) || (y mod 400 =? 0)).

Definition DAYS_IN_MONTH (m : Z) : Z :=
  match m with
  | 1 => 31 | 2 => 28 | 3 => 31 | 4 => 30 | 5 => 31 | 6 => 30
  | 7 => 31 | 8 => 31 | 9 => 30 | 10 => 31 | 11 => 30 | 12 => 31
  | _ => -1
  end.

Definition DAYS_BEFORE_MONTH (m : Z) : Z :=
  match m with
  | 1 => 0 | 2 => 31 | 3 => 59 | 4 => 90 | 5 => 120 | 6 => 151
  | 7 => 181 | 8 => 212 | 9 => 243 | 10 => 273 | 11 => 304 | 12 => 334
  | _ => -1
  end.

Definition days_in_month (y m : Z) : Z :=
  if (m =? 2) && is_leap y then 29 else DAYS_IN_MONTH m.

Definition days_before_year (y : Z) : Z :=
  let y := y - 1 in y * 365 + y / 4 - y / 100 + y / 400.

Definition days_before_month (y m : Z) : Z :=
  DAYS_BEFORE_MONTH m + (if (2 <? m) && is_leap y then 1 else 0).

Definition ymd2ord (y m d : Z) : Z :=
  days_before_year y + days_before_month y m + d.

Definition toordinal (dt : date) : Z := ymd2ord (year dt) (month dt) (day dt).

Definition DI400Y : Z := 146097.
Definition DI100Y : Z := 36524.
Definition DI4Y : Z := 1461.

(** The day of the year [n] (from 0) to month and day. *)
Definition month_day (leapyear : bool) (n : Z) : Z * Z :=
  let month := Z.shiftr (n + 50) 5 in
  let preceding :=
    DAYS_BEFORE_MONTH month + (if (2 <? month) && leapyear then 1 else 0) in
  if n <? preceding then
    let month := month - 1 in
    let preceding :=
      preceding
      - (DAYS_IN_MONTH month + (if (month =? 2) && leapyear then 1 else 0)) in
    (month, n - preceding + 1)
  else (month, n - preceding + 1).

Definition ord2ymd (n : Z) : date :=
  let n := n - 1 in
  let n400 := n / DI400Y in
  let n := n mod DI400Y in
  let n100 := n / DI100Y in
  let n := n mod DI100Y in
  let n4 := n / DI4Y in
  let n := n mod DI4Y in
  let n1 := n / 365 in
  let n := n mod 365 in
  let y := n400 * 400 + 1 + n100 * 100 + n4 * 4 + n1 in
  if (n1 =? 4) || (n100 =? 4) then mk (y - 1) 12 31
  else
    let leapyear := (n1 =? 3) && (negb (n4 =? 24) || (n100 =? 3)) in
    let '(m, d) := month_day leapyear n in
    mk y m d.

(** [date + timedelta(days)] *)
Definition add_days (dt : date) (days : Z) : result date :=
  let o := toordinal dt + days in
  if (0 <? o) && (o <=? MAXORDINAL) then Ok (ord2ymd o)
  else Raise OverflowError.

(** The character of the last decimal digit of [n]. *)
Definition digit_char (n : Z) : ascii :=
  ascii_of_nat (Z.to_nat (48 + n mod 10)).

(** Decimal digits of a number that is not negative, last digit first. *)
Fixpoint digits (fuel : nat) (n : Z) (acc : string) : string :=
  let acc := String (digit_char n) acc in
  match fuel with
  | O => acc
  | S fuel' => if n <? 10 then acc else digits fuel' (n / 10) acc
  end.

Definition decimal (n : Z) : string :=
  digits (Z.to_nat (Z.log2 n)) n EmptyString.

Fixpoint zeros (k : nat) : string :=
  match k with
  | O => EmptyString
  | S k' => String "0" (zeros k')
  end.

(** ["%0wd" % n] for [n >= 0]. *)
Definition fmt_0d (w : nat) (n : Z) : string :=
  let s := decimal n in
  (zeros (w - String.length s) +:+ s)%string.

(** ["%04d-%02d-%02d" % (year, month, day)] *)
Definition isoformat (dt : date) : string :=
  fmt_0d 4 (year dt) +:+ "-" +:+ fmt_0d 2 (month dt) +:+ "-"
  +:+ fmt_0d 2 (day dt).

(** Calendar side, used to state what "plus d days" means. *)

Definition valid (dt : date) : Prop :=
  1 <= year dt /\ 1 <= month dt <= 12
  /\ 1 <= day dt <= days_in_month (year dt) (month dt).

Definition next_day (dt : date) : date :=
  if day dt <? days_in_month (year dt) (month dt)
  then mk (year dt) (month dt) (day dt + 1)
  else if month dt <? 12 then mk (year dt) (month dt + 1) 1
  else mk (year dt + 1) 1 1.

(** [later] is [earlier] plus [d] days of the calendar. *)
Definition plus_days (earlier : date) (d : Z) (later : date) : Prop :=
  Nat.iter (Z.to_nat d) next_day earlier = later.

(** [r] is [dt] moved by [d] days, forward or backward. *)
Definition shifted (dt : date) (d : Z) (r : date) : Prop :=
  if 0 <=? d then plus_days dt d r else plus_days r (- d) dt.

End Date.

Definition epoch : Date.date := Date.mk 1960 1 1.

(** *** [timedelta(x)]

    [timedelta] keeps days, seconds and microseconds; [date.__add__] reads
    the days only. For a float with a fractional part the constructor
    ([delta_new] and [accum] of the C module) takes the whole days as they
    are, multiplies the fractional part by the microseconds of a day in
    double arithmetic, and rounds the sum to a whole microsecond, a tie
    going to the even one. *)

Definition us_per_day : Z := 86400000000.

(** [num / den] rounded to the nearest whole number, ties to even. *)
Definition round_half_even (num den : Z) : Z :=
  let q := num / den in
  let r := num mod den in
  if 2 * r <? den then q
  else if den <? 2 * r then q + 1
  else if Z.even q then q else q + 1.

(** The double nearest to [a / 2^e], as a numerator over the same [2^e]:
    a numerator of more than 53 bits is rounded to its 53 leading bits,
    ties to even. The exponent of the result stays in the range of a
    double: the fractional part of a double times the microseconds of a day
    is under [2^37], and where it falls under the normal range it is under
    half a microsecond either way. *)
Definition round_double (a : Z) : Z :=
  let bits := Z.log2 (Z.abs a) + 1 in
  if bits <=? 53 then a
  else
    let ulp := 2 ^ (bits - 53) in
    round_half_even a ulp * ulp.

(** The microseconds of [timedelta(x)] for the float [x = PFrac m e]. *)
Definition timedelta_microseconds (m : Z) (e : positive) : Z :=
  let intpart := Z.quot (frac_num m) (frac_den e) in
  let fracpart := Z.rem (frac_num m) (frac_den e) in
  let dnum := round_double (us_per_day * fracpart) in
  round_half_even (intpart * us_per_day * frac_den e + dnum) (frac_den e).

Definition check_delta_day_range (days : Z) : result Z :=
  if (-999999999 <=? days) && (days <=? 999999999) then Ok days
  else Raise OverflowError.

(** The days of [timedelta(x)]. *)
Definition timedelta_days (x : pyval) : result Z :=
  match x with
  | PInt n | PFloat n => check_delta_day_range n
  | PFrac m e => check_delta_day_range (timedelta_microseconds m e / us_per_day)
  | PNan => Raise ValueError
  | PInf _ => Raise OverflowError
  | PNone | PStr _ => Raise TypeError
  end.

(** def convert_to_datetime(x) *)
Definition convert_to_datetime (x : pyval) : result (option string) :=
  if truthy x then
    do days <- timedelta_days x;
    do dt <- Date.add_days epoch days;
    Ok (Some (Date.isoformat dt))
  else Ok None.

(** ** Text operations of the parser and of the port resolver *)

(** [sub in s] on two strings. *)
Fixpoint str_contains (sub s : string) : bool :=
  if String.prefix sub s then true
  else match s with
       | String _ s' => str_contains sub s'
       | EmptyString => false
       end.

(** [lower] on one character: the capitals A to Z and the accented capitals
    of codes 192 to 222, the multiplication sign (215) apart, go to the
    small letter 32 places on. *)
Definition lower_char (c : ascii) : ascii :=
  let n := nat_of_ascii c in
  if ((65 <=? n) && (n <=? 90)
      || (192 <=? n) && (n <=? 222) && negb (n =? 215))%nat
  then ascii_of_nat (n + 32) else c.

(** [s.lower()] *)
Fixpoint str_lower (s : string) : string :=
  match s with
  | String c s' => String (lower_char c) (str_lower s')
  | EmptyString => EmptyString
  end.

(** [x.lower()] on any Python value: only a string has the method. *)
Definition py_lower (x : pyval) : result string :=
  match x with
  | PStr s => Ok (str_lower s)
  | _ => Raise AttributeError
  end.

(** [re.sub] of whitespace runs by the empty string: every run of
    whitespace is deleted. *)
Fixpoint re_sub_spaces (s : string) : string :=
  match s with
  | String c s' =>
      if is_space c then re_sub_spaces s' else String c (re_sub_spaces s')
  | EmptyString => EmptyString
  end.

(** *** The quoted-pair pattern as a backtracking matcher

    The pattern is: quote, captured dot-star, quote, dot-star, quote, captured
    dot-star, quote. Each piece takes the continuation that matches the rest
    of the pattern. Dot-star is greedy: it first tries to take one more
    character, and gives it back when the rest fails. The dot does not match
    a newline. *)

Module Regex.
Section Matcher.

Context {R : Type}.

Definition is_newline (c : ascii) : bool := Ascii.eqb c "010".

Definition lit (c : ascii) (k : string -> option R) (s : string) : option R :=
  match s with
  | String c' s' => if Ascii.eqb c c' then k s' else None
  | EmptyString => None
  end.

Fixpoint dot_star (k : string -> option R) (s : string) : option R :=
  match s with
  | String c s' =>
      if is_newline c then k s
      else match dot_star k s' with
           | Some r => Some r
           | None => k s
           end
  | EmptyString => k s
  end.

(** Captured dot-star: the text taken is handed to the continuation. *)
Fixpoint group_dot_star (k : string -> string -> option R) (s : string)
  : option R :=
  match s with
  | String c s' =>
      if is_newline c then k EmptyString s
      else match group_dot_star (fun g => k (String c g)) s' with
           | Some r => Some r
           | None => k EmptyString s
           end
  | EmptyString => k EmptyString s
  end.

(** [search]: the leftmost start at which the pattern matches. *)
Fixpoint search (m : string -> option R) (s : string) : option R :=
  match m s with
  | Some r => Some r
  | None =>
      match s with
      | String _ s' => search m s'
      | EmptyString => None
      end
  end.

End Matcher.

Definition quote : ascii := "'".

(** The compiled pattern, returning groups 1 and 2. *)
Definition quoted_pair : string -> option (string * string) :=
  lit quote (group_dot_star (fun g1 =>
    lit quote (dot_star (
      lit quote (group_dot_star (fun g2 =>
        lit quote (fun _ => Some (g1, g2)))))))).

Definition re_compiled_search (line : string) : option (string * string) :=
  search quoted_pair line.

End Regex.

(** [results.group(i)]: [results] is [None] when the search found nothing. *)
Definition group1 (results : option (string * string)) : result string :=
  match results with
  | Some (g1, _) => Ok g1
  | None => Raise AttributeError
  end.

Definition group2 (results : option (string * string)) : result string :=
  match results with
  | Some (_, g2) => Ok g2
  | None => Raise AttributeError
  end.

(** [a or b]: [b] is evaluated only when [a] is false. *)
Definition py_or (a : bool) (b : result bool) : result bool :=
  if a then Ok true else b.

(** [lines[lo:hi]] *)
Definition slice {A} (lo hi : nat) (l : list A) : list A :=
  firstn (hi - lo) (skipn lo l).

(** The body of the loop of [get_valid_airport_list] on one line. *)
Definition airport_step (valid_airports : port_catalog) (line : string)
  : result port_catalog :=
  let results := Regex.re_compiled_search line in
  do flagged <-
    py_or (truthy (PStr "UNKNOWN"))
      (py_or (truthy (PStr "UNIDENTIFIED"))
         (do label <- group2 results; Ok (str_contains "NOT REPORTED" label)));
  (* if flagged: pass *)
  let valid_airports := if flagged then valid_airports else valid_airports in
  do label <- group2 results;
  do code <- group1 results;
  Ok (dict_set valid_airports code (re_sub_spaces label)).

Fixpoint airport_loop (valid_airports : port_catalog) (lines : list string)
  : result port_catalog :=
  match lines with
  | [] => Ok valid_airports
  | line :: rest =>
      do valid_airports <- airport_step valid_airports line;
      airport_loop valid_airports rest
  end.

(** def get_valid_airport_list(), on the lines read from the label file. *)
Definition get_valid_airport_list (lines : list string) : result port_catalog :=
  airport_loop [] (slice 302 893 lines).

(** ** city_to_port *)

Definition dict_getitem (d : port_catalog) (k : string) : result string :=
  match dict_get d k with
  | Some v => Ok v
  | None => Raise KeyError
  end.

Fixpoint city_to_port_loop (valid_ports : port_catalog) (keys : list string)
  (city : pyval) : result (option string) :=
  match keys with
  | [] => Ok None
  | key :: rest =>
      do c <- py_lower city;
      do label <- dict_getitem valid_ports key;
      if str_contains c (str_lower label) then Ok (Some key)
      else city_to_port_loop valid_ports rest city
  end.

(** def city_to_port(city): falling off the loop returns [None]. *)
Definition city_to_port (valid_ports : port_catalog) (city : pyval)
  : result (option string) :=
  city_to_port_loop valid_ports (map fst valid_ports) city.

(** ** The immigration_df_clean chain *)

(** The columns of [immigration_df] that the chain reads. *)
Record immigration_row : Set := mk_immigration_row {
  cicid : pyval;
  i94yr : pyval;
  i94mon : pyval;
  i94res : pyval;
  i94port : pyval;
  arrdate : pyval;
  i94mode : pyval;
  i94addr : pyval;
  depdate : pyval;
  i94bir : pyval;
  i94visa : pyval;
  airline : pyval;
  fltno : pyval;
  visatype : pyval;
  gender_raw : pyval
}.

(** The columns that [select] keeps, in its order. [departure_date] is built
    by a [withColumn] but is not in the list of [select], so the cleaned
    rows do not carry it (and Spark, being lazy, never runs its UDF). *)
Record clean_row : Set := mk_clean_row {
  immigration_id : pyval;
  immigration_year : pyval;
  immigration_month : pyval;
  origin_country : pyval;
  arrival_port : pyval;
  arrival_date : pyval;
  port_type : pyval;
  state_of_residence : pyval;
  immigrant_age : pyval;
  visitor_type : pyval;
  airline_code : pyval;
  airline_flight_number : pyval;
  visa_type : pyval;
  gender : pyval
}.

(** A UDF declared with [StringType()] that returns a string or [None]. *)
Definition of_optional_str (o : option string) : pyval :=
  match o with
  | Some s => PStr s
  | None => PNone
  end.

(** The SQL condition [col = 'lit']: true on that very string, and a null
    never passes a filter. *)
Definition sql_eq_str (v : pyval) (lit : string) : bool :=
  match v with
  | PStr s => String.eqb s lit
  | _ => false
  end.

(** [fillna] on one column of text: only a null is replaced. *)
Definition fill (v default : pyval) : pyval :=
  match v with
  | PNone => default
  | _ => v
  end.

(** [fillna] on one column of doubles: [DataFrameNaFunctions.fill] reads such
    a column through [nanvl(col, null)], so a NaN is replaced like a null. *)
Definition fill_double (v default : pyval) : pyval :=
  match v with
  | PNone | PNan => default
  | _ => v
  end.

Section Pipeline.

Variable valid_ports : port_catalog.
Variable valid_countries : country_catalog.

(** The withColumnRenamed / withColumn steps and the select, on one row. *)
Definition select_columns (r : immigration_row) : result clean_row :=
  do country <- get_valid_country valid_countries (i94res r);
  do arrival <- convert_to_datetime (arrdate r);
  Ok {| immigration_id := cicid r;
        immigration_year := i94yr r;
        immigration_month := i94mon r;
        origin_country := country;
        arrival_port := get_valid_port valid_ports (i94port r);
        arrival_date := of_optional_str arrival;
        port_type := convert_mode (i94mode r);
        state_of_residence := i94addr r;
        immigrant_age := i94bir r;
        visitor_type := convert_visa (i94visa r);
        airline_code := airline r;
        airline_flight_number := fltno r;
        visa_type := visatype r;
        gender := gender_raw r |}.

(** .filter("arrival_port='Air'"), as written: on a row of the select. *)
Definition filter_condition (c : clean_row) : bool :=
  sql_eq_str (arrival_port c) "Air".

(** The same condition as Spark evaluates it. The optimizer moves a filter
    under the projection that it follows when the columns of the projection
    are deterministic, and a UDF column is unless declared otherwise: the
    column [arrival_port] of the condition is replaced by its definition,
    [get_valid_port] of [i94port], and the condition is evaluated on the
    rows of the input. *)
Definition pushed_filter_condition (r : immigration_row) : bool :=
  sql_eq_str (get_valid_port valid_ports (i94port r)) "Air".

(** The first assignment of immigration_df_clean, as it runs: the rows of
    the input that pass the condition, and on these the columns of the
    select. The other UDFs never see a row that the filter drops. *)
Definition immigration_df_clean (df : list immigration_row)
  : result (list clean_row) :=
  traverse select_columns (List.filter pushed_filter_condition df).

(** The fillna call: the dict of replacement values, column by column.
    [immigrant_age] is a column of doubles, so its -1 is stored as -1.0;
    the four others are columns of text. *)
Definition fillna (c : clean_row) : clean_row :=
  {| immigration_id := immigration_id c;
     immigration_year := immigration_year c;
     immigration_month := immigration_month c;
     origin_country := origin_country c;
     arrival_port := arrival_port c;
     arrival_date := arrival_date c;
     port_type := port_type c;
     state_of_residence := fill (state_of_residence c) (PStr "unknown");
     immigrant_age := fill_double (immigrant_age c) (PFloat (-1));
     visitor_type := visitor_type c;
     airline_code := fill (airline_code c) (PStr "Unkown");
     airline_flight_number := fill (airline_flight_number c) (PStr "Unknown");
     visa_type := visa_type c;
     gender := fill (gender c) (PStr "X") |}.

(** The second assignment of immigration_df_clean. *)
Definition immigration_df_filled (df : list immigration_row)
  : result (list clean_row) :=
  do cleaned <- immigration_df_clean df;
  Ok (map fillna cleaned).

End Pipeline.

(** ** The surrogate key

    [row_number() over (order by "immigration_id")]: in Spark SQL the double
    quotes make a string literal, so every row has the same sort key and the
    window may hand the rows over in any order. That order is the parameter
    [window_order]; the numbering itself is [number_from]. *)

Fixpoint number_from {A} (i : Z) (rows : list A) : list (Z * A) :=
  match rows with
  | [] => []
  | r :: rest => (i, r) :: number_from (i + 1) rest
  end.

Definition row_number {A} (window_order : list A -> list A) (rows : list A)
  : list (Z * A) :=
  number_from 1 (window_order rows).

Definition immigrant_ids {A} (keyed : list (Z * A)) : list Z := map fst keyed.

(** ** Notions the statements below are written in *)

(** The numbers [lo], [lo + 1], ... ([n] of them). *)
Definition range (lo : Z) (n : nat) : list Z :=
  map (fun i => lo + Z.of_nat i) (seq 0 n).

(** The capital letters of Latin-1 and their small letters, place by place:
    A to Z, and the accented capitals of codes 192 to 214 and 216 to 222. *)
Definition capitals : list ascii :=
  map ascii_of_nat (seq 65 26 ++ seq 192 23 ++ seq 216 7).

Definition smalls : list ascii :=
  map ascii_of_nat (seq 97 26 ++ seq 224 23 ++ seq 248 7).

Definition letter_pairs : list (ascii * ascii) := combine capitals smalls.

(** Two characters are the same letter, case set aside: the same character,
    or a capital and its small letter. *)
Definition same_letter (a b : ascii) : Prop :=
  a = b \/ In (a, b) letter_pairs \/ In (b, a) letter_pairs.

(** Two texts are the same, letter for letter, case set aside. *)
Fixpoint same_text (a b : string) : Prop :=
  match a, b with
  | EmptyString, EmptyString => True
  | String x a', String y b' => same_letter x y /\ same_text a' b'
  | _, _ => False
  end.

(** The city name occurs in the label, letter case set aside: a stretch of
    the label is the same text as the name. *)
Definition label_matches (city label : string) : Prop :=
  exists pre mid post, label = pre +:+ mid +:+ post /\ same_text city mid.

(** What [city_to_port] is to return on a city name: the code of the first
    entry, in the order of the catalog, whose label matches; [None] when no
    label matches. *)
Definition first_match (valid_ports : port_catalog) (city : string)
  (port : option string) : Prop :=
  match port with
  | Some code =>
      exists before label after,
        valid_ports = (before ++ (code, label) :: after)%list
        /\ label_matches city label
        /\ forall k l, In (k, l) before -> ~ label_matches city l
  | None => forall k l, In (k, l) valid_ports -> ~ label_matches city l
  end.

(** The catalog [cat] maps [code] to the label, cleaned of whitespace, of a
    line of [ls] that the pattern reads as an entry of that code. *)
Definition entry_of (ls : list string) (cat : port_catalog) (code : string)
  : Prop :=
  exists line label,
    In line ls
    /\ Regex.re_compiled_search line = Some (code, label)
    /\ dict_get cat code = Some (re_sub_spaces label).

Module DateCheck.
Import Date.

Definition leap_day (leapyear : bool) : Z := if leapyear then 1 else 0.

(** Day of the year, from 0, of the day [d] of month [m]. *)
Definition day_of_year (leapyear : bool) (m d : Z) : Z :=
  DAYS_BEFORE_MONTH m + (if (2 <? m) && leapyear then 1 else 0) + d - 1.

Definition month_len (leapyear : bool) (m : Z) : Z :=
  if (m =? 2) && leapyear then 29 else DAYS_IN_MONTH m.

Definition month_day_check (leapyear : bool) (m d : Z) : bool :=
  implb (d <=? month_len leapyear m)
    (let '(m', d') := month_day leapyear (day_of_year leapyear m d) in
     (m' =? m) && (d' =? d)
     && (0 <=? day_of_year leapyear m d)
     && (day_of_year leapyear m d <? 365 + leap_day leapyear)).

Definition next_month_check (leapyear : bool) (m : Z) : bool :=
  implb (m <? 12)
    ((day_of_year leapyear (m + 1) 1
      =? day_of_year leapyear m (month_len leapyear m) + 1)
     && (1 <=? month_len leapyear (m + 1)))
  && implb (m =? 12)
       (day_of_year leapyear m (month_len leapyear m)
        =? 364 + leap_day leapyear).

(** The date of day number 1. *)
Definition date_min : date := mk 1 1 1.

End DateCheck.

(** ** Sample data *)

Definition sample_ports : port_catalog :=
  [("ALC", "ALCAN,AK"); ("NEW", "NEWARK/TETERBORO,NJ"); ("NYC", "NEWYORK,NY");
   ("WAS", "WASHINGTONDC")].

Definition sample_countries : country_catalog :=
  <[117 := "ECUADOR"]> (<[582 := "MEXICO"]> ∅).

Definition sample_row (id : Z) (port : string) (mode : pyval)
  : immigration_row :=
  {| cicid := PFloat id; i94yr := PFloat 2016; i94mon := PFloat 4;
     i94res := PFloat 582; i94port := PStr port; arrdate := PFloat 20545;
     i94mode := mode; i94addr := PStr "NY"; depdate := PNone;
     i94bir := PFloat 25; i94visa := PFloat 2; airline := PStr "AA";
     fltno := PStr "00199"; visatype := PStr "B2"; gender_raw := PStr "M" |}.

(** One row per transport-mode code 1, 2, 3, 9 and null. *)
Definition mixed_modes : list immigration_row :=
  [sample_row 7 "NYC" (PFloat 1); sample_row 8 "NYC" (PFloat 2);
   sample_row 9 "ALC" (PFloat 3); sample_row 10 "WAS" (PFloat 9);
   sample_row 11 "NEW" PNone].

(** The record of the end-to-end example; the fields it leaves out are
    null. *)
Definition example_row : immigration_row :=
  {| cicid := PNone; i94yr := PNone; i94mon := PNone;
     i94res := PInt 117; i94port := PStr "XXX"; arrdate := PInt 20574;
     i94mode := PFloat 1; i94addr := PNone; depdate := PNone;
     i94bir := PFloat 37; i94visa := PInt 2; airline := PNone;
     fltno := PNone; visatype := PNone; gender_raw := PNone |}.

(** The cleaned record the end-to-end example announces. *)
Definition announced (c : clean_row) : Prop :=
  origin_country c = PStr "ECUADOR"
  /\ arrival_port c = PStr "Other"
  /\ arrival_date c = PStr "2016-04-29"
  /\ port_type c = PStr "Air"
  /\ state_of_residence c = PStr "unknown"
  /\ immigrant_age c = PFloat 37
  /\ visitor_type c = PStr "Pleasure"
  /\ gender c = PStr "X".

(** The same record with the arrival date that 20574 days after the epoch
    give. *)
Definition produced (c : clean_row) : Prop :=
  origin_country c = PStr "ECUADOR"
  /\ arrival_port c = PStr "Other"
  /\ arrival_date c = PStr "2016-04-30"
  /\ port_type c = PStr "Air"
  /\ state_of_residence c = PStr "unknown"
  /\ immigrant_age c = PFloat 37
  /\ visitor_type c = PStr "Pleasure"
  /\ gender c = PStr "X".

(** A cleaned row in which every column the null policy names is null. *)
Definition all_null_row : clean_row :=
  {| immigration_id := PFloat 6; immigration_year := PFloat 2016;
     immigration_month := PFloat 4; origin_country := PStr "ECUADOR";
     arrival_port := PStr "Other"; arrival_date := PStr "2016-04-29";
     port_type := PStr "Air"; state_of_residence := PNone;
     immigrant_age := PNone; visitor_type := PStr "Pleasure";
     airline_code := PNone; airline_flight_number := PNone;
     visa_type := PStr "B2"; gender := PNone |}.

Definition newline : string := String "010" EmptyString.

Definition placeholder_line : string :=
  "   'XXX'	=	'NOT REPORTED/UNKNOWN  '" +:+ newline.

(** A label file whose port range holds three entries, one of them the
    not-reported placeholder. *)
Definition sample_lines : list string :=
  (repeat newline 302
   ++ ["   'ALC'	=	'ALCAN, AK             '" +:+ newline;
       placeholder_line;
       "   'NYC'	=	'NEW YORK, NY          '" +:+ newline])%list.

Definition sample_parsed : port_catalog :=
  [("ALC", "ALCAN,AK"); ("XXX", "NOTREPORTED/UNKNOWN"); ("NYC", "NEWYORK,NY")].

Definition keyed_rows : list clean_row := [all_null_row; all_null_row].

(** ** The country parser

    The pattern of [get_valid_country_list] is: a captured run of one or more
    of the digits 0 to 9, dot-star, quote, captured dot-star, quote. The run
    of digits is greedy like dot-star. *)

Module CountryRegex.
Section Matcher.

Context {R : Type}.

(** Captured run of digits, possibly empty, after the digits in [k]. *)
Fixpoint group_digits_star (k : string -> string -> option R) (s : string)
  : option R :=
  match s with
  | String c s' =>
      if is_digit c then
        match group_digits_star (fun g => k (String c g)) s' with
        | Some r => Some r
        | None => k EmptyString s
        end
      else k EmptyString s
  | EmptyString => k EmptyString s
  end.

(** Captured run of at least one digit. *)
Definition group_digits_plus (k : string -> string -> option R) (s : string)
  : option R :=
  match s with
  | String c s' =>
      if is_digit c then group_digits_star (fun g => k (String c g)) s'
      else None
  | EmptyString => None
  end.

End Matcher.

(** The compiled pattern, returning groups 1 and 2. *)
Definition number_pair : string -> option (string * string) :=
  group_digits_plus (fun g1 =>
    Regex.dot_star (
      Regex.lit Regex.quote (Regex.group_dot_star (fun g2 =>
        Regex.lit Regex.quote (fun _ => Some (g1, g2)))))).

Definition re_compiled_search (line : string) : option (string * string) :=
  Regex.search number_pair line.

End CountryRegex.

(** The body of the loop of [get_valid_country_list] on one line: the right
    side of the assignment is evaluated before the key. The dict is called
    [valid_ports] there too. *)
Definition country_step (valid_ports : country_catalog) (line : string)
  : result country_catalog :=
  let results := CountryRegex.re_compiled_search line in
  do label <- group2 results;
  do code <- group1 results;
  do n <- int_of_str code;
  Ok (<[n := re_sub_spaces label]> valid_ports).

Fixpoint country_loop (valid_ports : country_catalog) (lines : list string)
  : result country_catalog :=
  match lines with
  | [] => Ok valid_ports
  | line :: rest =>
      do valid_ports <- country_step valid_ports line;
      country_loop valid_ports rest
  end.

(** def get_valid_country_list(), on the lines read from the label file. *)
Definition get_valid_country_list (lines : list string)
  : result country_catalog :=
  country_loop ∅ (slice 9 245 lines).

(** ** The demographics_df_clean chain *)

Module Demographics.

(** The columns of [demographics_df] that [select] keeps. *)
Record raw_row : Set := mk_raw_row {
  City : pyval;
  State_Code : pyval;
  Male_Population : pyval;
  Female_Population : pyval;
  Total_Population : pyval;
  Foreign_born : pyval;
  Race : pyval;
  Count : pyval
}.

(** The renamed columns and the added [port]. *)
Record clean_row : Set := mk_clean_row {
  city : pyval;
  state : pyval;
  male_population : pyval;
  female_population : pyval;
  total_population : pyval;
  foreign_born : pyval;
  race : pyval;
  n_persons : pyval;
  port : pyval
}.

(** select, the withColumnRenamed steps and withColumn('port', ...), on one
    row. *)
Definition with_port (valid_ports : port_catalog) (r : raw_row)
  : result clean_row :=
  do p <- city_to_port valid_ports (City r);
  Ok {| city := City r;
        state := State_Code r;
        male_population := Male_Population r;
        female_population := Female_Population r;
        total_population := Total_Population r;
        foreign_born := Foreign_born r;
        race := Race r;
        n_persons := Count r;
        port := of_optional_str p |}.

(** The assignment of demographics_df_clean. *)
Definition demographics_df_clean (valid_ports : port_catalog)
  (df : list raw_row) : result (list clean_row) :=
  traverse (with_port valid_ports) df.

(** The row without its port, as it came in. *)
Definition source_row (c : clean_row) : raw_row :=
  {| City := city c; State_Code := state c;
     Male_Population := male_population c;
     Female_Population := female_population c;
     Total_Population := total_population c;
     Foreign_born := foreign_born c; Race := race c; Count := n_persons c |}.

End Demographics.

(** ** Notions of the further statements *)

(** Some character of [s] satisfies [p]. *)
Fixpoint str_exists (p : ascii -> bool) (s : string) : bool :=
  match s with
  | String c s' => p c || str_exists p s'
  | EmptyString => false
  end.

(** The number of characters of [s] that satisfy [p]. *)
Fixpoint str_count (p : ascii -> bool) (s : string) : nat :=
  match s with
  | String c s' => ((if p c then 1 else 0) + str_count p s')%nat
  | EmptyString => O
  end.

Definition is_quote (c : ascii) : bool := Ascii.eqb c Regex.quote.

(** The text of one quote character. *)
Definition q : string := String Regex.quote EmptyString.

(** The keys of a dict that is filled in the order [codes]: a code goes to
    the end the first time it comes, and stays where it is afterwards. *)
Definition add_key (keys : list string) (code : string) : list string :=
  if existsb (String.eqb code) keys then keys else (keys ++ [code])%list.

Definition first_occurrences (codes : list string) : list string :=
  fold_left add_key codes [].

(** Every character of [s] satisfies [p]. *)
Fixpoint str_forall (p : ascii -> bool) (s : string) : bool :=
  match s with
  | String c s' => p c && str_forall p s'
  | EmptyString => true
  end.

(** What [get_valid_country_list] stores for a line that its pattern
    matches: the number of the code and the label cleaned of whitespace. *)
Definition country_entry (line : string) : option (Z * string) :=
  match CountryRegex.re_compiled_search line with
  | Some (code, label) =>
      match int_of_str code with
      | Ok n => Some (n, re_sub_spaces label)
      | Raise _ => None
      end
  | None => None
  end.

(** The number that a Python value holds, when it is a whole number. *)
Definition num_value (x : pyval) : option Z :=
  match x with
  | PInt n | PFloat n => Some n
  | _ => None
  end.

(** The whole number at or under a finite number. *)
Definition floor_value (x : pyval) : option Z :=
  match x with
  | PInt n | PFloat n => Some n
  | PFrac m e => Some (frac_num m / frac_den e)
  | _ => None
  end.

(** The days that [timedelta] counts in a finite number. *)
Definition days_of (x : pyval) : option Z :=
  match x with
  | PInt n | PFloat n => Some n
  | PFrac m e => Some (timedelta_microseconds m e / us_per_day)
  | _ => None
  end.

(** A float with a fractional part lies under the whole number above it
    by one microsecond of a day divided by [parts], at most. *)
Definition under_next_whole (parts : Z) (x : pyval) : Prop :=
  match x with
  | PFrac m e =>
      (frac_den e - frac_num m mod frac_den e) * us_per_day * parts
      <= frac_den e
  | _ => False
  end.

(** Reading a date text: four digits, a dash, two digits, a dash, two
    digits, and nothing after them. *)
Definition read_digits (cs : list ascii) : option Z :=
  if forallb is_digit cs
  then Some (fold_left (fun acc c => 10 * acc + digit_value c) cs 0)
  else None.

Definition read_iso (text : string) : option Date.date :=
  match list_ascii_of_string text with
  | [y1; y2; y3; y4; s1; m1; m2; s2; d1; d2] =>
      if Ascii.eqb s1 "-" && Ascii.eqb s2 "-" then
        match read_digits [y1; y2; y3; y4], read_digits [m1; m2],
              read_digits [d1; d2] with
        | Some y, Some m, Some d => Some (Date.mk y m d)
        | _, _, _ => None
        end
      else None
  | _ => None
  end.

(** The values of [i94res] on which [get_valid_country] is to return: a
    whole number; a float with a fractional part whose whole part, cut
    toward zero, is not a code of the catalog; the text of an integer that
    is not a code. *)
Definition country_returns (valid_countries : country_catalog) (x : pyval)
  : Prop :=
  match x with
  | PInt _ | PFloat _ => True
  | PFrac m e => valid_countries !! Z.quot (frac_num m) (frac_den e) = None
  | PStr s => exists n, int_of_str s = Ok n /\ valid_countries !! n = None
  | PNone | PNan | PInf _ => False
  end.

(** The values of [arrdate] on which [convert_to_datetime] is to return: a
    null, zero, the empty text, a whole number of days within the dates of
    the library, and a float with a fractional part when the whole number
    under it lies between [lo] and [hi]. *)
Definition date_returns (lo hi : Z) (x : pyval) : Prop :=
  match x with
  | PNone => True
  | PInt n | PFloat n => n = 0 \/ -715509 <= n <= 2936549
  | PFrac m e => lo <= frac_num m / frac_den e <= hi
  | PStr s => s = EmptyString
  | PNan | PInf _ => False
  end.

(** The code that the port pattern reads on a line that it matches. *)
Definition line_code (line : string) : option string :=
  option_map fst (Regex.re_compiled_search line).

(** The codes of a list of lines that all match. *)
Definition line_codes (lines : list string) : list string :=
  omap line_code lines.

(** ** Further sample data *)

(** A label file in which the code ALC comes twice. *)
Definition repeated_lines : list string :=
  (repeat newline 302
   ++ ["   'ALC'	=	'ALCAN, AK             '" +:+ newline;
       placeholder_line;
       "   'ALC'	=	'ALCAN 2'" +:+ newline])%list.

Definition repeated_parsed : port_catalog :=
  [("ALC", "ALCAN2"); ("XXX", "NOTREPORTED/UNKNOWN")].

Definition mexico_line : string :=
  "   582 =  'MEXICO Air Sea, and Not Reported (I-94, no land arrivals)'"
  +:+ newline.

Definition afghanistan_line : string := "   236 =  'AFGHANISTAN'" +:+ newline.

Definition albania_line : string := "   101 =  'ALBANIA'" +:+ newline.

(** A label file whose country range holds three entries. *)
Definition country_lines : list string :=
  (repeat newline 9 ++ [mexico_line; afghanistan_line; albania_line])%list.

Definition country_parsed : country_catalog :=
  <[101 := "ALBANIA"]>
    (<[236 := "AFGHANISTAN"]>
       (<[582 := "MEXICOAirSea,andNotReported(I-94,nolandarrivals)"]> ∅)).

(** A port catalog in which the text Air is a code. *)
Definition air_ports : port_catalog := [("Air", "AIRPORT")].

Definition demographics_row (name : pyval) : Demographics.raw_row :=
  {| Demographics.City := name;
     Demographics.State_Code := PStr "NJ";
     Demographics.Male_Population := PStr "138040";
     Demographics.Female_Population := PStr "143873";
     Demographics.Total_Population := PStr "281913";
     Demographics.Foreign_born := PStr "86253";
     Demographics.Race := PStr "White";
     Demographics.Count := PStr "76402" |}.

(** A row with fractional numbers: the country code 236.5 and the offset
    20574.75. *)
Definition fraction_row : immigration_row :=
  {| cicid := PFloat 12; i94yr := PFloat 2016; i94mon := PFloat 4;
     i94res := PFrac 236 1; i94port := PStr "NYC"; arrdate := PFrac 41149 2;
     i94mode := PFloat 1; i94addr := PStr "NY"; depdate := PNone;
     i94bir := PNan; i94visa := PFloat 2; airline := PStr "AA";
     fltno := PStr "00199"; visatype := PStr "B2"; gender_raw := PStr "M" |}.

(** A row without a country code, at a port that the filter drops. *)
Definition null_country_row : immigration_row :=
  {| cicid := PFloat 13; i94yr := PFloat 2016; i94mon := PFloat 4;
     i94res := PNone; i94port := PStr "NYC"; arrdate := PFloat 20545;
     i94mode := PFloat 1; i94addr := PStr "NY"; depdate := PNone;
     i94bir := PFloat 25; i94visa := PFloat 2; airline := PStr "AA";
     fltno := PStr "00199"; visatype := PStr "B2"; gender_raw := PStr "M" |}.

Definition demographics_rows : list Demographics.raw_row :=
  [demographics_row (PStr "Newark"); demographics_row (PStr "Silver Spring");
   demographics_row (PStr "Newark")].

(** * Facts about the calendar of [datetime.date] *)

Module DateFacts.
Import Date DateCheck.

(** A bounded universal statement over [Z] is decided by running it. *)

Lemma in_range lo n x : lo <= x < lo + Z.of_nat n -> In x (range lo n).
Proof.
  intros Hx. unfold range. apply in_map_iff.
  exists (Z.to_nat (x - lo)). split; [lia |].
  apply in_seq. lia.
Qed.

Lemma forallb_range (P : Z -> bool) lo n :
  forallb P (range lo n) = true ->
  forall x, lo <= x < lo + Z.of_nat n -> P x = true.
Proof.
  intros Hall x Hx. rewrite forallb_forall in Hall.
  apply Hall, in_range, Hx.
Qed.

Lemma month_day_checked :
  forallb (fun l =>
    forallb (fun m => forallb (month_day_check l m) (range 1 31)) (range 1 12))
    [true; false] = true.
Proof. vm_compute. reflexivity. Qed.

Lemma month_day_of_year leapyear m d :
  1 <= m <= 12 -> 1 <= d <= month_len leapyear m ->
  month_day leapyear (day_of_year leapyear m d) = (m, d)
  /\ 0 <= day_of_year leapyear m d < 365 + leap_day leapyear.
Proof.
  intros Hm Hd.
  assert (Hd31 : d <= 31).
  { unfold month_len, DAYS_IN_MONTH in Hd.
    destruct ((m =? 2) && leapyear); [lia |].
    destruct m as [| p | p]; try lia.
    do 4 (destruct p as [p | p |]; try lia). }
  pose proof month_day_checked as Hall.
  rewrite forallb_forall in Hall.
  assert (Hl : In leapyear [true; false]) by (destruct leapyear; simpl; auto).
  specialize (Hall _ Hl).
  pose proof (forallb_range _ _ _ Hall m ltac:(lia)) as Hrow.
  pose proof (forallb_range _ _ _ Hrow d ltac:(lia)) as Hcell.
  unfold month_day_check in Hcell.
  replace (d <=? month_len leapyear m) with true in Hcell
    by (symmetry; apply Z.leb_le; lia).
  simpl implb in Hcell.
  destruct (month_day leapyear (day_of_year leapyear m d)) as [m' d'].
  repeat (apply andb_prop in Hcell; destruct Hcell as [Hcell ?]).
  split; [f_equal; lia | lia].
Qed.

(** The year in base 400 / 100 / 4 / 1. *)
Lemma year_digits Y :
  0 <= Y ->
  exists a b c e,
    Y = 400 * a + 100 * b + 4 * c + e
    /\ 0 <= a /\ 0 <= b < 4 /\ 0 <= c < 25 /\ 0 <= e < 4.
Proof.
  intros HY.
  exists (Y / 400), (Y mod 400 / 100), (Y mod 100 / 4), (Y mod 4).
  Z.div_mod_to_equations. lia.
Qed.

Lemma days_before_year_digits a b c e :
  0 <= a -> 0 <= b < 4 -> 0 <= c < 25 -> 0 <= e < 4 ->
  days_before_year (400 * a + 100 * b + 4 * c + e + 1)
  = 146097 * a + 36524 * b + 1461 * c + 365 * e.
Proof.
  intros. unfold days_before_year. Z.div_mod_to_equations. lia.
Qed.

Lemma is_leap_digits a b c e :
  0 <= a -> 0 <= b < 4 -> 0 <= c < 25 -> 0 <= e < 4 ->
  is_leap (400 * a + 100 * b + 4 * c + e + 1)
  = (e =? 3) && (negb (c =? 24) || (b =? 3)).
Proof.
  intros. unfold is_leap.
  assert (H4 : (400 * a + 100 * b + 4 * c + e + 1) mod 4 = (e + 1) mod 4)
    by (Z.div_mod_to_equations; lia).
  assert (H100 : (400 * a + 100 * b + 4 * c + e + 1) mod 100
                 = (4 * c + e + 1) mod 100)
    by (Z.div_mod_to_equations; lia).
  assert (H400 : (400 * a + 100 * b + 4 * c + e + 1) mod 400
                 = (100 * b + 4 * c + e + 1) mod 400)
    by (Z.div_mod_to_equations; lia).
  rewrite H4, H100, H400.
  destruct (Z.eqb_spec e 3) as [-> | He].
  - destruct (Z.eqb_spec c 24) as [-> | Hc].
    + destruct (Z.eqb_spec b 3) as [-> | Hb]; [reflexivity |].
      assert (b = 0 \/ b = 1 \/ b = 2) as [-> | [-> | ->]] by lia;
        reflexivity.
    + replace ((4 * c + 3 + 1) mod 100 =? 0) with false; [reflexivity |].
      symmetry. apply Z.eqb_neq. Z.div_mod_to_equations. lia.
  - replace ((e + 1) mod 4 =? 0) with false; [reflexivity |].
    symmetry. apply Z.eqb_neq. Z.div_mod_to_equations. lia.
Qed.

Lemma div_mod_known n k q r :
  n = k * q + r -> 0 <= r < k -> n / k = q /\ n mod k = r.
Proof.
  intros Hn Hr. split.
  - symmetry. apply Z.div_unique with r; [left; exact Hr | exact Hn].
  - symmetry. apply Z.mod_unique with q; [left; exact Hr | exact Hn].
Qed.

(** [ord2ymd] on the day number of the day [doy] (from 0) of year [y]. *)
Lemma ord2ymd_year_day y doy :
  1 <= y -> 0 <= doy < 365 + leap_day (is_leap y) ->
  ord2ymd (days_before_year y + doy + 1)
  = let '(m, d) := month_day (is_leap y) doy in mk y m d.
Proof.
  intros Hy Hdoy.
  destruct (year_digits (y - 1)) as (a & b & c & e & HY & Ha & Hb & Hc & He);
    [lia |].
  assert (Hyear : y = 400 * a + 100 * b + 4 * c + e + 1) by lia.
  rewrite Hyear in Hdoy |- *.
  rewrite is_leap_digits in Hdoy |- * by assumption.
  rewrite days_before_year_digits by assumption.
  unfold ord2ymd, DI400Y, DI100Y, DI4Y. cbv zeta.
  replace (146097 * a + 36524 * b + 1461 * c + 365 * e + doy + 1 - 1)
    with (146097 * a + 36524 * b + 1461 * c + 365 * e + doy) by lia.
  destruct (Z.eq_dec doy 365) as [-> | Hlast].
  - (* the last day of a leap year *)
    destruct ((e =? 3) && (negb (c =? 24) || (b =? 3))) eqn:Hleap;
      [| simpl in Hdoy; lia].
    apply andb_prop in Hleap. destruct Hleap as [He3 Hcb].
    apply Z.eqb_eq in He3. subst e.
    destruct (Z.eq_dec c 24) as [-> | Hc24].
    + assert (b = 3) as ->.
      { destruct (Z.eqb_spec b 3); [assumption | discriminate]. }
      destruct (div_mod_known
                  (146097 * a + 36524 * 3 + 1461 * 24 + 365 * 3 + 365)
                  146097 a 146096) as [-> ->]; [lia | lia |].
      change (146096 / 36524) with 4. change (146096 mod 36524) with 0.
      change (0 / 1461) with 0. change (0 mod 1461) with 0.
      change (0 / 365) with 0. change (0 mod 365) with 0.
      change ((0 =? 4) || (4 =? 4)) with true. cbv iota.
      change (month_day true 365) with (12, 31).
      f_equal. lia.
    + destruct (div_mod_known
                  (146097 * a + 36524 * b + 1461 * c + 365 * 3 + 365)
                  146097 a (36524 * b + 1461 * c + 1460)) as [-> ->];
        [lia | lia |].
      destruct (div_mod_known (36524 * b + 1461 * c + 1460)
                  36524 b (1461 * c + 1460)) as [-> ->]; [lia | lia |].
      destruct (div_mod_known (1461 * c + 1460) 1461 c 1460) as [-> ->];
        [lia | lia |].
      change (1460 / 365) with 4. change (1460 mod 365) with 0.
      change (4 =? 4) with true. cbv iota. simpl orb. cbv iota.
      change (month_day true 365) with (12, 31).
      f_equal. lia.
  - assert (Hdoy' : 0 <= doy < 365).
    { destruct ((e =? 3) && (negb (c =? 24) || (b =? 3)));
        simpl in Hdoy; lia. }
    assert (Hcap : 1461 * c + 365 * e + doy < 36524).
    { destruct (Z.eq_dec c 24) as [-> | Hc24]; [| lia].
      destruct (Z.eq_dec e 3) as [-> | He3]; lia. }
    destruct (div_mod_known
                (146097 * a + 36524 * b + 1461 * c + 365 * e + doy)
                146097 a (36524 * b + 1461 * c + 365 * e + doy)) as [-> ->];
      [lia | lia |].
    destruct (div_mod_known (36524 * b + 1461 * c + 365 * e + doy)
                36524 b (1461 * c + 365 * e + doy)) as [-> ->];
      [lia | lia |].
    destruct (div_mod_known (1461 * c + 365 * e + doy)
                1461 c (365 * e + doy)) as [-> ->]; [lia | lia |].
    destruct (div_mod_known (365 * e + doy) 365 e doy) as [-> ->];
      [lia | lia |].
    replace (e =? 4) with false by (symmetry; apply Z.eqb_neq; lia).
    replace (b =? 4) with false by (symmetry; apply Z.eqb_neq; lia).
    simpl orb. cbv iota.
    destruct (month_day _ doy) as [m d]. f_equal. lia.
Qed.

Lemma days_in_month_len y m : days_in_month y m = month_len (is_leap y) m.
Proof. reflexivity. Qed.

Lemma toordinal_day_of_year dt :
  toordinal dt
  = days_before_year (year dt)
    + day_of_year (is_leap (year dt)) (month dt) (day dt) + 1.
Proof.
  unfold toordinal, ymd2ord, days_before_month, day_of_year. lia.
Qed.

(** [fromordinal] undoes [toordinal] on every date of the calendar. *)
Lemma ord2ymd_toordinal dt : valid dt -> ord2ymd (toordinal dt) = dt.
Proof.
  intros (Hy & Hm & Hd). rewrite days_in_month_len in Hd.
  destruct (month_day_of_year _ _ _ Hm Hd) as [Hmd Hrange].
  rewrite toordinal_day_of_year, ord2ymd_year_day by assumption.
  rewrite Hmd. destruct dt; reflexivity.
Qed.

Lemma days_before_year_succ y :
  1 <= y ->
  days_before_year (y + 1) = days_before_year y + 365 + leap_day (is_leap y).
Proof.
  intros Hy.
  destruct (year_digits (y - 1)) as (a & b & c & e & HY & Ha & Hb & Hc & He);
    [lia |].
  assert (Hyear : y = 400 * a + 100 * b + 4 * c + e + 1) by lia.
  rewrite Hyear at 2 3.
  rewrite is_leap_digits, days_before_year_digits by assumption.
  unfold days_before_year.
  destruct (Z.eqb_spec e 3) as [-> | He3].
  - destruct (Z.eqb_spec c 24) as [-> | Hc24].
    + destruct (Z.eqb_spec b 3) as [-> | Hb3]; simpl leap_day;
        Z.div_mod_to_equations; lia.
    + simpl leap_day. Z.div_mod_to_equations. lia.
  - simpl leap_day. Z.div_mod_to_equations. lia.
Qed.

Lemma days_before_year_nonneg y : 1 <= y -> 0 <= days_before_year y.
Proof. intros. unfold days_before_year. Z.div_mod_to_equations. lia. Qed.

Lemma next_month_checked :
  forallb (fun l => forallb (next_month_check l) (range 1 12)) [true; false]
  = true.
Proof. vm_compute. reflexivity. Qed.

Lemma next_month leapyear m :
  1 <= m <= 12 -> next_month_check leapyear m = true.
Proof.
  intros Hm. pose proof next_month_checked as Hall.
  rewrite forallb_forall in Hall.
  assert (Hl : In leapyear [true; false]) by (destruct leapyear; simpl; auto).
  apply (forallb_range _ _ _ (Hall _ Hl)). lia.
Qed.

(** One step of the calendar is one more in the day number. *)
Lemma next_day_ordinal dt :
  valid dt ->
  valid (next_day dt) /\ toordinal (next_day dt) = toordinal dt + 1.
Proof.
  intros (Hy & Hm & Hd). unfold next_day.
  destruct (Z.ltb_spec (day dt) (days_in_month (year dt) (month dt)))
    as [Hlt | Hge].
  - split; [unfold valid; simpl; lia |].
    unfold toordinal, ymd2ord. simpl. lia.
  - assert (Hlast : day dt = month_len (is_leap (year dt)) (month dt))
      by (rewrite <- days_in_month_len; lia).
    pose proof (next_month (is_leap (year dt)) _ Hm) as Hnext.
    unfold next_month_check in Hnext.
    apply andb_prop in Hnext. destruct Hnext as [Hin Hout].
    destruct (Z.ltb_spec (month dt) 12) as [Hm12 | Hm12].
    + simpl implb in Hin. apply andb_prop in Hin. destruct Hin as [Hdoy Hlen].
      split.
      * unfold valid; simpl. rewrite days_in_month_len. lia.
      * rewrite !toordinal_day_of_year. simpl. rewrite Hlast. lia.
    + assert (Hdec : month dt = 12) by lia.
      rewrite Hdec in Hout. simpl implb in Hout.
      split.
      * unfold valid, days_in_month; simpl. lia.
      * rewrite !toordinal_day_of_year. simpl year. simpl month. simpl day.
        rewrite days_before_year_succ by assumption.
        rewrite Hlast, Hdec.
        change (day_of_year (is_leap (year dt + 1)) 1 1) with 0.
        lia.
Qed.

Lemma iter_next_day k dt :
  valid dt ->
  valid (Nat.iter k next_day dt)
  /\ toordinal (Nat.iter k next_day dt) = toordinal dt + Z.of_nat k.
Proof.
  intros Hv. induction k as [| k [IHv IHo]].
  - simpl. split; [assumption | lia].
  - rewrite Nat.iter_succ.
    destruct (next_day_ordinal _ IHv) as [Hv' Ho'].
    split; [assumption | lia].
Qed.

Lemma valid_date_min : valid date_min.
Proof. unfold valid, date_min; simpl. unfold days_in_month; simpl. lia. Qed.

(** [fromordinal] is the calendar walked from the date of day number 1. *)
Lemma ord2ymd_walk k : ord2ymd (1 + Z.of_nat k) = Nat.iter k next_day date_min.
Proof.
  destruct (iter_next_day k _ valid_date_min) as [Hv Ho].
  rewrite <- (ord2ymd_toordinal _ Hv), Ho. reflexivity.
Qed.

Lemma toordinal_pos dt : valid dt -> 1 <= toordinal dt.
Proof.
  intros (Hy & Hm & Hd). rewrite days_in_month_len in Hd.
  destruct (month_day_of_year _ _ _ Hm Hd) as [_ Hrange].
  rewrite toordinal_day_of_year.
  pose proof (days_before_year_nonneg _ Hy). lia.
Qed.

(** [date + timedelta(d)] is the date moved by [d] days of the calendar,
    whenever the day number stays in the range of the library. *)
Lemma add_days_shifted dt d :
  valid dt ->
  1 <= toordinal dt + d <= MAXORDINAL ->
  exists r,
    add_days dt d = Ok r
    /\ shifted dt d r
    /\ valid r
    /\ toordinal r = toordinal dt + d.
Proof.
  intros Hv Hrange. unfold add_days.
  replace ((0 <? toordinal dt + d) && (toordinal dt + d <=? MAXORDINAL))
    with true
    by (symmetry; apply andb_true_intro; split;
        [apply Z.ltb_lt | apply Z.leb_le]; lia).
  destruct (iter_next_day (Z.to_nat (toordinal dt + d - 1)) _ valid_date_min)
    as [Hvr Hor].
  change (toordinal date_min) with 1 in Hor.
  assert (Hr : ord2ymd (toordinal dt + d)
               = Nat.iter (Z.to_nat (toordinal dt + d - 1)) next_day date_min).
  { rewrite <- ord2ymd_walk. f_equal. lia. }
  exists (ord2ymd (toordinal dt + d)). split; [reflexivity |].
  rewrite Hr. split; [| split; [exact Hvr | lia]].
  unfold shifted, plus_days.
  destruct (Z.leb_spec 0 d) as [Hd | Hd].
  - destruct (iter_next_day (Z.to_nat d) _ Hv) as [Hv' Ho'].
    rewrite <- (ord2ymd_toordinal _ Hv'), Ho', <- Hr. f_equal. lia.
  - destruct (iter_next_day (Z.to_nat (- d)) _ Hvr) as [Hv' Ho'].
    rewrite <- (ord2ymd_toordinal _ Hv'), Ho', Hor.
    transitivity (ord2ymd (toordinal dt));
      [f_equal; lia | apply ord2ymd_toordinal, Hv].
Qed.

(** *** The text of a date *)

Lemma digits_last fuel n acc :
  n < 10 -> digits fuel n acc = String (digit_char n) acc.
Proof.
  intros Hn. destruct fuel; simpl; [reflexivity |].
  replace (n <? 10) with true by (symmetry; apply Z.ltb_lt; exact Hn).
  reflexivity.
Qed.

Lemma digits_step fuel n acc :
  10 <= n ->
  digits (S fuel) n acc = digits fuel (n / 10) (String (digit_char n) acc).
Proof.
  intros Hn. simpl.
  replace (n <? 10) with false by (symmetry; apply Z.ltb_ge; exact Hn).
  reflexivity.
Qed.

(** The fuel of [decimal] covers the digits: [log2 n] is at least [k] from
    [2 ^ k] on. *)
Lemma log2_fuel n k :
  2 ^ Z.of_nat k <= n -> exists f, Z.to_nat (Z.log2 n) = (k + f)%nat.
Proof.
  intros Hn. exists (Z.to_nat (Z.log2 n) - k)%nat.
  assert (Z.of_nat k <= Z.log2 n).
  { rewrite <- (Z.log2_pow2 (Z.of_nat k)) by lia. apply Z.log2_le_mono, Hn. }
  lia.
Qed.

Lemma length_decimal n :
  0 <= n < 10000 ->
  String.length (decimal n)
  = if n <? 10 then 1%nat else if n <? 100 then 2%nat
    else if n <? 1000 then 3%nat else 4%nat.
Proof.
  intros Hn. unfold decimal.
  destruct (Z.ltb_spec n 10); [rewrite digits_last by lia; reflexivity |].
  destruct (Z.ltb_spec n 100).
  { destruct (log2_fuel n 1) as [f ->]; [simpl; lia |].
    simpl Nat.add.
    rewrite digits_step, digits_last
      by (try apply Z.div_lt_upper_bound; lia).
    reflexivity. }
  destruct (Z.ltb_spec n 1000).
  { destruct (log2_fuel n 2) as [f ->]; [simpl; lia |].
    simpl Nat.add.
    rewrite digits_step by lia.
    rewrite digits_step by (apply Z.div_le_lower_bound; lia).
    rewrite digits_last by (Z.div_mod_to_equations; lia).
    reflexivity. }
  destruct (log2_fuel n 3) as [f ->]; [simpl; lia |].
  simpl Nat.add.
  rewrite digits_step by lia.
  rewrite digits_step by (apply Z.div_le_lower_bound; lia).
  rewrite digits_step by (Z.div_mod_to_equations; lia).
  rewrite digits_last by (Z.div_mod_to_equations; lia).
  reflexivity.
Qed.

Lemma length_append a b :
  String.length (a +:+ b) = (String.length a + String.length b)%nat.
Proof.
  induction a as [| c a IH]; [reflexivity |].
  change (String c a +:+ b) with (String c (a +:+ b)). simpl. congruence.
Qed.

Lemma length_zeros k : String.length (zeros k) = k.
Proof. induction k; simpl; congruence. Qed.

Lemma length_fmt_0d_4 n :
  0 <= n < 10000 -> String.length (fmt_0d 4 n) = 4%nat.
Proof.
  intros Hn. unfold fmt_0d.
  rewrite length_append, length_zeros, length_decimal by lia.
  repeat (destruct (_ <? _)); reflexivity.
Qed.

Lemma length_fmt_0d_2 n :
  0 <= n < 100 -> String.length (fmt_0d 2 n) = 2%nat.
Proof.
  intros Hn. unfold fmt_0d.
  rewrite length_append, length_zeros, length_decimal by lia.
  destruct (Z.ltb_spec n 10); [reflexivity |].
  destruct (Z.ltb_spec n 100); [reflexivity | lia].
Qed.

(** A date whose day number is in the range of the library has a year of
    four digits at most. *)
Lemma year_bound dt :
  valid dt -> toordinal dt <= MAXORDINAL -> year dt < 10000.
Proof.
  intros Hv Hmax. pose proof Hv as (Hy & Hm & Hd).
  rewrite days_in_month_len in Hd.
  destruct (month_day_of_year _ _ _ Hm Hd) as [_ Hrange].
  rewrite toordinal_day_of_year in Hmax. unfold MAXORDINAL in Hmax.
  destruct (Z.lt_ge_cases (year dt) 10000) as [Hlt | Hge]; [exact Hlt |].
  exfalso. unfold days_before_year in Hmax.
  revert Hmax. Z.div_mod_to_equations. lia.
Qed.

Lemma day_bound dt : valid dt -> day dt < 100.
Proof.
  intros (Hy & Hm & Hd). unfold days_in_month, DAYS_IN_MONTH in Hd.
  destruct ((month dt =? 2) && is_leap (year dt)); [lia |].
  destruct (month dt) as [| p | p]; try lia.
  do 4 (destruct p as [p | p |]; try lia).
Qed.

(** The text of a date of the library is ten characters: four of the year,
    two of the month, two of the day and two dashes. *)
Lemma length_isoformat dt :
  valid dt -> toordinal dt <= MAXORDINAL ->
  String.length (isoformat dt) = 10%nat.
Proof.
  intros Hv Hmax.
  pose proof (year_bound _ Hv Hmax). pose proof (day_bound _ Hv).
  destruct Hv as (Hy & Hm & Hd).
  unfold isoformat. rewrite !length_append.
  rewrite length_fmt_0d_4, !length_fmt_0d_2 by lia. reflexivity.
Qed.

(** *** Reading the text back *)

Lemma digit_char_digit n :
  is_digit (digit_char n) = true /\ digit_value (digit_char n) = n mod 10.
Proof.
  unfold digit_char.
  assert (Hk : 0 <= n mod 10 < 10) by (apply Z.mod_pos_bound; lia).
  revert Hk. generalize (n mod 10). intros k Hk.
  assert (Hcases : k = 0 \/ k = 1 \/ k = 2 \/ k = 3 \/ k = 4 \/ k = 5
                   \/ k = 6 \/ k = 7 \/ k = 8 \/ k = 9) by lia.
  repeat (destruct Hcases as [-> | Hcases]; [split; reflexivity |]).
  subst k. split; reflexivity.
Qed.

Lemma decimal_digits n :
  0 <= n < 10000 ->
  decimal n
  = if n <? 10 then String (digit_char n) EmptyString
    else if n <? 100 then
      String (digit_char (n / 10)) (String (digit_char n) EmptyString)
    else if n <? 1000 then
      String (digit_char (n / 100))
        (String (digit_char (n / 10)) (String (digit_char n) EmptyString))
    else
      String (digit_char (n / 1000))
        (String (digit_char (n / 100))
           (String (digit_char (n / 10)) (String (digit_char n) EmptyString))).
Proof.
  intros Hn. unfold decimal.
  assert (H100 : n / 10 / 10 = n / 100)
    by (rewrite Z.div_div by lia; reflexivity).
  assert (H1000 : n / 10 / 10 / 10 = n / 1000)
    by (rewrite !Z.div_div by lia; reflexivity).
  destruct (Z.ltb_spec n 10); [rewrite digits_last by lia; reflexivity |].
  destruct (Z.ltb_spec n 100).
  { destruct (log2_fuel n 1) as [f ->]; [simpl; lia |].
    simpl Nat.add.
    rewrite digits_step, digits_last
      by (try apply Z.div_lt_upper_bound; lia).
    reflexivity. }
  destruct (Z.ltb_spec n 1000).
  { destruct (log2_fuel n 2) as [f ->]; [simpl; lia |].
    simpl Nat.add.
    rewrite digits_step by lia.
    rewrite digits_step by (apply Z.div_le_lower_bound; lia).
    rewrite digits_last by (Z.div_mod_to_equations; lia).
    rewrite H100. reflexivity. }
  destruct (log2_fuel n 3) as [f ->]; [simpl; lia |].
  simpl Nat.add.
  rewrite digits_step by lia.
  rewrite digits_step by (apply Z.div_le_lower_bound; lia).
  rewrite digits_step by (Z.div_mod_to_equations; lia).
  rewrite digits_last by (Z.div_mod_to_equations; lia).
  rewrite H1000, H100. reflexivity.
Qed.

Lemma digit_char_zero n : 0 <= n < 10 -> digit_char (n / 10) = "0"%char.
Proof. intros Hn. rewrite Z.div_small by lia. reflexivity. Qed.

Lemma fmt_0d_4_digits n :
  0 <= n < 10000 ->
  fmt_0d 4 n
  = String (digit_char (n / 1000))
      (String (digit_char (n / 100))
         (String (digit_char (n / 10)) (String (digit_char n) EmptyString))).
Proof.
  intros Hn. unfold fmt_0d. rewrite decimal_digits by exact Hn.
  destruct (Z.ltb_spec n 10).
  { rewrite (Z.div_small n 1000), (Z.div_small n 100), (Z.div_small n 10)
      by lia.
    reflexivity. }
  destruct (Z.ltb_spec n 100).
  { rewrite (Z.div_small n 1000), (Z.div_small n 100) by lia. reflexivity. }
  destruct (Z.ltb_spec n 1000).
  { rewrite (Z.div_small n 1000) by lia. reflexivity. }
  reflexivity.
Qed.

Lemma fmt_0d_2_digits n :
  0 <= n < 100 ->
  fmt_0d 2 n = String (digit_char (n / 10)) (String (digit_char n) EmptyString).
Proof.
  intros Hn. unfold fmt_0d. rewrite decimal_digits by lia.
  destruct (Z.ltb_spec n 10).
  { rewrite (Z.div_small n 10) by lia. reflexivity. }
  destruct (Z.ltb_spec n 100); [reflexivity | lia].
Qed.

(** The text of a date of the library reads back as that date. *)
Lemma read_iso_isoformat dt :
  valid dt -> year dt < 10000 -> read_iso (isoformat dt) = Some dt.
Proof.
  intros Hv Hy. pose proof (day_bound _ Hv) as Hday.
  destruct Hv as (Hy1 & Hm & Hd). destruct dt as [y m d]. simpl in *.
  unfold isoformat. simpl year. simpl month. simpl day.
  rewrite fmt_0d_4_digits, !fmt_0d_2_digits by lia.
  unfold read_iso.
  change (list_ascii_of_string _)
    with [digit_char (y / 1000); digit_char (y / 100); digit_char (y / 10);
          digit_char y; "-"%char; digit_char (m / 10); digit_char m;
          "-"%char; digit_char (d / 10); digit_char d].
  cbv beta iota. change (Ascii.eqb "-" "-") with true. simpl andb. cbv iota.
  unfold read_digits. simpl forallb. simpl fold_left.
  rewrite !(proj1 (digit_char_digit _)), !(proj2 (digit_char_digit _)).
  simpl andb. cbv iota. f_equal. f_equal; Z.div_mod_to_equations; lia.
Qed.

(** *** The date that lies [d] days from another is one date *)

Lemma shifted_ordinal dt d r :
  valid dt -> valid r -> shifted dt d r -> toordinal r = toordinal dt + d.
Proof.
  intros Hdt Hr. unfold shifted, plus_days.
  destruct (Z.leb_spec 0 d) as [Hd | Hd]; intros Hiter.
  - destruct (iter_next_day (Z.to_nat d) _ Hdt) as [_ Ho].
    rewrite Hiter in Ho. lia.
  - destruct (iter_next_day (Z.to_nat (- d)) _ Hr) as [_ Ho].
    rewrite Hiter in Ho. lia.
Qed.

Lemma toordinal_inj a b :
  valid a -> valid b -> toordinal a = toordinal b -> a = b.
Proof.
  intros Ha Hb Hab.
  rewrite <- (ord2ymd_toordinal _ Ha), <- (ord2ymd_toordinal _ Hb), Hab.
  reflexivity.
Qed.

(** What [date + timedelta] gives when it returns: the one date of the
    calendar that lies that many days away, with a text that reads back
    as it. *)
Lemma add_days_date dt d r :
  valid dt ->
  add_days dt d = Ok r ->
  valid r /\ shifted dt d r
  /\ (forall r', valid r' -> shifted dt d r' -> r' = r)
  /\ read_iso (isoformat r) = Some r.
Proof.
  intros Hv Hadd. unfold add_days in Hadd.
  destruct ((0 <? toordinal dt + d) && (toordinal dt + d <=? MAXORDINAL))
    eqn:Hrange; [| discriminate].
  apply andb_prop in Hrange. destruct Hrange as [Hlo Hhi].
  apply Z.ltb_lt in Hlo. apply Z.leb_le in Hhi.
  destruct (add_days_shifted dt d Hv) as (r0 & Hadd0 & Hshift & Hvr & Hord);
    [lia |].
  unfold add_days in Hadd0.
  replace ((0 <? toordinal dt + d) && (toordinal dt + d <=? MAXORDINAL))
    with true in Hadd0
    by (symmetry; apply andb_true_intro; split;
        [apply Z.ltb_lt | apply Z.leb_le]; lia).
  assert (r0 = r) by congruence. subst r0.
  split; [exact Hvr |]. split; [exact Hshift |]. split.
  - intros r' Hvr' Hshift'. apply toordinal_inj; [assumption | assumption |].
    rewrite (shifted_ordinal _ _ _ Hv Hvr' Hshift'). lia.
  - apply read_iso_isoformat; [exact Hvr |].
    apply year_bound; [exact Hvr | lia].
Qed.

End DateFacts.

(** * Facts about [timedelta] on a float with a fractional part *)

Module TimedeltaFacts.

Lemma round_half_even_le num den k :
  0 < den -> num <= k * den -> round_half_even num den <= k.
Proof.
  intros Hden Hle. unfold round_half_even.
  pose proof (Z.div_mod num den ltac:(lia)) as Heq.
  pose proof (Z.mod_pos_bound num den Hden) as Hr.
  set (q := num / den) in *. set (r := num mod den) in *.
  assert (Hq : q <= k) by nia.
  destruct (Z.ltb_spec (2 * r) den); [exact Hq |].
  assert (Hq1 : q + 1 <= k) by nia.
  destruct (Z.ltb_spec den (2 * r)); [exact Hq1 |].
  destruct (Z.even q); [exact Hq | exact Hq1].
Qed.

Lemma round_half_even_ge num den k :
  0 < den -> k * den <= num -> k <= round_half_even num den.
Proof.
  intros Hden Hle. unfold round_half_even.
  pose proof (Z.div_mod num den ltac:(lia)) as Heq.
  pose proof (Z.mod_pos_bound num den Hden) as Hr.
  set (q := num / den) in *. set (r := num mod den) in *.
  assert (Hq : k <= q) by nia.
  destruct (Z.ltb_spec (2 * r) den); [exact Hq |].
  destruct (Z.ltb_spec den (2 * r)); [lia |].
  destruct (Z.even q); lia.
Qed.

(** From half under an even number on, the rounding gives that number at
    least. *)
Lemma round_half_even_half num den k :
  0 < den -> Z.even k = true ->
  (2 * k - 1) * den <= 2 * num -> k <= round_half_even num den.
Proof.
  intros Hden Hk Hle. unfold round_half_even.
  pose proof (Z.div_mod num den ltac:(lia)) as Heq.
  pose proof (Z.mod_pos_bound num den Hden) as Hr.
  set (q := num / den) in *. set (r := num mod den) in *.
  assert (Hq : k - 1 <= q) by nia.
  destruct (Z.eq_dec q (k - 1)) as [Hlast | Hmore].
  - assert (Hodd : Z.even q = false).
    { rewrite Hlast, Z.even_sub, Hk. reflexivity. }
    rewrite Hodd.
    destruct (Z.ltb_spec (2 * r) den); [nia |].
    destruct (Z.ltb_spec den (2 * r)); lia.
  - destruct (Z.ltb_spec (2 * r) den); [lia |].
    destruct (Z.ltb_spec den (2 * r)); [lia |].
    destruct (Z.even q); lia.
Qed.

Lemma round_half_even_add num den k :
  0 < den -> Z.even k = true ->
  round_half_even (k * den + num) den = k + round_half_even num den.
Proof.
  intros Hden Hk. unfold round_half_even.
  rewrite (Z.add_comm (k * den) num), Z.div_add, Z.mod_add by lia.
  rewrite (Z.add_comm (num / den) k), Z.even_add, Hk.
  destruct (Z.even (num / den)); simpl;
    repeat (destruct (_ <? _)); lia.
Qed.

(** Rounding to a double does not cross a multiple of [2^j] when the last
    of the 53 leading bits is worth [2^j] at most. *)
Lemma round_double_bounds a c j :
  0 <= j -> Z.log2 (Z.abs a) + 1 - 53 <= j ->
  (a <= c * 2 ^ j -> round_double a <= c * 2 ^ j)
  /\ (c * 2 ^ j <= a -> c * 2 ^ j <= round_double a).
Proof.
  intros Hj Hbits. unfold round_double.
  destruct (Z.leb_spec (Z.log2 (Z.abs a) + 1) 53) as [Hsmall | Hbig];
    [tauto |].
  set (s := Z.log2 (Z.abs a) + 1 - 53) in *.
  assert (Hs : 0 < 2 ^ s) by (apply Z.pow_pos_nonneg; lia).
  assert (Hsplit : 2 ^ j = 2 ^ (j - s) * 2 ^ s).
  { rewrite <- Z.pow_add_r by lia. f_equal. lia. }
  rewrite Hsplit, Z.mul_assoc. split; intros Ha.
  - apply Z.mul_le_mono_nonneg_r; [lia |].
    apply round_half_even_le; [exact Hs | exact Ha].
  - apply Z.mul_le_mono_nonneg_r; [lia |].
    apply round_half_even_ge; [exact Hs | exact Ha].
Qed.

Lemma frac_den_pos e : 2 <= frac_den e /\ exists h, frac_den e = 2 * h.
Proof.
  unfold frac_den.
  assert (H : 2 ^ Z.pos e = 2 * 2 ^ (Z.pos e - 1)).
  { rewrite <- Z.pow_succ_r by lia. f_equal. lia. }
  split; [| eauto].
  assert (0 < 2 ^ (Z.pos e - 1)) by (apply Z.pow_pos_nonneg; lia). lia.
Qed.

(** The product of the fractional part with the microseconds of a day, and
    its rounding to a double, against the multiples of the denominator. *)
Lemma dnum_bits r e :
  Z.abs r < frac_den e ->
  Z.log2 (Z.abs (us_per_day * r)) + 1 - 53 <= Z.pos e - 1.
Proof.
  intros Hr. unfold frac_den in *.
  destruct (Z.eq_dec r 0) as [-> | Hnz]; [simpl; lia |].
  assert (Hlt : Z.abs (us_per_day * r) < 2 ^ (37 + Z.pos e)).
  { rewrite Z.abs_mul, Z.pow_add_r by lia.
    change (Z.abs us_per_day) with 86400000000.
    change (2 ^ 37) with 137438953472.
    assert (0 < 2 ^ Z.pos e) by (apply Z.pow_pos_nonneg; lia). nia. }
  apply Z.log2_lt_pow2 in Hlt; [lia |].
  unfold us_per_day. lia.
Qed.

Lemma dnum_bounds r e c :
  Z.abs r < frac_den e ->
  (us_per_day * r <= c * frac_den e ->
   round_double (us_per_day * r) <= c * frac_den e)
  /\ (c * frac_den e <= us_per_day * r ->
      c * frac_den e <= round_double (us_per_day * r)).
Proof.
  intros Hr. pose proof (dnum_bits r e Hr) as Hbits. unfold frac_den in *.
  apply round_double_bounds; lia.
Qed.

(** The same against the odd multiples of half the denominator. *)
Lemma dnum_half_bounds r e c h :
  Z.abs r < frac_den e -> frac_den e = 2 * h ->
  c * h <= us_per_day * r -> c * h <= round_double (us_per_day * r).
Proof.
  intros Hr Hh. pose proof (dnum_bits r e Hr) as Hbits.
  assert (Hhalf : h = 2 ^ (Z.pos e - 1)).
  { unfold frac_den in Hh.
    assert (H : 2 ^ Z.pos e = 2 * 2 ^ (Z.pos e - 1)).
    { rewrite <- Z.pow_succ_r by lia. f_equal. lia. }
    lia. }
  rewrite Hhalf. apply round_double_bounds; lia.
Qed.

(** The days that [timedelta] counts in a float with a fractional part: the
    whole number under it, or the one above. It is the one above when the
    float lies half a microsecond under it at most, and only when it lies
    one microsecond under it at most. *)
Lemma timedelta_frac_days m e :
  let d := frac_num m / frac_den e in
  let k := timedelta_microseconds m e / us_per_day in
  (k = d \/ (k = d + 1 /\ under_next_whole 1 (PFrac m e)))
  /\ (under_next_whole 2 (PFrac m e) -> k = d + 1).
Proof.
  intros d k. subst d k. unfold under_next_whole, timedelta_microseconds.
  destruct (frac_den_pos e) as [Hden [h Hh]].
  set (den := frac_den e) in *. set (n := frac_num m) in *.
  assert (Hn : n = 2 * m + 1) by reflexivity.
  pose proof (Z.div_mod n den ltac:(lia)) as Heq.
  pose proof (Z.mod_pos_bound n den ltac:(lia)) as Hr.
  set (d := n / den) in *. set (r := n mod den) in *.
  assert (Hr0 : r <> 0) by (intros Hz; rewrite Hz, Hh in Heq; lia).
  assert (Heven : forall i, Z.even (i * us_per_day) = true).
  { intros i. rewrite Z.even_mul. apply orb_true_r. }
  assert (Hquot : (Z.quot n den = d /\ Z.rem n den = r)
                  \/ (Z.quot n den = d + 1 /\ Z.rem n den = r - den)).
  { pose proof (Z.quot_rem' n den) as Hqr.
    destruct (Z.le_gt_cases 0 n) as [Hpos | Hneg].
    - left. rewrite Z.quot_div_nonneg, Z.rem_mod_nonneg by lia. auto.
    - right. pose proof (Z.rem_bound_pos_neg n den ltac:(lia) ltac:(lia)) as Hb.
      assert (Z.quot n den = d + 1) by nia. split; [assumption | nia]. }
  assert (Htotal :
            exists w,
              round_half_even
                (Z.quot n den * us_per_day * den
                 + round_double (us_per_day * Z.rem n den)) den
              = d * us_per_day + w
              /\ 0 <= w <= us_per_day
              /\ (den < (den - r) * us_per_day -> w <= us_per_day - 1)
              /\ ((den - r) * us_per_day * 2 <= den -> us_per_day <= w)).
  { destruct Hquot as [[-> ->] | [-> ->]].
    - rewrite round_half_even_add by (auto; lia).
      destruct (dnum_bounds r e 0) as [_ Hlo]; [fold den; lia |].
      destruct (dnum_bounds r e us_per_day) as [Hhi _]; [fold den; lia |].
      destruct (dnum_bounds r e (us_per_day - 1)) as [Hclose _];
        [fold den; lia |].
      pose proof (dnum_half_bounds r e (2 * us_per_day - 1) h
                    ltac:(fold den; lia) Hh) as Hhalf.
      fold den in Hlo, Hhi, Hclose.
      exists (round_half_even (round_double (us_per_day * r)) den).
      split; [reflexivity |]. split; [split |]; [| | split].
      + apply round_half_even_ge; [lia |]. apply Hlo. unfold us_per_day. nia.
      + apply round_half_even_le; [lia |]. apply Hhi. unfold us_per_day. nia.
      + intros Hfar. apply round_half_even_le; [lia |]. apply Hclose.
        unfold us_per_day in *. nia.
      + intros Hnear. apply round_half_even_half; [lia | reflexivity |].
        assert ((2 * us_per_day - 1) * h
                <= round_double (us_per_day * r))
          by (apply Hhalf; unfold us_per_day in *; nia).
        nia.
    - rewrite round_half_even_add by (auto; lia).
      destruct (dnum_bounds (r - den) e 0) as [Hhi _]; [fold den; lia |].
      destruct (dnum_bounds (r - den) e (- us_per_day)) as [_ Hlo];
        [fold den; lia |].
      destruct (dnum_bounds (r - den) e (- 1)) as [Hclose _];
        [fold den; lia |].
      pose proof (dnum_half_bounds (r - den) e (- 1) h
                    ltac:(fold den; lia) Hh) as Hhalf.
      fold den in Hlo, Hhi, Hclose.
      exists (us_per_day
              + round_half_even (round_double (us_per_day * (r - den))) den).
      split; [lia |]. split; [split |]; [| | split].
      + assert (- us_per_day
                <= round_half_even (round_double (us_per_day * (r - den))) den);
          [| lia].
        apply round_half_even_ge; [lia |]. apply Hlo. unfold us_per_day. nia.
      + assert (round_half_even (round_double (us_per_day * (r - den))) den
                <= 0); [| lia].
        apply round_half_even_le; [lia |]. apply Hhi. unfold us_per_day. nia.
      + intros Hfar.
        assert (round_half_even (round_double (us_per_day * (r - den))) den
                <= - 1); [| lia].
        apply round_half_even_le; [lia |]. apply Hclose.
        unfold us_per_day in *. nia.
      + intros Hnear.
        assert (0 <= round_half_even
                       (round_double (us_per_day * (r - den))) den);
          [| lia].
        apply round_half_even_half; [lia | reflexivity |].
        assert (- 1 * h <= round_double (us_per_day * (r - den)))
          by (apply Hhalf; unfold us_per_day in *; nia).
        nia. }
  destruct Htotal as (w & -> & Hw & Hfar & Hnear).
  split.
  - destruct (Z_le_gt_dec ((den - r) * us_per_day * 1) den) as [Hin | Hout].
    + destruct (Z.eq_dec w us_per_day) as [-> | Hlt].
      * right. split; [| exact Hin].
        unfold us_per_day. Z.div_mod_to_equations. lia.
      * left. unfold us_per_day in *. Z.div_mod_to_equations. lia.
    + left. assert (w <= us_per_day - 1) by (apply Hfar; lia).
      unfold us_per_day in *. Z.div_mod_to_equations. lia.
  - intros Hhalf. specialize (Hnear Hhalf).
    assert (w = us_per_day) as -> by lia.
    unfold us_per_day. Z.div_mod_to_equations. lia.
Qed.

Lemma check_delta_day_range_ok k :
  -715509 <= k <= 2936549 -> check_delta_day_range k = Ok k.
Proof.
  intros Hk. unfold check_delta_day_range.
  replace ((-999999999 <=? k) && (k <=? 999999999)) with true; [reflexivity |].
  symmetry. apply andb_true_intro. split; apply Z.leb_le; lia.
Qed.

Lemma days_of_floor x d :
  floor_value x = Some d ->
  exists k,
    days_of x = Some k
    /\ (k = d \/ (k = d + 1 /\ under_next_whole 1 x))
    /\ (under_next_whole 2 x -> k = d + 1).
Proof.
  destruct x as [| n | n | s | m e | | b]; try discriminate; intros [= <-].
  - exists n. simpl. tauto.
  - exists n. simpl. tauto.
  - eexists. split; [reflexivity |]. apply timedelta_frac_days.
Qed.

Lemma timedelta_days_of x k :
  days_of x = Some k -> timedelta_days x = check_delta_day_range k.
Proof.
  destruct x as [| n | n | s | m e | | b]; try discriminate;
    intros [= <-]; reflexivity.
Qed.

(** [convert_to_datetime] on a number that is not zero, by the days that
    [timedelta] counts in it. *)
Lemma convert_to_datetime_days x k :
  days_of x = Some k -> truthy x = true ->
  (-715509 <= k <= 2936549 ->
   exists dt,
     convert_to_datetime x = Ok (Some (Date.isoformat dt))
     /\ Date.add_days epoch k = Ok dt)
  /\ (k < -715509 \/ 2936549 < k ->
      convert_to_datetime x = Raise OverflowError).
Proof.
  intros Hdays Htruthy. unfold convert_to_datetime.
  rewrite Htruthy, (timedelta_days_of _ _ Hdays). split.
  - intros Hk. rewrite check_delta_day_range_ok by exact Hk. simpl.
    unfold Date.add_days. change (Date.toordinal epoch) with 715510.
    unfold Date.MAXORDINAL.
    replace ((0 <? 715510 + k) && (715510 + k <=? 3652059)) with true
      by (symmetry; apply andb_true_intro; split;
          [apply Z.ltb_lt | apply Z.leb_le]; lia).
    eexists. split; reflexivity.
  - intros Hk. unfold check_delta_day_range.
    destruct ((-999999999 <=? k) && (k <=? 999999999)); [| reflexivity].
    simpl. unfold Date.add_days. change (Date.toordinal epoch) with 715510.
    unfold Date.MAXORDINAL.
    replace ((0 <? 715510 + k) && (715510 + k <=? 3652059)) with false;
      [reflexivity |].
    symmetry. apply andb_false_iff.
    destruct Hk; [left; apply Z.ltb_ge | right; apply Z.leb_gt]; lia.
Qed.

Lemma valid_epoch : Date.valid epoch.
Proof. vm_compute. intuition discriminate. Qed.

(** A text that [convert_to_datetime] returns reads back as a date of the
    calendar. *)
Lemma convert_to_datetime_text x text :
  convert_to_datetime x = Ok (Some text) ->
  exists dt, read_iso text = Some dt /\ Date.valid dt.
Proof.
  unfold convert_to_datetime. destruct (truthy x); [| discriminate].
  destruct (timedelta_days x) as [k |]; [| discriminate]. simpl.
  destruct (Date.add_days epoch k) as [dt |] eqn:Hadd; [| discriminate].
  simpl. intros [= <-].
  destruct (DateFacts.add_days_date _ _ _ valid_epoch Hadd)
    as (Hv & _ & _ & Hread).
  exists dt. auto.
Qed.

End TimedeltaFacts.

(** * Facts about text and dicts *)

Module TextFacts.

Lemma append_cons c a b : String c a +:+ b = String c (a +:+ b).
Proof. reflexivity. Qed.

Lemma prefix_spec a b :
  String.prefix a b = true <-> exists post, b = a +:+ post.
Proof.
  revert b. induction a as [| c a IH]; intros b.
  - split; [intros _; exists b; reflexivity | destruct b; reflexivity].
  - destruct b as [| c' b]; simpl.
    + split; [discriminate | intros [post H]; discriminate].
    + destruct (ascii_dec c c') as [-> | Hne].
      * rewrite IH. split; intros [post H]; exists post;
          rewrite append_cons in *; congruence.
      * split; [discriminate |].
        intros [post H]. rewrite append_cons in H. congruence.
Qed.

Lemma str_contains_cons sub c s :
  str_contains sub (String c s)
  = if String.prefix sub (String c s) then true else str_contains sub s.
Proof. reflexivity. Qed.

(** [str_contains] is the substring relation. *)
Lemma str_contains_spec sub s :
  str_contains sub s = true <-> exists pre post, s = pre +:+ sub +:+ post.
Proof.
  induction s as [| c s IH].
  - change (str_contains sub EmptyString)
      with (if String.prefix sub EmptyString then true else false).
    destruct (String.prefix sub EmptyString) eqn:Hp.
    + split; [intros _ | reflexivity].
      apply prefix_spec in Hp. destruct Hp as [post Hp].
      exists EmptyString, post. exact Hp.
    + split; [discriminate |]. intros (pre & post & H).
      destruct pre as [| c pre]; [| discriminate].
      assert (String.prefix sub EmptyString = true)
        by (apply prefix_spec; exists post; exact H).
      congruence.
  - rewrite str_contains_cons.
    destruct (String.prefix sub (String c s)) eqn:Hp.
    + split; [intros _ | reflexivity].
      apply prefix_spec in Hp. destruct Hp as [post Hp].
      exists EmptyString, post. exact Hp.
    + rewrite IH. split.
      * intros (pre & post & H). exists (String c pre), post.
        rewrite append_cons. congruence.
      * intros (pre & post & H). destruct pre as [| c' pre].
        -- assert (String.prefix sub (String c s) = true)
             by (apply prefix_spec; exists post; exact H).
           congruence.
        -- rewrite append_cons in H. injection H as _ H.
           exists pre, post. exact H.
Qed.

(** *** Letter case

    [lower] sends two characters to the same one exactly when they are the
    same letter, and two texts to the same one exactly when they are the
    same text letter for letter. *)

Lemma letter_pairs_lower u l :
  In (u, l) letter_pairs ->
  lower_char u = l /\ lower_char l = l
  /\ nat_of_ascii l = (nat_of_ascii u + 32)%nat.
Proof.
  intros Hin.
  assert (Hall : forallb (fun p =>
                   Ascii.eqb (lower_char (fst p)) (snd p)
                   && Ascii.eqb (lower_char (snd p)) (snd p)
                   && (nat_of_ascii (snd p) =? nat_of_ascii (fst p) + 32)%nat)
                   letter_pairs = true) by (vm_compute; reflexivity).
  rewrite forallb_forall in Hall. specialize (Hall _ Hin). simpl in Hall.
  apply andb_prop in Hall. destruct Hall as [Hall Hcode].
  apply andb_prop in Hall. destruct Hall as [Hu Hl].
  apply Ascii.eqb_eq in Hu, Hl. apply Nat.eqb_eq in Hcode. auto.
Qed.

Lemma letter_pairs_capital u u' l :
  In (u, l) letter_pairs -> In (u', l) letter_pairs -> u = u'.
Proof.
  intros Hu Hu'.
  destruct (letter_pairs_lower _ _ Hu) as (_ & _ & Hc).
  destruct (letter_pairs_lower _ _ Hu') as (_ & _ & Hc').
  rewrite <- (ascii_nat_embedding u), <- (ascii_nat_embedding u').
  f_equal. lia.
Qed.

Lemma in_letter_pairs a b :
  existsb (fun p => Ascii.eqb (fst p) a && Ascii.eqb (snd p) b) letter_pairs
  = true ->
  In (a, b) letter_pairs.
Proof.
  intros H. apply existsb_exists in H. destruct H as ([u l] & Hin & H).
  simpl in H. apply andb_prop in H. destruct H as [Hu Hl].
  apply Ascii.eqb_eq in Hu, Hl. subst. exact Hin.
Qed.

Lemma lower_char_cases c :
  lower_char c = c \/ In (c, lower_char c) letter_pairs.
Proof.
  destruct c as [[] [] [] [] [] [] [] []];
    first [left; reflexivity | right; apply in_letter_pairs; reflexivity].
Qed.

Lemma lower_char_same_letter a b :
  lower_char a = lower_char b <-> same_letter a b.
Proof.
  split.
  - intros Hab. unfold same_letter.
    destruct (lower_char_cases a) as [Ha | Ha],
             (lower_char_cases b) as [Hb | Hb].
    + left. congruence.
    + right; right. rewrite <- Hab, Ha in Hb. exact Hb.
    + right; left. rewrite Hab, Hb in Ha. exact Ha.
    + left. rewrite Hab in Ha. eapply letter_pairs_capital; eassumption.
  - intros [-> | [Hin | Hin]]; [reflexivity | |];
      destruct (letter_pairs_lower _ _ Hin) as (H1 & H2 & _); congruence.
Qed.

Lemma str_lower_same_text a :
  forall b, str_lower a = str_lower b <-> same_text a b.
Proof.
  induction a as [| x a IH]; intros [| y b]; simpl;
    try (split; [discriminate | tauto]); [tauto |].
  rewrite <- IH, <- lower_char_same_letter.
  split; [intros [= H1 H2]; auto | intros [-> ->]; reflexivity].
Qed.

Lemma str_lower_append a b :
  str_lower (a +:+ b) = str_lower a +:+ str_lower b.
Proof.
  induction a as [| x a IH]; [reflexivity |].
  rewrite append_cons. simpl. rewrite IH. reflexivity.
Qed.

Lemma str_lower_split s :
  forall a b,
    str_lower s = a +:+ b ->
    exists sa sb, s = sa +:+ sb /\ str_lower sa = a /\ str_lower sb = b.
Proof.
  induction s as [| x s IH]; intros a b Hs.
  - destruct a as [| y a]; [| discriminate].
    exists EmptyString, EmptyString. simpl in Hs. auto.
  - destruct a as [| y a].
    + exists EmptyString, (String x s). auto.
    + rewrite append_cons in Hs. simpl in Hs. injection Hs as Hy Hs.
      destruct (IH _ _ Hs) as (sa & sb & -> & Ha & Hb).
      exists (String x sa), sb. rewrite append_cons. simpl.
      rewrite Hy, Ha. auto.
Qed.

(** What the resolver tests, [city.lower() in label.lower()], is the
    occurrence of the city name in the label, letter case set aside. *)
Lemma label_matches_spec city label :
  label_matches city label
  <-> str_contains (str_lower city) (str_lower label) = true.
Proof.
  rewrite str_contains_spec. split.
  - intros (pre & mid & post & -> & Hsame).
    apply str_lower_same_text in Hsame.
    exists (str_lower pre), (str_lower post).
    rewrite !str_lower_append, Hsame. reflexivity.
  - intros (pre & post & Hl).
    apply str_lower_split in Hl. destruct Hl as (sp & rest & -> & _ & Hrest).
    apply str_lower_split in Hrest.
    destruct Hrest as (mid & sq & -> & Hmid & _).
    exists sp, mid, sq. split; [reflexivity |].
    apply str_lower_same_text. symmetry. exact Hmid.
Qed.

Lemma dict_get_set d k v k' :
  dict_get (dict_set d k v) k'
  = if String.eqb k k' then Some v else dict_get d k'.
Proof.
  induction d as [| [k0 v0] d IH]; simpl.
  - reflexivity.
  - destruct (String.eqb_spec k0 k) as [-> | Hk0]; simpl.
    + destruct (String.eqb k k'); reflexivity.
    + rewrite IH.
      destruct (String.eqb_spec k0 k') as [-> | Hk0'];
        destruct (String.eqb_spec k k') as [-> | Hk']; congruence.
Qed.

Lemma dict_get_app_fresh (done rest : port_catalog) k l :
  ~ In k (map fst done) ->
  dict_get (done ++ (k, l) :: rest)%list k = Some l.
Proof.
  induction done as [| [k0 v0] done IH]; simpl; intros Hfresh.
  - rewrite String.eqb_refl. reflexivity.
  - destruct (String.eqb_spec k0 k) as [-> | Hne]; [tauto |].
    apply IH. tauto.
Qed.

Lemma dict_get_key (d : port_catalog) k :
  In k (map fst d) -> exists v, dict_get d k = Some v.
Proof.
  induction d as [| [k0 v0] d IH]; simpl; [tauto |].
  intros Hin. destruct (String.eqb_spec k0 k) as [-> | Hne]; [eauto |].
  apply IH. tauto.
Qed.

End TextFacts.

(** * The catalog parser *)

Module ParserFacts.
Import TextFacts.

(** The test on the label decides nothing: a line is stored whenever the
    pattern matches it, and the parser fails on a line without a match. *)
Lemma airport_step_eq acc line :
  airport_step acc line
  = match Regex.re_compiled_search line with
    | Some (code, label) => Ok (dict_set acc code (re_sub_spaces label))
    | None => Raise AttributeError
    end.
Proof.
  unfold airport_step.
  destruct (Regex.re_compiled_search line) as [[code label] |]; reflexivity.
Qed.

Lemma airport_loop_spec ls :
  forall acc cat,
    airport_loop acc ls = Ok cat ->
    (forall k v, dict_get acc k = Some v ->
                 dict_get cat k = Some v \/ entry_of ls cat k)
    /\ (forall line code label,
           In line ls ->
           Regex.re_compiled_search line = Some (code, label) ->
           entry_of ls cat code).
Proof.
  induction ls as [| line0 rest IH]; intros acc cat Hloop; simpl in Hloop.
  - injection Hloop as <-. split; [auto | intros ? ? ? []].
  - rewrite airport_step_eq in Hloop.
    destruct (Regex.re_compiled_search line0) as [[code0 label0] |] eqn:Hs0;
      [| discriminate].
    simpl in Hloop. destruct (IH _ _ Hloop) as [IHacc IHin].
    assert (Hlift : forall k, entry_of rest cat k ->
                              entry_of (line0 :: rest) cat k).
    { intros k (line & label & Hin & Hs & Hget).
      exists line, label. simpl. auto. }
    assert (Hnew : entry_of (line0 :: rest) cat code0).
    { destruct (IHacc code0 (re_sub_spaces label0)) as [Hkept | Hlater].
      - rewrite dict_get_set, String.eqb_refl. reflexivity.
      - exists line0, label0. simpl. auto.
      - apply Hlift, Hlater. }
    split.
    + intros k v Hget.
      destruct (String.eqb_spec code0 k) as [<- | Hne]; [right; exact Hnew |].
      destruct (IHacc k v) as [Hkept | Hlater].
      * rewrite dict_get_set.
        destruct (String.eqb_spec code0 k); [contradiction | exact Hget].
      * left; exact Hkept.
      * right; apply Hlift, Hlater.
    + intros line code label [<- | Hin] Hs.
      * rewrite Hs0 in Hs. injection Hs as <- <-. exact Hnew.
      * apply Hlift. eapply IHin; eassumption.
Qed.

End ParserFacts.

(** * The port resolver *)

Module ResolverFacts.
Import TextFacts.

Lemma loop_first_match city (todo : port_catalog) :
  forall done : port_catalog,
    List.NoDup (map fst (done ++ todo)%list) ->
    (forall k l, In (k, l) done -> ~ label_matches city l) ->
    exists port,
      city_to_port_loop (done ++ todo)%list (map fst todo) (PStr city)
      = Ok port
      /\ first_match (done ++ todo)%list city port.
Proof.
  induction todo as [| [k l] rest IH]; intros done Hnodup Hdone.
  - exists None. split; [reflexivity |].
    simpl. rewrite app_nil_r. exact Hdone.
  - assert (Hfresh : ~ In k (map fst done)).
    { rewrite map_app in Hnodup. simpl in Hnodup.
      apply NoDup_remove_2 in Hnodup.
      intros Hin. apply Hnodup, in_or_app. left; exact Hin. }
    simpl. unfold dict_getitem.
    rewrite (dict_get_app_fresh done rest k l Hfresh). simpl.
    destruct (str_contains (str_lower city) (str_lower l)) eqn:Hc.
    + exists (Some k). split; [reflexivity |].
      exists done, l, rest. split; [reflexivity |].
      split; [apply label_matches_spec, Hc | exact Hdone].
    + assert (Hsplit : (done ++ (k, l) :: rest
                        = (done ++ [(k, l)]) ++ rest)%list)
        by (rewrite <- app_assoc; reflexivity).
      rewrite Hsplit in Hnodup |- *. apply IH; [exact Hnodup |].
      intros k' l' Hin. apply in_app_or in Hin.
      destruct Hin as [Hin | [Heq | []]]; [eapply Hdone, Hin |].
      injection Heq as <- <-. intros Hm.
      apply label_matches_spec in Hm. congruence.
Qed.

(** Two ways of cutting a list at an element: the same cut, or the element
    of one cut lies before the other. *)
Lemma cut_twice {A} (b : list A) :
  forall x a b' x' a',
    (b ++ x :: a = b' ++ x' :: a')%list ->
    (b = b' /\ x = x') \/ In x b' \/ In x' b.
Proof.
  induction b as [| y b IH]; intros x a [| y' b'] x' a' H; simpl in H.
  - injection H as -> _. auto.
  - injection H as -> _. right; left. left; reflexivity.
  - injection H as -> _. right; right. left; reflexivity.
  - injection H as -> H. destruct (IH _ _ _ _ _ H) as [[-> ->] | [Hin | Hin]].
    + auto.
    + right; left. right; exact Hin.
    + right; right. right; exact Hin.
Qed.

(** At most one answer is the first match. *)
Lemma first_match_unique (valid_ports : port_catalog) city p p' :
  first_match valid_ports city p -> first_match valid_ports city p' -> p = p'.
Proof.
  destruct p as [code |], p' as [code' |]; simpl.
  - intros (b & l & a & -> & Hl & Hb) (b' & l' & a' & Heq & Hl' & Hb').
    destruct (cut_twice _ _ _ _ _ _ Heq) as [[_ H] | [Hin | Hin]].
    + congruence.
    + exfalso. eapply Hb'; eassumption.
    + exfalso. eapply Hb; eassumption.
  - intros (b & l & a & -> & Hl & _) Hnone. exfalso.
    apply (Hnone code l); [| exact Hl]. apply in_or_app. right; left.
    reflexivity.
  - intros Hnone (b & l & a & -> & Hl & _). exfalso.
    apply (Hnone code' l); [| exact Hl]. apply in_or_app. right; left.
    reflexivity.
  - reflexivity.
Qed.

Lemma loop_returns (valid_ports : port_catalog) city keys :
  (forall k, In k keys -> exists v, dict_get valid_ports k = Some v) ->
  returns (city_to_port_loop valid_ports keys (PStr city)).
Proof.
  induction keys as [| k rest IH]; intros Hkeys.
  - exists None. reflexivity.
  - simpl. unfold dict_getitem.
    destruct (Hkeys k) as [v ->]; [left; reflexivity |]. simpl.
    destruct (str_contains (str_lower city) (str_lower v)).
    + eexists; reflexivity.
    + apply IH. intros k' Hin. apply Hkeys. right; exact Hin.
Qed.

End ResolverFacts.

(** * The cleaning chain *)

Module PipelineFacts.

Lemma filter_condition_port c :
  filter_condition c = true <-> arrival_port c = PStr "Air".
Proof.
  unfold filter_condition, sql_eq_str.
  destruct (arrival_port c); try (split; discriminate).
  rewrite String.eqb_eq. split; congruence.
Qed.

(** The condition that Spark evaluates keeps the rows whose port code is the
    text [Air], when that is a key of the port catalog. *)
Lemma pushed_filter_condition_port valid_ports r :
  pushed_filter_condition valid_ports r = true
  <-> i94port r = PStr "Air" /\ dict_mem valid_ports "Air" = true.
Proof.
  unfold pushed_filter_condition, get_valid_port, port_key_mem, sql_eq_str.
  destruct (i94port r) as [| n | n | s | m e | | b];
    try (split; [discriminate | intros [H _]; discriminate]).
  destruct (dict_mem valid_ports s) eqn:Hmem.
  - rewrite String.eqb_eq. split.
    + intros ->. auto.
    + intros [[= ->] _]. reflexivity.
  - split; [discriminate |]. intros [[= ->] H]. congruence.
Qed.

(** It is the written condition on the row of the select. *)
Lemma pushed_filter_select valid_ports valid_countries r c :
  select_columns valid_ports valid_countries r = Ok c ->
  filter_condition c = pushed_filter_condition valid_ports r.
Proof.
  unfold select_columns.
  destruct (get_valid_country _ _); [| discriminate]. simpl.
  destruct (convert_to_datetime _); [| discriminate]. simpl.
  intros [= <-]. reflexivity.
Qed.

Lemma traverse_in {A B} (f : A -> result B) l out b :
  traverse f l = Ok out -> In b out -> exists a, In a l /\ f a = Ok b.
Proof.
  revert out. induction l as [| a l IH]; intros out Hl Hin; simpl in Hl.
  - injection Hl as <-. destruct Hin.
  - destruct (f a) as [b0 |] eqn:Hfa; [| discriminate]. simpl in Hl.
    destruct (traverse f l) as [bs |]; [| discriminate]. simpl in Hl.
    injection Hl as <-. destruct Hin as [<- | Hin].
    + exists a. split; [left; reflexivity | exact Hfa].
    + destruct (IH bs eq_refl Hin) as (a' & Hin' & Hfa').
      exists a'. split; [right; exact Hin' | exact Hfa'].
Qed.

(** What the filter of the chain keeps: the rows whose port code is the
    text [Air] and is a key of the port catalog; the transport mode plays
    no part. *)
Lemma immigration_df_clean_emitted valid_ports valid_countries df out c :
  immigration_df_clean valid_ports valid_countries df = Ok out ->
  In c out ->
  arrival_port c = PStr "Air"
  /\ exists r, In r df /\ i94port r = PStr "Air"
               /\ dict_mem valid_ports "Air" = true.
Proof.
  unfold immigration_df_clean. intros Hdf Hin.
  destruct (traverse_in _ _ _ _ Hdf Hin) as (r & Hr & Hrow).
  apply filter_In in Hr. destruct Hr as [Hr Hkeep].
  split.
  - apply filter_condition_port.
    rewrite (pushed_filter_select _ _ _ _ Hrow). exact Hkeep.
  - exists r. split; [exact Hr |].
    apply pushed_filter_condition_port, Hkeep.
Qed.

(** When the UDFs return on every row of the input, the chain gives what it
    gives as written, the select first and the filter after it. *)
Lemma immigration_df_clean_as_written valid_ports valid_countries df :
  forall selected,
    traverse (select_columns valid_ports valid_countries) df = Ok selected ->
    immigration_df_clean valid_ports valid_countries df
    = Ok (List.filter filter_condition selected).
Proof.
  unfold immigration_df_clean.
  induction df as [| r df IH]; intros selected; simpl.
  - intros [= <-]. reflexivity.
  - destruct (select_columns valid_ports valid_countries r) as [c |] eqn:Hc;
      [| discriminate].
    simpl. destruct (traverse _ df) as [cs |]; [| discriminate].
    simpl. intros [= <-]. simpl.
    rewrite (pushed_filter_select _ _ _ _ Hc).
    destruct (pushed_filter_condition valid_ports r); simpl.
    + rewrite Hc. simpl. rewrite (IH cs eq_refl). reflexivity.
    + apply IH. reflexivity.
Qed.

(** On number codes [get_valid_country] does return: the name of the
    catalog for a mapped code, the text [Other] for any other. *)
Lemma get_valid_country_number (valid_countries : country_catalog) n :
  get_valid_country valid_countries (PInt n)
  = Ok (PStr (default "Other" (valid_countries !! n)))
  /\ get_valid_country valid_countries (PFloat n)
     = Ok (PStr (default "Other" (valid_countries !! n))).
Proof.
  unfold get_valid_country, country_getitem. simpl.
  destruct (valid_countries !! n); split; reflexivity.
Qed.

Lemma number_from_fst {A} (rows : list A) :
  forall s : nat,
    map fst (number_from (Z.of_nat s) rows)
    = map Z.of_nat (seq s (length rows)).
Proof.
  induction rows as [| r rows IH]; intros s; simpl; [reflexivity |].
  f_equal. replace (Z.of_nat s + 1) with (Z.of_nat (S s)) by lia.
  apply IH.
Qed.

Lemma number_from_snd {A} (rows : list A) :
  forall i, map snd (number_from i rows) = rows.
Proof.
  induction rows as [| r rows IH]; intros i; simpl; [reflexivity |].
  f_equal. apply IH.
Qed.

End PipelineFacts.

(** * The model on sample inputs *)

Module Examples.

(** A plain entry of the label file. *)
Example search_entry :
  Regex.re_compiled_search ("   'ALC'	=	'ALCAN, AK             '" +:+ newline)
  = Some ("ALC", "ALCAN, AK             ").
Proof. vm_compute. reflexivity. Qed.

(** With more than four quotes the first group runs up to the third quote
    from the end, as the greedy pattern does in [re]. *)
Example search_greedy :
  Regex.re_compiled_search "a'b'c'd'e'f'g'h" = Some ("b'c'd'e", "g").
Proof. vm_compute. reflexivity. Qed.

Example search_no_match :
  Regex.re_compiled_search ("   'XXX' = 'NOT REPORTED" +:+ newline) = None.
Proof. vm_compute. reflexivity. Qed.

(** A later line of the same code takes the place of the earlier one. *)
Example parse_sample_lines :
  get_valid_airport_list sample_lines = Ok sample_parsed
  /\ airport_loop sample_parsed ["'ALC' = 'ALCAN 2 '"]
     = Ok [("ALC", "ALCAN2"); ("XXX", "NOTREPORTED/UNKNOWN");
           ("NYC", "NEWYORK,NY")].
Proof. split; vm_compute; reflexivity. Qed.

(** Leap day of 1960, and the arrival date of the first row the notebook
    shows (offset 20573). *)
Example convert_to_datetime_samples :
  convert_to_datetime (PInt 59) = Ok (Some "1960-02-29")
  /\ convert_to_datetime (PInt 60) = Ok (Some "1960-03-01")
  /\ convert_to_datetime (PFloat 20573) = Ok (Some "2016-04-29")
  /\ convert_to_datetime (PInt (-1)) = Ok (Some "1959-12-31")
  /\ convert_to_datetime (PStr "20573") = Raise TypeError.
Proof. repeat split; vm_compute; reflexivity. Qed.

Example convert_mode_samples :
  map convert_mode [PFloat 1; PInt 2; PFloat 3; PFloat 9; PFloat 4; PNone]
  = map PStr ["Air"; "Sea"; "Land"; "Not reported"; "Not reported";
              "Not reported"].
Proof. reflexivity. Qed.

Example convert_visa_samples :
  map convert_visa [PFloat 1; PInt 2; PFloat 3; PFloat 9; PNone]
  = map PStr ["Business"; "Pleasure"; "Student"; "Unknown"; "Unknown"].
Proof. reflexivity. Qed.

Example get_valid_port_samples :
  map (get_valid_port sample_ports) [PStr "NYC"; PStr "XXX"; PNone]
  = [PStr "NYC"; PStr "Other"; PStr "Other"].
Proof. reflexivity. Qed.

Example city_to_port_samples :
  city_to_port sample_ports (PStr "Newark") = Ok (Some "NEW")
  /\ city_to_port sample_ports (PStr "new") = Ok (Some "NEW")
  /\ city_to_port sample_ports (PStr "Quincy") = Ok None
  /\ city_to_port sample_ports (PStr "New York") = Ok None.
Proof. repeat split; vm_compute; reflexivity. Qed.

Example int_of_str_samples :
  int_of_str " 1_17 " = Ok 117
  /\ int_of_str "-42" = Ok (-42)
  /\ int_of_str "1__7" = Raise ValueError
  /\ int_of_str "117.0" = Raise ValueError.
Proof. repeat split; vm_compute; reflexivity. Qed.

(** Offsets with a fractional part (1.5, -0.5, 20574.75, 2936549.5 and
    -715509.5): the time of day is dropped, before the epoch too. The float
    just under 1, [1 - 2^-53], lies less than half a microsecond under 1
    and counts as one day. *)
Example convert_to_datetime_fractions :
  convert_to_datetime (PFrac 1 1) = Ok (Some "1960-01-02")
  /\ convert_to_datetime (PFrac (-1) 1) = Ok (Some "1959-12-31")
  /\ convert_to_datetime (PFrac 41149 2) = Ok (Some "2016-04-30")
  /\ convert_to_datetime (PFrac 2936549 1) = Ok (Some "9999-12-31")
  /\ convert_to_datetime (PFrac (-715510) 1) = Raise OverflowError
  /\ convert_to_datetime (PFrac 4503599627370495 53)
     = Ok (Some "1960-01-02")
  /\ convert_to_datetime PNan = Raise ValueError
  /\ convert_to_datetime (PInf true) = Raise OverflowError.
Proof. repeat split; vm_compute; reflexivity. Qed.

(** Country codes 117.0, 117.5, 236.5 and -0.5, NaN and an infinity. *)
Example get_valid_country_samples :
  get_valid_country sample_countries (PFloat 117) = Ok (PStr "ECUADOR")
  /\ get_valid_country sample_countries (PFrac 117 1) = Raise KeyError
  /\ get_valid_country sample_countries (PFrac 236 1) = Ok (PStr "Other")
  /\ get_valid_country sample_countries (PFrac (-1) 1) = Ok (PStr "Other")
  /\ get_valid_country sample_countries PNan = Raise ValueError
  /\ get_valid_country sample_countries (PInf false) = Raise OverflowError.
Proof. repeat split; vm_compute; reflexivity. Qed.

(** A row on which a UDF of the select raises does not stop the chain when
    the filter drops it. *)
Example immigration_df_clean_samples :
  select_columns air_ports sample_countries null_country_row = Raise TypeError
  /\ immigration_df_clean air_ports sample_countries
       [null_country_row; sample_row 7 "NYC" (PFloat 1)] = Ok []
  /\ (do out <- immigration_df_clean air_ports sample_countries
                  [null_country_row; sample_row 7 "Air" (PFloat 2)];
      Ok (map immigration_id out)) = Ok [PFloat 7].
Proof. repeat split; vm_compute; reflexivity. Qed.

(** Characters outside ASCII and the separators 28 to 31: [int] does not
    strip a separator but strips a no-break space (160); [\s] covers both;
    [lower] folds a capital E with acute accent (201) and leaves the
    multiplication sign (215). *)
Example character_samples :
  int_of_str (String (ascii_of_nat 31) "999") = Raise ValueError
  /\ int_of_str (String (ascii_of_nat 160) "999") = Ok 999
  /\ re_sub_spaces (String (ascii_of_nat 31) (String (ascii_of_nat 160) "AB"))
     = "AB"
  /\ str_lower (String (ascii_of_nat 201) "COLE")
     = String (ascii_of_nat 233) "cole"
  /\ lower_char (ascii_of_nat 215) = ascii_of_nat 215.
Proof. repeat split; vm_compute; reflexivity. Qed.

End Examples.

(** * The claims *)

(** C1 (the code departs from it). The filter of the chain compares the
    column [arrival_port] with the text [Air], not the column [port_type]:
    of five rows with the transport modes 1, 2, 3, 9 and null, one has the
    mode 1, and the chain emits none. *)
Theorem air_arrivals_are_dropped :
  immigration_df_clean sample_ports sample_countries mixed_modes = Ok []
  /\ length (List.filter (fun r => eq_int_key (i94mode r) 1) mixed_modes)
     = 1%nat.
Proof. split; vm_compute; reflexivity. Qed.

(** C2 (as stated, false). On the record of the end-to-end example the
    chain emits no record at all, and the arrival date of offset 20574 is
    2016-04-30, not 2016-04-29. *)
Lemma example_row_not_as_announced :
  immigration_df_filled sample_ports sample_countries [example_row] = Ok []
  /\ convert_to_datetime (arrdate example_row) = Ok (Some "2016-04-30")
  /\ ~ (exists c,
          immigration_df_filled sample_ports sample_countries [example_row]
          = Ok [c]
          /\ announced c).
Proof.
  assert (H : immigration_df_filled sample_ports sample_countries [example_row]
              = Ok []) by (vm_compute; reflexivity).
  split; [exact H |]. split; [vm_compute; reflexivity |].
  intros (c & Hc & _). rewrite H in Hc. discriminate.
Qed.

(** C2 (amended). With a country catalog that maps 117 to ECUADOR and a port
    catalog without the key XXX, the column steps and the null policy turn
    the record of the end-to-end example into the announced values, with
    the arrival date 2016-04-30. *)
Theorem example_row_cleaned
  (valid_ports : port_catalog) (valid_countries : country_catalog) :
  valid_countries !! 117 = Some "ECUADOR" ->
  dict_mem valid_ports "XXX" = false ->
  exists c,
    select_columns valid_ports valid_countries example_row = Ok c
    /\ produced (fillna c).
Proof.
  intros Hcountry Hport.
  assert (Hc : get_valid_country valid_countries (PInt 117)
               = Ok (PStr "ECUADOR")).
  { destruct (PipelineFacts.get_valid_country_number valid_countries 117)
      as [-> _].
    rewrite Hcountry. reflexivity. }
  assert (Hp : get_valid_port valid_ports (PStr "XXX") = PStr "Other").
  { unfold get_valid_port, port_key_mem. rewrite Hport. reflexivity. }
  assert (Hd : convert_to_datetime (PInt 20574) = Ok (Some "2016-04-30"))
    by (vm_compute; reflexivity).
  eexists. split.
  - unfold select_columns.
    change (i94res example_row) with (PInt 117).
    change (arrdate example_row) with (PInt 20574).
    rewrite Hc, Hd. simpl bind. reflexivity.
  - unfold produced. simpl. rewrite Hp. repeat split; reflexivity.
Qed.

Lemma example_row_cleaned_witness :
  sample_countries !! 117 = Some "ECUADOR"
  /\ dict_mem sample_ports "XXX" = false
  /\ exists c,
       select_columns sample_ports sample_countries example_row = Ok c
       /\ produced (fillna c).
Proof.
  split; [vm_compute; reflexivity |].
  split; [vm_compute; reflexivity |].
  apply (example_row_cleaned sample_ports sample_countries);
    vm_compute; reflexivity.
Defined.

(** C3. Whatever order the window hands the [N] rows over in, the keys
    given by [row_number] are 1, 2, ..., [N] in turn: every number from 1 to
    [N] is a key, no number is a key twice, and the rows are those that came
    in. *)
Theorem immigrant_id_dense
  (window_order : list clean_row -> list clean_row) (rows : list clean_row) :
  (forall l, Permutation (window_order l) l) ->
  let keyed := row_number window_order rows in
  immigrant_ids keyed = map Z.of_nat (seq 1 (length rows))
  /\ List.NoDup (immigrant_ids keyed)
  /\ (forall i, In i (immigrant_ids keyed) <-> 1 <= i <= Z.of_nat (length rows))
  /\ Permutation (map snd keyed) rows.
Proof.
  intros Horder keyed.
  assert (Hids : immigrant_ids keyed = map Z.of_nat (seq 1 (length rows))).
  { unfold keyed, immigrant_ids, row_number.
    rewrite (PipelineFacts.number_from_fst _ 1).
    rewrite (Permutation_length (Horder rows)). reflexivity. }
  split; [exact Hids |]. rewrite Hids. split; [| split].
  - apply Finite.Injective_map_NoDup; [| apply List.seq_NoDup].
    intros a b Hab. lia.
  - intros i. rewrite in_map_iff. split.
    + intros (k & <- & Hk). apply in_seq in Hk. lia.
    + intros Hi. exists (Z.to_nat i). split; [lia |]. apply in_seq. lia.
  - unfold keyed, row_number. rewrite PipelineFacts.number_from_snd.
    apply Horder.
Qed.

Lemma immigrant_id_dense_witness :
  (forall l : list clean_row, Permutation (@rev clean_row l) l)
  /\ (let keyed := row_number (@rev clean_row) keyed_rows in
      immigrant_ids keyed = map Z.of_nat (seq 1 (length keyed_rows))
      /\ List.NoDup (immigrant_ids keyed)
      /\ (forall i, In i (immigrant_ids keyed)
                    <-> 1 <= i <= Z.of_nat (length keyed_rows))
      /\ Permutation (map snd keyed) keyed_rows).
Proof.
  split.
  - intros l. symmetry. apply Permutation_rev.
  - apply (immigrant_id_dense (@rev clean_row) keyed_rows).
    intros l. symmetry. apply Permutation_rev.
Defined.

(** C4 (as stated, false). An offset that leads past the last date of the
    library, 9999-12-31, is not mapped to a date text: the call raises. *)
Lemma convert_to_datetime_out_of_range :
  convert_to_datetime (PInt 2936550) = Raise OverflowError.
Proof. vm_compute. reflexivity. Qed.

(** C4 (amended). A null offset and the offset 0 give null. For every other
    finite offset, whole or not, let [k] be the days that [timedelta] counts
    in it: the offset itself when it is whole; for an offset with a
    fractional part the whole number under it or the one above it, the one
    above when the offset lies half a microsecond under it at most, and
    only when it lies one microsecond under it at most. When 1960-01-01
    moved by [k] days is a date of the library (from 0001-01-01,
    [k = -715509], to 9999-12-31, [k = 2936549]), the result is a text of
    four digits, dash, two digits, dash, two digits, with no time part, that
    reads as that date, the one date of the calendar [k] days from
    1960-01-01. Outside that range the call raises OverflowError, as it
    does on an infinite offset; on NaN it raises ValueError. *)
Theorem convert_to_datetime_spec (x : pyval) (d : Z) :
  floor_value x = Some d ->
  x <> PInt 0 ->
  x <> PFloat 0 ->
  convert_to_datetime PNone = Ok None
  /\ convert_to_datetime (PInt 0) = Ok None
  /\ convert_to_datetime (PFloat 0) = Ok None
  /\ convert_to_datetime PNan = Raise ValueError
  /\ (forall negative,
        convert_to_datetime (PInf negative) = Raise OverflowError)
  /\ exists k,
       (k = d \/ (k = d + 1 /\ under_next_whole 1 x))
       /\ (under_next_whole 2 x -> k = d + 1)
       /\ (-715509 <= k <= 2936549 ->
           exists dt text,
             convert_to_datetime x = Ok (Some text)
             /\ read_iso text = Some dt
             /\ Date.valid dt
             /\ Date.shifted epoch k dt
             /\ forall dt',
                  Date.valid dt' -> Date.shifted epoch k dt' -> dt' = dt)
       /\ (k < -715509 \/ 2936549 < k ->
           convert_to_datetime x = Raise OverflowError).
Proof.
  intros Hfloor Hint Hfloat. do 4 (split; [reflexivity |]).
  split; [intros negative; reflexivity |].
  destruct (TimedeltaFacts.days_of_floor x d Hfloor)
    as (k & Hdays & Hk & Hup).
  assert (Htruthy : truthy x = true).
  { destruct x as [| n | n | s | m e | | b]; try discriminate;
      try reflexivity;
      apply negb_true_iff, Z.eqb_neq; congruence. }
  destruct (TimedeltaFacts.convert_to_datetime_days x k Hdays Htruthy)
    as [Hin Hout].
  exists k. split; [exact Hk |]. split; [exact Hup |]. split; [| exact Hout].
  intros Hrange. destruct (Hin Hrange) as (dt & Hconv & Hadd).
  destruct (DateFacts.add_days_date _ _ _ TimedeltaFacts.valid_epoch Hadd)
    as (Hvalid & Hshift & Hone & Hread).
  exists dt, (Date.isoformat dt). auto.
Qed.

Lemma convert_to_datetime_spec_witness :
  floor_value (PFrac 41149 2) = Some 20574
  /\ PFrac 41149 2 <> PInt 0
  /\ PFrac 41149 2 <> PFloat 0
  /\ convert_to_datetime PNone = Ok None
  /\ convert_to_datetime (PInt 0) = Ok None
  /\ convert_to_datetime (PFloat 0) = Ok None
  /\ convert_to_datetime PNan = Raise ValueError
  /\ (forall negative,
        convert_to_datetime (PInf negative) = Raise OverflowError)
  /\ exists k,
       (k = 20574 \/ (k = 20574 + 1 /\ under_next_whole 1 (PFrac 41149 2)))
       /\ (under_next_whole 2 (PFrac 41149 2) -> k = 20574 + 1)
       /\ (-715509 <= k <= 2936549 ->
           exists dt text,
             convert_to_datetime (PFrac 41149 2) = Ok (Some text)
             /\ read_iso text = Some dt
             /\ Date.valid dt
             /\ Date.shifted epoch k dt
             /\ forall dt',
                  Date.valid dt' -> Date.shifted epoch k dt' -> dt' = dt)
       /\ (k < -715509 \/ 2936549 < k ->
           convert_to_datetime (PFrac 41149 2) = Raise OverflowError).
Proof.
  split; [reflexivity |]. split; [discriminate |]. split; [discriminate |].
  apply (convert_to_datetime_spec (PFrac 41149 2) 20574);
    [reflexivity | discriminate | discriminate].
Defined.

(** C5 (as stated, false). The offset 0 does not give the text of the
    epoch. *)
Lemma zero_offset_is_not_epoch :
  convert_to_datetime (PInt 0) <> Ok (Some "1960-01-01").
Proof. vm_compute. discriminate. Qed.

(** C5 (amended). The offset 0, as an int or as a float, gives null, like a
    null offset; the first date text going forward is that of offset 1. *)
Theorem zero_offset_is_null :
  convert_to_datetime (PInt 0) = Ok None
  /\ convert_to_datetime (PFloat 0) = Ok None
  /\ convert_to_datetime PNone = Ok None
  /\ convert_to_datetime (PInt 1) = Ok (Some "1960-01-02").
Proof. repeat split; vm_compute; reflexivity. Qed.

(** C6 (the code departs from it). [get_valid_country] raises on a null, on
    a text that is not a number, and on the text of a mapped code, whatever
    the catalog holds for the first two. *)
Theorem get_valid_country_raises (valid_countries : country_catalog) :
  get_valid_country valid_countries PNone = Raise TypeError
  /\ get_valid_country valid_countries (PStr "n/a") = Raise ValueError
  /\ get_valid_country sample_countries (PStr "117") = Raise KeyError.
Proof. repeat split; vm_compute; reflexivity. Qed.

(** C7 (the code departs from it). The default that [fillna] writes into a
    null [airline_code] is the misspelt text [Unkown]; the flight number
    next to it gets [Unknown]. *)
Theorem fillna_airline_code_misspelt :
  airline_code (fillna all_null_row) = PStr "Unkown"
  /\ airline_code (fillna all_null_row) <> PStr "Unknown"
  /\ airline_flight_number (fillna all_null_row) = PStr "Unknown".
Proof. split; [reflexivity | split; [discriminate | reflexivity]]. Qed.

(** C8. When the parser returns a catalog, every line of the port range
    that the pattern reads as an entry has its code in the catalog, mapped
    to the label (cleaned of whitespace) of a line of that code, whatever
    the label says: the entries marked unknown, unidentified or not reported
    are in the catalog like the others. *)
Theorem placeholder_ports_are_included
  (lines : list string) (catalog : port_catalog) (line code label : string) :
  get_valid_airport_list lines = Ok catalog ->
  In line (slice 302 893 lines) ->
  Regex.re_compiled_search line = Some (code, label) ->
  dict_mem catalog code = true
  /\ entry_of (slice 302 893 lines) catalog code.
Proof.
  unfold get_valid_airport_list. intros Hparse Hin Hsearch.
  destruct (ParserFacts.airport_loop_spec _ _ _ Hparse) as [_ Hentries].
  pose proof (Hentries _ _ _ Hin Hsearch) as Hentry.
  split; [| exact Hentry].
  destruct Hentry as (line' & label' & _ & _ & Hget).
  unfold dict_mem. rewrite Hget. reflexivity.
Qed.

Lemma placeholder_ports_are_included_witness :
  get_valid_airport_list sample_lines = Ok sample_parsed
  /\ In placeholder_line (slice 302 893 sample_lines)
  /\ Regex.re_compiled_search placeholder_line
     = Some ("XXX", "NOT REPORTED/UNKNOWN  ")
  /\ dict_mem sample_parsed "XXX" = true
  /\ entry_of (slice 302 893 sample_lines) sample_parsed "XXX".
Proof.
  assert (Hparse : get_valid_airport_list sample_lines = Ok sample_parsed)
    by (vm_compute; reflexivity).
  assert (Hin : In placeholder_line (slice 302 893 sample_lines))
    by (vm_compute; right; left; reflexivity).
  assert (Hsearch : Regex.re_compiled_search placeholder_line
                    = Some ("XXX", "NOT REPORTED/UNKNOWN  "))
    by (vm_compute; reflexivity).
  split; [exact Hparse |]. split; [exact Hin |]. split; [exact Hsearch |].
  exact (placeholder_ports_are_included sample_lines sample_parsed
           placeholder_line "XXX" "NOT REPORTED/UNKNOWN  " Hparse Hin Hsearch).
Defined.

(** C9. On a city name, with a catalog whose codes are distinct (a dict),
    [city_to_port] returns, and what it returns is the first match: the code
    of the first entry in the order of the catalog whose label holds the
    city name as a substring, letter case set aside, or [None] when no label
    does. Letter case set aside means letter for letter, a capital being
    the same letter as its small letter. *)
Theorem city_to_port_first_match
  (valid_ports : port_catalog) (city : string) (port : option string) :
  List.NoDup (map fst valid_ports) ->
  city_to_port valid_ports (PStr city) = Ok port
  <-> first_match valid_ports city port.
Proof.
  intros Hnodup.
  destruct (ResolverFacts.loop_first_match city valid_ports [] Hnodup)
    as (port0 & Hreturn & Hfirst); [intros k l [] |].
  change (city_to_port valid_ports (PStr city) = Ok port0) in Hreturn.
  change (first_match valid_ports city port0) in Hfirst.
  rewrite Hreturn. split.
  - intros [= <-]. exact Hfirst.
  - intros Hport. f_equal.
    exact (ResolverFacts.first_match_unique _ _ _ _ Hfirst Hport).
Qed.

Lemma city_to_port_first_match_witness :
  List.NoDup (map fst sample_ports)
  /\ city_to_port sample_ports (PStr "Newark") = Ok (Some "NEW")
  /\ first_match sample_ports "Newark" (Some "NEW").
Proof.
  assert (Hnodup : List.NoDup (map fst sample_ports)).
  { simpl. repeat (constructor; [simpl; intuition discriminate |]).
    constructor. }
  assert (Hreturn : city_to_port sample_ports (PStr "Newark")
                    = Ok (Some "NEW")) by (vm_compute; reflexivity).
  split; [exact Hnodup |]. split; [exact Hreturn |].
  exact (proj1 (city_to_port_first_match sample_ports "Newark" (Some "NEW")
                  Hnodup) Hreturn).
Defined.

(** C10. With a catalog that has an entry, [city_to_port] on a null city
    raises (the null has no [lower]) instead of returning a null port; on
    every city name it returns. *)
Theorem city_to_port_null_city (valid_ports : port_catalog) :
  valid_ports <> [] ->
  city_to_port valid_ports PNone = Raise AttributeError
  /\ forall city, returns (city_to_port valid_ports (PStr city)).
Proof.
  intros Hne. split.
  - destruct valid_ports as [| [k l] rest]; [congruence | reflexivity].
  - intros city. apply ResolverFacts.loop_returns.
    intros k Hin. apply TextFacts.dict_get_key, Hin.
Qed.

Lemma city_to_port_null_city_witness :
  sample_ports <> []
  /\ city_to_port sample_ports PNone = Raise AttributeError
  /\ forall city, returns (city_to_port sample_ports (PStr city)).
Proof.
  split; [discriminate |].
  apply (city_to_port_null_city sample_ports). discriminate.
Defined.

(** * Further properties of the code *)

(** ** The two patterns *)

Module RegexFacts.
Import TextFacts.

Lemma append_assoc a b c : (a +:+ b) +:+ c = a +:+ (b +:+ c).
Proof.
  induction a as [| x a IH]; [reflexivity |].
  rewrite !append_cons, IH. reflexivity.
Qed.

Lemma append_nil_r a : a +:+ EmptyString = a.
Proof.
  induction a as [| x a IH]; [reflexivity |].
  rewrite append_cons, IH. reflexivity.
Qed.

Lemma str_count_append p a b :
  str_count p (a +:+ b) = (str_count p a + str_count p b)%nat.
Proof.
  induction a as [| x a IH]; [reflexivity |].
  rewrite append_cons. simpl. rewrite IH. lia.
Qed.

Lemma str_exists_append p a b :
  str_exists p (a +:+ b) = str_exists p a || str_exists p b.
Proof.
  induction a as [| x a IH]; [reflexivity |].
  rewrite append_cons. simpl. rewrite IH. apply orb_assoc.
Qed.

Lemma str_exists_count p s : str_exists p s = false <-> str_count p s = O.
Proof.
  induction s as [| c s IH]; simpl; [tauto |].
  destruct (p c); simpl; [split; [discriminate | lia] | exact IH].
Qed.

Lemma count_q : str_count is_quote q = 1%nat.
Proof. reflexivity. Qed.

Section Sound.

Context {R : Type}.

Lemma lit_some c (k : string -> option R) s r :
  Regex.lit c k s = Some r ->
  exists rest, s = String c rest /\ k rest = Some r.
Proof.
  destruct s as [| c' s]; simpl; [discriminate |].
  destruct (Ascii.eqb_spec c c') as [<- | Hne]; [| discriminate].
  intros Hk. exists s. split; [reflexivity | exact Hk].
Qed.

Lemma dot_star_some (k : string -> option R) s r :
  Regex.dot_star k s = Some r ->
  exists mid rest,
    s = mid +:+ rest
    /\ str_exists Regex.is_newline mid = false
    /\ k rest = Some r.
Proof.
  induction s as [| c s IH]; simpl.
  - intros Hk. exists EmptyString, EmptyString. auto.
  - destruct (Regex.is_newline c) eqn:Hnl.
    + intros Hk. exists EmptyString, (String c s). auto.
    + destruct (Regex.dot_star k s) as [r' |] eqn:Hrec.
      * intros [= <-]. destruct (IH eq_refl) as (mid & rest & -> & Hmid & Hk).
        exists (String c mid), rest. rewrite append_cons. simpl.
        rewrite Hnl, Hmid. auto.
      * intros Hk. exists EmptyString, (String c s). auto.
Qed.

Lemma group_dot_star_some s :
  forall (k : string -> string -> option R) r,
    Regex.group_dot_star k s = Some r ->
    exists g rest,
      s = g +:+ rest
      /\ str_exists Regex.is_newline g = false
      /\ k g rest = Some r.
Proof.
  induction s as [| c s IH]; intros k r; simpl.
  - intros Hk. exists EmptyString, EmptyString. auto.
  - destruct (Regex.is_newline c) eqn:Hnl.
    + intros Hk. exists EmptyString, (String c s). auto.
    + destruct (Regex.group_dot_star (fun g => k (String c g)) s)
        as [r' |] eqn:Hrec.
      * intros [= <-].
        destruct (IH _ _ Hrec) as (g & rest & -> & Hg & Hk).
        exists (String c g), rest. rewrite append_cons. simpl.
        rewrite Hnl, Hg. auto.
      * intros Hk. exists EmptyString, (String c s). auto.
Qed.

Lemma search_some (m : string -> option R) s r :
  Regex.search m s = Some r ->
  exists pre rest, s = pre +:+ rest /\ m rest = Some r.
Proof.
  induction s as [| c s IH]; simpl.
  - destruct (m EmptyString) eqn:Hm; [| discriminate].
    intros [= <-]. exists EmptyString, EmptyString. auto.
  - destruct (m (String c s)) eqn:Hm.
    + intros [= <-]. exists EmptyString, (String c s). auto.
    + intros Hrec. destruct (IH Hrec) as (pre & rest & -> & Hrest).
      exists (String c pre), rest. rewrite append_cons. auto.
Qed.

(** A match is found as soon as one split lets the rest of the pattern
    match. *)
Lemma group_dot_star_complete g :
  forall (k : string -> string -> option R) rest r,
    str_exists Regex.is_newline g = false ->
    k g rest = Some r ->
    exists r', Regex.group_dot_star k (g +:+ rest) = Some r'.
Proof.
  induction g as [| c g IH]; intros k rest r Hg Hk.
  - change (EmptyString +:+ rest) with rest.
    destruct rest as [| c rest]; simpl; [eauto |].
    destruct (Regex.is_newline c); [eauto |].
    destruct (Regex.group_dot_star _ rest); eauto.
  - simpl in Hg. apply orb_false_elim in Hg. destruct Hg as [Hc Hg].
    rewrite append_cons. simpl. rewrite Hc.
    destruct (IH (fun g' => k (String c g')) rest r Hg Hk) as [r' ->].
    eauto.
Qed.

Lemma dot_star_complete mid :
  forall (k : string -> option R) rest r,
    str_exists Regex.is_newline mid = false ->
    k rest = Some r ->
    exists r', Regex.dot_star k (mid +:+ rest) = Some r'.
Proof.
  induction mid as [| c mid IH]; intros k rest r Hmid Hk.
  - change (EmptyString +:+ rest) with rest.
    destruct rest as [| c rest]; simpl; [eauto |].
    destruct (Regex.is_newline c); [eauto |].
    destruct (Regex.dot_star k rest); eauto.
  - simpl in Hmid. apply orb_false_elim in Hmid. destruct Hmid as [Hc Hmid].
    rewrite append_cons. simpl. rewrite Hc.
    destruct (IH k rest r Hmid Hk) as [r' ->]. eauto.
Qed.

Lemma search_complete pre :
  forall (m : string -> option R) rest r,
    m rest = Some r ->
    exists r', Regex.search m (pre +:+ rest) = Some r'.
Proof.
  induction pre as [| c pre IH]; intros m rest r Hm.
  - change (EmptyString +:+ rest) with rest.
    destruct rest; simpl; rewrite Hm; eauto.
  - rewrite append_cons. simpl.
    destruct (m (String c (pre +:+ rest))); [eauto |].
    eapply IH, Hm.
Qed.

End Sound.

(** The shape of a text that the port pattern matches from its start. *)
Lemma quoted_pair_some s code label :
  Regex.quoted_pair s = Some (code, label) ->
  exists mid post,
    s = q +:+ code +:+ q +:+ mid +:+ q +:+ label +:+ q +:+ post
    /\ str_exists Regex.is_newline code = false
    /\ str_exists Regex.is_newline mid = false
    /\ str_exists Regex.is_newline label = false.
Proof.
  unfold Regex.quoted_pair. intros H.
  apply lit_some in H. destruct H as (s1 & -> & H).
  apply group_dot_star_some in H. destruct H as (g1 & s2 & -> & Hg1 & H).
  apply lit_some in H. destruct H as (s3 & -> & H).
  apply dot_star_some in H. destruct H as (mid & s4 & -> & Hmid & H).
  apply lit_some in H. destruct H as (s5 & -> & H).
  apply group_dot_star_some in H. destruct H as (g2 & s6 & -> & Hg2 & H).
  apply lit_some in H. destruct H as (post & -> & H).
  injection H as <- <-.
  exists mid, post. repeat split; assumption.
Qed.

Lemma lit_quote {R} (k : string -> option R) s :
  Regex.lit Regex.quote k (q +:+ s) = k s.
Proof. reflexivity. Qed.

Lemma quoted_pair_complete code mid label post :
  str_exists Regex.is_newline code = false ->
  str_exists Regex.is_newline mid = false ->
  str_exists Regex.is_newline label = false ->
  exists r,
    Regex.quoted_pair
      (q +:+ code +:+ q +:+ mid +:+ q +:+ label +:+ q +:+ post) = Some r.
Proof.
  intros Hcode Hmid Hlabel. unfold Regex.quoted_pair.
  rewrite lit_quote.
  destruct (group_dot_star_complete label
              (fun g2 => Regex.lit Regex.quote (fun _ => Some (code, g2)))
              (q +:+ post) (code, label) Hlabel (lit_quote _ _))
    as [r3 H3].
  destruct (dot_star_complete mid
              (Regex.lit Regex.quote
                 (Regex.group_dot_star
                    (fun g2 => Regex.lit Regex.quote
                                 (fun _ => Some (code, g2)))))
              (q +:+ label +:+ q +:+ post) r3 Hmid)
    as [r2 H2]; [rewrite lit_quote; exact H3 |].
  eapply group_dot_star_complete; [exact Hcode |].
  rewrite lit_quote. exact H2.
Qed.

Lemma q_cons b : q +:+ b = String Regex.quote b.
Proof. reflexivity. Qed.

(** Two splits of one text at a quote, with no quote before it, are the
    same split. *)
Lemma split_at_quote a :
  forall a' b b',
    str_count is_quote a = O -> str_count is_quote a' = O ->
    a +:+ q +:+ b = a' +:+ q +:+ b' ->
    a = a' /\ b = b'.
Proof.
  induction a as [| c a IH]; intros a' b b' Ha Ha' Heq.
  - destruct a' as [| c' a'].
    + change (String Regex.quote b = String Regex.quote b') in Heq.
      injection Heq as Heq. subst. auto.
    + change (String Regex.quote b = String c' (a' +:+ q +:+ b')) in Heq.
      injection Heq as Hc _. subst c'. simpl in Ha'. discriminate.
  - destruct a' as [| c' a'].
    + change (String c (a +:+ q +:+ b) = String Regex.quote b') in Heq.
      injection Heq as Hc _. subst c. simpl in Ha. discriminate.
    + change (String c (a +:+ q +:+ b) = String c' (a' +:+ q +:+ b')) in Heq.
      injection Heq as Hc Heq. subst c'.
      simpl in Ha, Ha'.
      destruct (is_quote c); [discriminate |].
      destruct (IH a' b b' Ha Ha' Heq) as [-> ->]. auto.
Qed.

End RegexFacts.

Module PatternFacts.
(** The port pattern on one line. A line is matched exactly when it holds
    four quotes with no newline between the first and the last of them; the
    two groups of a match are the texts between the first two and the last
    two of such quotes. *)
Lemma search_shape (line : string) :
  match Regex.re_compiled_search line with
  | Some (code, label) =>
      exists pre mid post,
        line = pre +:+ q +:+ code +:+ q +:+ mid +:+ q +:+ label +:+ q +:+ post
        /\ str_exists Regex.is_newline code = false
        /\ str_exists Regex.is_newline mid = false
        /\ str_exists Regex.is_newline label = false
  | None =>
      forall pre code mid label post,
        str_exists Regex.is_newline code = false ->
        str_exists Regex.is_newline mid = false ->
        str_exists Regex.is_newline label = false ->
        line <> pre +:+ q +:+ code +:+ q +:+ mid +:+ q +:+ label +:+ q +:+ post
  end.
Proof.
  unfold Regex.re_compiled_search.
  destruct (Regex.search Regex.quoted_pair line) as [[code label] |] eqn:Hs.
  - apply RegexFacts.search_some in Hs. destruct Hs as (pre & rest & -> & Hs).
    apply RegexFacts.quoted_pair_some in Hs.
    destruct Hs as (mid & post & -> & Hcode & Hmid & Hlabel).
    exists pre, mid, post. auto.
  - intros pre code mid label post Hcode Hmid Hlabel ->.
    destruct (RegexFacts.quoted_pair_complete code mid label post
                Hcode Hmid Hlabel) as [r Hr].
    destruct (RegexFacts.search_complete pre _ _ _ Hr) as [r' Hr'].
    congruence.
Qed.

(** A line written as the label file writes its entries, with four quotes
    in all, is read as its code and its label: the text between the first
    two quotes and the text between the last two. *)
Lemma port_search_entry (pre code mid label post : string) :
  str_count is_quote pre = O ->
  str_count is_quote code = O ->
  str_count is_quote mid = O ->
  str_count is_quote label = O ->
  str_count is_quote post = O ->
  str_exists Regex.is_newline code = false ->
  str_exists Regex.is_newline mid = false ->
  str_exists Regex.is_newline label = false ->
  Regex.re_compiled_search
    (pre +:+ q +:+ code +:+ q +:+ mid +:+ q +:+ label +:+ q +:+ post)
  = Some (code, label).
Proof.
  intros Hpre Hcode Hmid Hlabel Hpost Ncode Nmid Nlabel.
  pose proof (search_shape
                (pre +:+ q +:+ code +:+ q +:+ mid +:+ q +:+ label
                 +:+ q +:+ post)) as Hshape.
  destruct (Regex.re_compiled_search _) as [[code' label'] |].
  - destruct Hshape as (pre' & mid' & post' & Heq & _).
    assert (Hcount :
      (str_count is_quote pre' + str_count is_quote code'
       + str_count is_quote mid' + str_count is_quote label'
       + str_count is_quote post' = 0)%nat).
    { apply (f_equal (str_count is_quote)) in Heq.
      rewrite !RegexFacts.str_count_append, !RegexFacts.count_q in Heq.
      lia. }
    destruct (RegexFacts.split_at_quote pre pre' _ _ Hpre ltac:(lia) Heq)
      as [<- Heq1].
    destruct (RegexFacts.split_at_quote code code' _ _ Hcode ltac:(lia) Heq1)
      as [<- Heq2].
    destruct (RegexFacts.split_at_quote mid mid' _ _ Hmid ltac:(lia) Heq2)
      as [<- Heq3].
    destruct (RegexFacts.split_at_quote label label' _ _ Hlabel ltac:(lia)
                Heq3) as [<- _].
    reflexivity.
  - exfalso. eapply Hshape; [exact Ncode | exact Nmid | exact Nlabel |].
    reflexivity.
Qed.

End PatternFacts.

(** ** The port parser *)

Module PortParserFacts.
Import TextFacts.

Lemma airport_loop_outcome ls :
  forall acc,
    match airport_loop acc ls with
    | Ok _ => forall line, In line ls -> Regex.re_compiled_search line <> None
    | Raise e =>
        e = AttributeError
        /\ exists line, In line ls /\ Regex.re_compiled_search line = None
    end.
Proof.
  induction ls as [| line0 rest IH]; intros acc; simpl.
  - intros line [].
  - rewrite ParserFacts.airport_step_eq.
    destruct (Regex.re_compiled_search line0) as [[code label] |] eqn:Hs;
      simpl.
    + specialize (IH (dict_set acc code (re_sub_spaces label))).
      destruct (airport_loop _ rest).
      * intros line [<- | Hin]; [congruence | apply IH, Hin].
      * destruct IH as (-> & line & Hin & Hnone).
        split; [reflexivity |]. exists line. auto.
    + split; [reflexivity |]. exists line0. auto.
Qed.

Lemma keys_dict_set d k v : map fst (dict_set d k v) = add_key (map fst d) k.
Proof.
  unfold add_key. induction d as [| [k0 v0] d IH]; simpl; [reflexivity |].
  rewrite (String.eqb_sym k k0).
  destruct (String.eqb k0 k); simpl; [reflexivity |].
  rewrite IH. destruct (existsb (String.eqb k) (map fst d)); reflexivity.
Qed.

Lemma airport_loop_keys ls :
  forall acc cat,
    airport_loop acc ls = Ok cat ->
    map fst cat = fold_left add_key (line_codes ls) (map fst acc).
Proof.
  induction ls as [| line0 rest IH]; intros acc cat; simpl.
  - intros [= <-]. reflexivity.
  - rewrite ParserFacts.airport_step_eq. unfold line_codes, line_code. simpl.
    destruct (Regex.re_compiled_search line0) as [[code label] |];
      [| discriminate].
    simpl. intros Hloop. rewrite (IH _ _ Hloop), keys_dict_set. reflexivity.
Qed.

Lemma add_key_NoDup keys k : List.NoDup keys -> List.NoDup (add_key keys k).
Proof.
  intros Hnd. unfold add_key.
  destruct (existsb (String.eqb k) keys) eqn:Hex; [exact Hnd |].
  apply NoDup_ListNoDup, NoDup_app. apply NoDup_ListNoDup in Hnd.
  split; [exact Hnd |]. split; [| apply NoDup_singleton].
  intros x Hx Hk. apply list_elem_of_singleton in Hk. subst x.
  apply list_elem_of_In in Hx.
  assert (existsb (String.eqb k) keys = true); [| congruence].
  apply existsb_exists. exists k. split; [exact Hx | apply String.eqb_refl].
Qed.

Lemma first_occurrences_NoDup codes :
  forall keys, List.NoDup keys -> List.NoDup (fold_left add_key codes keys).
Proof.
  induction codes as [| k codes IH]; intros keys Hnd; simpl; [exact Hnd |].
  apply IH, add_key_NoDup, Hnd.
Qed.

Lemma re_sub_spaces_clean s : str_exists is_space (re_sub_spaces s) = false.
Proof.
  induction s as [| c s IH]; simpl; [reflexivity |].
  destruct (is_space c) eqn:Hc; simpl; [exact IH |].
  rewrite Hc. exact IH.
Qed.

Lemma in_dict_set d k v k' v' :
  In (k', v') (dict_set d k v) -> (k', v') = (k, v) \/ In (k', v') d.
Proof.
  induction d as [| [k0 v0] d IH]; simpl.
  - intros [H | []]. left. congruence.
  - destruct (String.eqb_spec k0 k) as [-> | Hne]; simpl.
    + intros [H | H]; [left; congruence | right; right; exact H].
    + intros [H | H]; [right; left; exact H |].
      destruct (IH H); [left | right; right]; assumption.
Qed.

Lemma airport_loop_labels ls :
  forall acc cat,
    airport_loop acc ls = Ok cat ->
    (forall k l, In (k, l) acc -> str_exists is_space l = false) ->
    forall k l, In (k, l) cat -> str_exists is_space l = false.
Proof.
  induction ls as [| line0 rest IH]; intros acc cat; simpl.
  - intros [= <-]. auto.
  - rewrite ParserFacts.airport_step_eq.
    destruct (Regex.re_compiled_search line0) as [[code label] |];
      [| discriminate].
    simpl. intros Hloop Hacc. apply (IH _ _ Hloop).
    intros k l Hin. apply in_dict_set in Hin.
    destruct Hin as [[= -> ->] | Hin];
      [apply re_sub_spaces_clean | eapply Hacc, Hin].
Qed.

(** The value of a code is that of its last line. *)
Lemma airport_loop_last later :
  forall acc cat code,
    airport_loop acc later = Ok cat ->
    (forall line, In line later -> line_code line <> Some code) ->
    dict_get cat code = dict_get acc code.
Proof.
  induction later as [| line0 rest IH]; intros acc cat code; simpl.
  - intros [= <-]. reflexivity.
  - rewrite ParserFacts.airport_step_eq. intros Hloop Hother.
    assert (H0 := Hother line0 (or_introl eq_refl)). unfold line_code in H0.
    destruct (Regex.re_compiled_search line0) as [[code0 label0] |];
      [| discriminate].
    simpl in Hloop, H0.
    rewrite (IH _ _ code Hloop), dict_get_set.
    + destruct (String.eqb_spec code0 code); [congruence | reflexivity].
    + intros line Hin. apply Hother. right; exact Hin.
Qed.

Lemma airport_loop_app l1 :
  forall l2 acc,
    airport_loop acc (l1 ++ l2)
    = do mid <- airport_loop acc l1; airport_loop mid l2.
Proof.
  induction l1 as [| line rest IH]; intros l2 acc; simpl; [reflexivity |].
  destruct (airport_step acc line); simpl; [apply IH | reflexivity].
Qed.

End PortParserFacts.

(** ** The country parser *)

Module CountryParserFacts.
Import TextFacts.

Lemma digit_not_space c : is_digit c = true -> is_space c = false.
Proof.
  destruct c as [[] [] [] [] [] [] [] []]; vm_compute; congruence.
Qed.

Lemma digit_not_int_space c : is_digit c = true -> is_int_space c = false.
Proof.
  destruct c as [[] [] [] [] [] [] [] []]; vm_compute; congruence.
Qed.

Lemma digit_not_quote c : is_digit c = true -> is_quote c = false.
Proof.
  destruct c as [[] [] [] [] [] [] [] []]; vm_compute; congruence.
Qed.

Lemma digit_not_newline c : is_digit c = true -> Regex.is_newline c = false.
Proof.
  destruct c as [[] [] [] [] [] [] [] []]; vm_compute; congruence.
Qed.

Lemma digit_value_range c : is_digit c = true -> 0 <= digit_value c <= 9.
Proof.
  destruct c as [[] [] [] [] [] [] [] []]; vm_compute; intuition congruence.
Qed.

Section Sound.

Context {R : Type}.

Lemma group_digits_star_some s :
  forall (k : string -> string -> option R) r,
    CountryRegex.group_digits_star k s = Some r ->
    exists g rest,
      s = g +:+ rest /\ str_forall is_digit g = true /\ k g rest = Some r.
Proof.
  induction s as [| c s IH]; intros k r; simpl.
  - intros Hk. exists EmptyString, EmptyString. auto.
  - destruct (is_digit c) eqn:Hc.
    + destruct (CountryRegex.group_digits_star (fun g => k (String c g)) s)
        as [r' |] eqn:Hrec.
      * intros [= <-].
        destruct (IH _ _ Hrec) as (g & rest & -> & Hg & Hk).
        exists (String c g), rest. rewrite append_cons. simpl.
        rewrite Hc, Hg. auto.
      * intros Hk. exists EmptyString, (String c s). auto.
    + intros Hk. exists EmptyString, (String c s). auto.
Qed.

Lemma group_digits_plus_some (k : string -> string -> option R) s r :
  CountryRegex.group_digits_plus k s = Some r ->
  exists c g rest,
    s = String c g +:+ rest
    /\ str_forall is_digit (String c g) = true
    /\ k (String c g) rest = Some r.
Proof.
  destruct s as [| c s]; simpl; [discriminate |].
  destruct (is_digit c) eqn:Hc; [| discriminate].
  intros H. apply group_digits_star_some in H.
  destruct H as (g & rest & -> & Hg & Hk).
  exists c, g, rest. rewrite append_cons. simpl. rewrite Hc, Hg. auto.
Qed.

(** The run of digits is taken whole when the rest of the pattern matches
    after it. *)
Lemma group_digits_star_whole g :
  forall (k : string -> string -> option R) rest r,
    str_forall is_digit g = true ->
    k g rest = Some r ->
    (forall c rest', rest = String c rest' -> is_digit c = false) ->
    CountryRegex.group_digits_star k (g +:+ rest) = Some r.
Proof.
  induction g as [| c g IH]; intros k rest r Hg Hk Hrest.
  - change (EmptyString +:+ rest) with rest.
    destruct rest as [| c rest]; simpl; [exact Hk |].
    rewrite (Hrest c rest eq_refl). exact Hk.
  - simpl in Hg. apply andb_prop in Hg. destruct Hg as [Hc Hg].
    rewrite append_cons. simpl. rewrite Hc.
    rewrite (IH (fun g' => k (String c g')) rest r Hg Hk Hrest).
    reflexivity.
Qed.

Lemma search_skip (m : string -> option R) pre :
  forall rest,
    (forall c s, is_digit c = false -> m (String c s) = None) ->
    str_exists is_digit pre = false ->
    Regex.search m (pre +:+ rest) = Regex.search m rest.
Proof.
  induction pre as [| c pre IH]; intros rest Hm Hpre; [reflexivity |].
  simpl in Hpre. apply orb_false_elim in Hpre. destruct Hpre as [Hc Hpre].
  rewrite append_cons. simpl. rewrite (Hm c _ Hc). apply IH; assumption.
Qed.

Lemma search_here (m : string -> option R) s r :
  m s = Some r -> Regex.search m s = Some r.
Proof. intros Hm. destruct s; simpl; rewrite Hm; reflexivity. Qed.

End Sound.

Lemma number_pair_some s code label :
  CountryRegex.number_pair s = Some (code, label) ->
  code <> EmptyString
  /\ str_forall is_digit code = true
  /\ exists mid post,
       s = code +:+ mid +:+ q +:+ label +:+ q +:+ post
       /\ str_exists Regex.is_newline mid = false
       /\ str_exists Regex.is_newline label = false.
Proof.
  unfold CountryRegex.number_pair. intros H.
  apply group_digits_plus_some in H.
  destruct H as (c & g & s1 & -> & Hdigits & H).
  apply RegexFacts.dot_star_some in H.
  destruct H as (mid & s2 & -> & Hmid & H).
  apply RegexFacts.lit_some in H. destruct H as (s3 & -> & H).
  apply RegexFacts.group_dot_star_some in H.
  destruct H as (g2 & s4 & -> & Hg2 & H).
  apply RegexFacts.lit_some in H. destruct H as (post & -> & H).
  injection H as <- <-.
  split; [discriminate |]. split; [exact Hdigits |].
  exists mid, post. auto.
Qed.

Lemma number_pair_none c s :
  is_digit c = false -> CountryRegex.number_pair (String c s) = None.
Proof.
  intros Hc. unfold CountryRegex.number_pair, CountryRegex.group_digits_plus.
  rewrite Hc. reflexivity.
Qed.

(** [int] of a text of digits. *)

Lemma lstrip_digits s : str_forall is_digit s = true -> lstrip s = s.
Proof.
  destruct s as [| c s]; simpl; [reflexivity |].
  intros H. apply andb_prop in H. destruct H as [Hc _].
  rewrite (digit_not_int_space c Hc). reflexivity.
Qed.

Lemma rstrip_digits s : str_forall is_digit s = true -> rstrip s = s.
Proof.
  induction s as [| c s IH]; simpl; [reflexivity |].
  intros H. apply andb_prop in H. destruct H as [Hc Hs].
  rewrite (IH Hs), (digit_not_int_space c Hc). destruct s; reflexivity.
Qed.

Lemma parse_digits_digits s :
  forall acc after,
    str_forall is_digit s = true ->
    0 <= acc ->
    (s <> EmptyString \/ after = true) ->
    exists n, parse_digits s acc after = Some n /\ 0 <= n.
Proof.
  induction s as [| c s IH]; intros acc after Hs Hacc Hne; simpl.
  - destruct Hne as [Hne | ->]; [congruence | eauto].
  - simpl in Hs. apply andb_prop in Hs. destruct Hs as [Hc Hs].
    rewrite Hc. pose proof (digit_value_range c Hc).
    apply IH; [exact Hs | lia | right; reflexivity].
Qed.

Lemma int_of_str_digits s :
  s <> EmptyString -> str_forall is_digit s = true ->
  exists n, int_of_str s = Ok n /\ 0 <= n.
Proof.
  intros Hne Hs. unfold int_of_str.
  rewrite (lstrip_digits s Hs), (rstrip_digits s Hs).
  destruct (parse_digits_digits s 0 false Hs ltac:(lia) (or_introl Hne))
    as (n & Hn & Hpos).
  exists n. split; [| exact Hpos].
  destruct s as [| c s]; [congruence |].
  simpl in Hs. apply andb_prop in Hs. destruct Hs as [Hc _].
  destruct c as [[] [] [] [] [] [] [] []]; try (vm_compute in Hc; congruence);
    rewrite Hn; reflexivity.
Qed.

(** One line of the loop: the line is stored when the pattern matches it,
    and the parser fails when it does not; the conversion of the code to a
    number cannot fail. *)
Lemma country_step_eq acc line :
  country_step acc line
  = match country_entry line with
    | Some (n, name) => Ok (<[n := name]> acc)
    | None => Raise AttributeError
    end
  /\ (country_entry line = None <->
      CountryRegex.re_compiled_search line = None).
Proof.
  unfold country_step, country_entry.
  destruct (CountryRegex.re_compiled_search line) as [[code label] |] eqn:Hs;
    [| split; [reflexivity | tauto]].
  unfold CountryRegex.re_compiled_search in Hs.
  apply RegexFacts.search_some in Hs. destruct Hs as (pre & rest & _ & Hs).
  apply number_pair_some in Hs. destruct Hs as (Hne & Hdigits & _).
  destruct (int_of_str_digits code Hne Hdigits) as (n & Hn & _).
  simpl. rewrite Hn. simpl. split; [reflexivity |]. split; discriminate.
Qed.

Lemma country_loop_outcome ls :
  forall acc,
    match country_loop acc ls with
    | Ok _ =>
        forall line, In line ls -> CountryRegex.re_compiled_search line <> None
    | Raise e =>
        e = AttributeError
        /\ exists line,
             In line ls /\ CountryRegex.re_compiled_search line = None
    end.
Proof.
  induction ls as [| line0 rest IH]; intros acc; simpl.
  - intros line [].
  - destruct (country_step_eq acc line0) as [-> Hnone].
    destruct (country_entry line0) as [[n name] |]; simpl.
    + specialize (IH (<[n := name]> acc)).
      destruct (country_loop _ rest).
      * intros line [<- | Hin]; [| apply IH, Hin].
        intros Hs. apply Hnone in Hs. discriminate.
      * destruct IH as (-> & line & Hin & Hs).
        split; [reflexivity |]. exists line. auto.
    + split; [reflexivity |]. exists line0. split; [auto | tauto].
Qed.

Lemma country_loop_last later :
  forall (acc cat : country_catalog) n,
    country_loop acc later = Ok cat ->
    (forall line name, In line later -> country_entry line <> Some (n, name)) ->
    cat !! n = acc !! n.
Proof.
  induction later as [| line0 rest IH]; intros acc cat n; simpl.
  - intros [= <-]. reflexivity.
  - destruct (country_step_eq acc line0) as [-> _]. intros Hloop Hother.
    destruct (country_entry line0) as [[n0 name0] |] eqn:H0; [| discriminate].
    simpl in Hloop. rewrite (IH _ _ n Hloop).
    + apply lookup_insert_ne. intros ->.
      apply (Hother line0 name0); [left; reflexivity | exact H0].
    + intros line name Hin. apply Hother. right; exact Hin.
Qed.

Lemma country_loop_app l1 :
  forall l2 acc,
    country_loop acc (l1 ++ l2)
    = do mid <- country_loop acc l1; country_loop mid l2.
Proof.
  induction l1 as [| line rest IH]; intros l2 acc; simpl; [reflexivity |].
  destruct (country_step acc line); simpl; [apply IH | reflexivity].
Qed.

Lemma country_loop_entry l1 line l2 (acc cat : country_catalog) n name :
  country_loop acc (l1 ++ line :: l2) = Ok cat ->
  country_entry line = Some (n, name) ->
  (forall line' name', In line' l2 -> country_entry line' <> Some (n, name')) ->
  cat !! n = Some name.
Proof.
  rewrite country_loop_app. intros Hloop Hentry Hlater.
  destruct (country_loop acc l1) as [mid |]; [| discriminate].
  simpl in Hloop. destruct (country_step_eq mid line) as [Hstep _].
  rewrite Hstep, Hentry in Hloop. simpl in Hloop.
  rewrite (country_loop_last l2 _ _ n Hloop Hlater).
  apply lookup_insert_eq.
Qed.

End CountryParserFacts.

Module CountryPatternFacts.
Import TextFacts CountryParserFacts.

(** After the code: the label is the text between the two quotes that
    follow, when there are two quotes in all. *)
Lemma tail_exact (code mid label post : string) :
  str_count is_quote mid = O ->
  str_count is_quote label = O ->
  str_count is_quote post = O ->
  str_exists Regex.is_newline mid = false ->
  str_exists Regex.is_newline label = false ->
  Regex.dot_star
    (Regex.lit Regex.quote
       (Regex.group_dot_star
          (fun g2 => Regex.lit Regex.quote (fun _ => Some (code, g2)))))
    (mid +:+ q +:+ label +:+ q +:+ post)
  = Some (code, label).
Proof.
  intros Qmid Qlabel Qpost Nmid Nlabel.
  destruct (RegexFacts.group_dot_star_complete label
              (fun g2 => Regex.lit Regex.quote (fun _ => Some (code, g2)))
              (q +:+ post) (code, label) Nlabel
              (RegexFacts.lit_quote (fun _ => Some (code, label)) post))
    as [r1 H1].
  destruct (RegexFacts.dot_star_complete mid
              (Regex.lit Regex.quote
                 (Regex.group_dot_star
                    (fun g2 => Regex.lit Regex.quote
                                 (fun _ => Some (code, g2)))))
              (q +:+ label +:+ q +:+ post) r1 Nmid)
    as [r Hr]; [rewrite RegexFacts.lit_quote; exact H1 |].
  rewrite Hr. f_equal.
  apply RegexFacts.dot_star_some in Hr.
  destruct Hr as (mid' & s1 & Heq & _ & Hr).
  apply RegexFacts.lit_some in Hr. destruct Hr as (s2 & -> & Hr).
  apply RegexFacts.group_dot_star_some in Hr.
  destruct Hr as (g2 & s3 & -> & _ & Hr).
  apply RegexFacts.lit_some in Hr. destruct Hr as (post' & -> & Hr).
  injection Hr as <-.
  change (mid +:+ q +:+ label +:+ q +:+ post
          = mid' +:+ q +:+ g2 +:+ q +:+ post') in Heq.
  assert (Hcount : (str_count is_quote mid' + str_count is_quote g2
                    + str_count is_quote post' = 0)%nat).
  { apply (f_equal (str_count is_quote)) in Heq.
    rewrite !RegexFacts.str_count_append, !RegexFacts.count_q in Heq. lia. }
  destruct (RegexFacts.split_at_quote mid mid' _ _ Qmid ltac:(lia) Heq)
    as [_ Heq1].
  destruct (RegexFacts.split_at_quote label g2 _ _ Qlabel ltac:(lia) Heq1)
    as [<- _].
  reflexivity.
Qed.

Lemma country_search_entry (pre code mid label post : string) :
  str_exists is_digit pre = false ->
  code <> EmptyString ->
  str_forall is_digit code = true ->
  (forall c mid', mid = String c mid' -> is_digit c = false) ->
  str_count is_quote mid = O ->
  str_count is_quote label = O ->
  str_count is_quote post = O ->
  str_exists Regex.is_newline mid = false ->
  str_exists Regex.is_newline label = false ->
  CountryRegex.re_compiled_search
    (pre +:+ code +:+ mid +:+ q +:+ label +:+ q +:+ post)
  = Some (code, label).
Proof.
  intros Dpre Hne Dcode Dmid Qmid Qlabel Qpost Nmid Nlabel.
  unfold CountryRegex.re_compiled_search.
  rewrite search_skip; [| intros c s; apply number_pair_none | exact Dpre].
  apply search_here.
  destruct code as [| c g]; [congruence |].
  simpl in Dcode. apply andb_prop in Dcode. destruct Dcode as [Dc Dg].
  unfold CountryRegex.number_pair, CountryRegex.group_digits_plus.
  rewrite append_cons, Dc.
  apply group_digits_star_whole; [exact Dg | |].
  - apply tail_exact; assumption.
  - intros c' rest' Hrest. destruct mid as [| m mid'].
    + injection Hrest as <- _. reflexivity.
    + rewrite append_cons in Hrest. injection Hrest as <- _.
      eapply Dmid. reflexivity.
Qed.

End CountryPatternFacts.

(** ** The UDFs *)

Module UdfFacts.

Lemma get_valid_port_text valid_ports x :
  exists s,
    get_valid_port valid_ports x = PStr s
    /\ (dict_mem valid_ports s = true \/ s = "Other").
Proof.
  unfold get_valid_port.
  destruct (port_key_mem valid_ports x) eqn:Hmem.
  - destruct x as [| n | n | s | m e | | b]; try discriminate.
    exists s. auto.
  - exists "Other". auto.
Qed.

Lemma get_valid_port_idem valid_ports x :
  get_valid_port valid_ports (get_valid_port valid_ports x)
  = get_valid_port valid_ports x.
Proof.
  unfold get_valid_port.
  destruct (port_key_mem valid_ports x) eqn:Hmem; [rewrite Hmem; reflexivity |].
  destruct (port_key_mem valid_ports (PStr "Other")); reflexivity.
Qed.

Lemma overflow_outside_range d :
  d < -715509 \/ 2936549 < d ->
  convert_to_datetime (PInt d) = Raise OverflowError
  /\ convert_to_datetime (PFloat d) = Raise OverflowError.
Proof.
  intros Hd.
  assert (Htruthy : negb (d =? 0) = true).
  { apply negb_true_iff, Z.eqb_neq. lia. }
  split.
  - exact (proj2 (TimedeltaFacts.convert_to_datetime_days (PInt d) d eq_refl
                    Htruthy) Hd).
  - exact (proj2 (TimedeltaFacts.convert_to_datetime_days (PFloat d) d eq_refl
                    Htruthy) Hd).
Qed.

End UdfFacts.

(** ** The port resolver *)

Module CityFacts.
Import TextFacts.

Lemma lower_char_space c : is_space (lower_char c) = is_space c.
Proof. destruct c as [[] [] [] [] [] [] [] []]; reflexivity. Qed.

Lemma lower_char_idem c : lower_char (lower_char c) = lower_char c.
Proof. destruct c as [[] [] [] [] [] [] [] []]; reflexivity. Qed.

Lemma str_lower_space s :
  str_exists is_space (str_lower s) = str_exists is_space s.
Proof.
  induction s as [| c s IH]; simpl; [reflexivity |].
  rewrite lower_char_space, IH. reflexivity.
Qed.

Lemma str_lower_idem s : str_lower (str_lower s) = str_lower s.
Proof.
  induction s as [| c s IH]; simpl; [reflexivity |].
  rewrite lower_char_idem, IH. reflexivity.
Qed.

Lemma str_contains_exists p sub s :
  str_contains sub s = true ->
  str_exists p sub = true -> str_exists p s = true.
Proof.
  intros Hc Hsub. apply str_contains_spec in Hc.
  destruct Hc as (pre & post & ->).
  rewrite !RegexFacts.str_exists_append, Hsub.
  destruct (str_exists p pre); reflexivity.
Qed.

Lemma dict_get_in (d : port_catalog) k v : dict_get d k = Some v -> In (k, v) d.
Proof.
  induction d as [| [k0 v0] d IH]; simpl; [discriminate |].
  destruct (String.eqb_spec k0 k) as [-> | Hne].
  - intros [= ->]. left; reflexivity.
  - intros H. right. apply IH, H.
Qed.

Lemma loop_no_match (valid_ports : port_catalog) city keys :
  (forall k, In k keys -> exists l, dict_get valid_ports k = Some l) ->
  (forall k l, In (k, l) valid_ports ->
               str_contains (str_lower city) (str_lower l) = false) ->
  city_to_port_loop valid_ports keys (PStr city) = Ok None.
Proof.
  intros Hkeys Hno. induction keys as [| k rest IH]; [reflexivity |].
  simpl. unfold dict_getitem.
  destruct (Hkeys k (or_introl eq_refl)) as [l Hl]. rewrite Hl. simpl.
  rewrite (Hno k l (dict_get_in _ _ _ Hl)).
  apply IH. intros k' Hin. apply Hkeys. right; exact Hin.
Qed.

Lemma city_with_space (valid_ports : port_catalog) city :
  (forall k l, In (k, l) valid_ports -> str_exists is_space l = false) ->
  str_exists is_space city = true ->
  city_to_port valid_ports (PStr city) = Ok None.
Proof.
  intros Hclean Hcity. apply loop_no_match.
  - intros k Hin. apply dict_get_key, Hin.
  - intros k l Hin.
    destruct (str_contains (str_lower city) (str_lower l)) eqn:Hc;
      [| reflexivity].
    apply (str_contains_exists is_space) in Hc.
    + rewrite str_lower_space, (Hclean k l Hin) in Hc. discriminate.
    + rewrite str_lower_space. exact Hcity.
Qed.

Lemma loop_same_lower (valid_ports : port_catalog) a b keys :
  str_lower a = str_lower b ->
  city_to_port_loop valid_ports keys (PStr a)
  = city_to_port_loop valid_ports keys (PStr b).
Proof.
  intros Hab. induction keys as [| k rest IH]; [reflexivity |].
  simpl. rewrite Hab, IH. reflexivity.
Qed.

Lemma str_contains_empty s : str_contains EmptyString s = true.
Proof. destruct s; reflexivity. Qed.

End CityFacts.

(** ** The two chains *)

Module ChainFacts.

Lemma fill_fill v d : fill (fill v d) d = fill v d.
Proof. destruct v; [destruct d |..]; reflexivity. Qed.

Lemma fill_double_fill_double v d :
  fill_double (fill_double v d) d = fill_double v d.
Proof. destruct v; try reflexivity; destruct d; reflexivity. Qed.

Lemma fill_double_filled v d :
  d <> PNone -> d <> PNan ->
  fill_double v d <> PNone /\ fill_double v d <> PNan.
Proof. destruct v; simpl; split; congruence. Qed.

Lemma fill_double_id v d : v <> PNone -> v <> PNan -> fill_double v d = v.
Proof. destruct v; simpl; congruence. Qed.

Lemma fill_filled v d : d <> PNone -> fill v d <> PNone.
Proof. destruct v; simpl; congruence. Qed.

Lemma fill_id v d : v <> PNone -> fill v d = v.
Proof. destruct v; simpl; congruence. Qed.

(** The rows that pass the filter, by their port code. *)
Lemma pushed_filter_rows valid_ports df :
  List.filter (pushed_filter_condition valid_ports) df
  = if dict_mem valid_ports "Air"
    then List.filter (fun r => sql_eq_str (i94port r) "Air") df
    else [].
Proof.
  induction df as [| r df IH]; simpl; [destruct (dict_mem _ _); reflexivity |].
  rewrite IH.
  pose proof (PipelineFacts.pushed_filter_condition_port valid_ports r)
    as Hport.
  destruct (pushed_filter_condition valid_ports r).
  - destruct (proj1 Hport eq_refl) as [Hair Hmem].
    rewrite Hair, Hmem. reflexivity.
  - destruct (dict_mem valid_ports "Air") eqn:Hmem; [| reflexivity].
    destruct (sql_eq_str (i94port r) "Air") eqn:Hair; [| reflexivity].
    assert (i94port r = PStr "Air").
    { unfold sql_eq_str in Hair.
      destruct (i94port r); try discriminate.
      apply String.eqb_eq in Hair. congruence. }
    assert (Hpass : false = true) by (apply Hport; auto).
    discriminate.
Qed.

Lemma traverse_forall2 {A B} (f : A -> result B) l :
  forall out,
    traverse f l = Ok out -> Forall2 (fun a b => f a = Ok b) l out.
Proof.
  induction l as [| a l IH]; intros out; simpl.
  - intros [= <-]. constructor.
  - destruct (f a) as [b |] eqn:Hfa; [| discriminate]. simpl.
    destruct (traverse f l) as [bs |]; [| discriminate]. simpl.
    intros [= <-]. constructor; [exact Hfa | apply IH; reflexivity].
Qed.

Lemma traverse_outcome {A B} (f : A -> result B) l :
  match traverse f l with
  | Ok _ => forall a, In a l -> returns (f a)
  | Raise e => exists a, In a l /\ f a = Raise e
  end.
Proof.
  induction l as [| a l IH]; simpl; [intros a [] |].
  destruct (f a) as [b |] eqn:Hfa; simpl.
  - destruct (traverse f l) as [bs |]; simpl.
    + intros a' [<- | Hin]; [exists b; exact Hfa | apply IH, Hin].
    + destruct IH as (a' & Hin & Ha'). exists a'. auto.
  - exists a. auto.
Qed.

Lemma with_port_text valid_ports r s :
  Demographics.City r = PStr s ->
  returns (Demographics.with_port valid_ports r).
Proof.
  intros Hcity. unfold Demographics.with_port. rewrite Hcity.
  destruct (ResolverFacts.loop_returns valid_ports s (map fst valid_ports))
    as [p Hp].
  { intros k Hin. apply TextFacts.dict_get_key, Hin. }
  unfold city_to_port. rewrite Hp. eexists; reflexivity.
Qed.

Lemma with_port_raise valid_ports r e :
  Demographics.with_port valid_ports r = Raise e ->
  e = AttributeError /\ forall s, Demographics.City r <> PStr s.
Proof.
  intros Hraise.
  destruct (Demographics.City r) as [| n | n | s | m k | | b] eqn:Hcity.
  4: destruct (with_port_text valid_ports r s Hcity) as [c Hc]; congruence.
  all: split; [| discriminate];
    unfold Demographics.with_port, city_to_port in Hraise;
    rewrite Hcity in Hraise;
    destruct (map fst valid_ports); simpl in Hraise; congruence.
Qed.

End ChainFacts.

Module ComposeFacts.
Import TextFacts.

Lemma dict_mem_keys (d : port_catalog) k :
  dict_mem d k = existsb (String.eqb k) (map fst d).
Proof.
  unfold dict_mem. induction d as [| [k0 v0] d IH]; simpl; [reflexivity |].
  rewrite (String.eqb_sym k k0).
  destruct (String.eqb k0 k); [reflexivity | exact IH].
Qed.

Lemma existsb_add_key keys k code :
  existsb (String.eqb k) (add_key keys code)
  = String.eqb k code || existsb (String.eqb k) keys.
Proof.
  unfold add_key. destruct (existsb (String.eqb code) keys) eqn:Hex.
  - destruct (String.eqb_spec k code) as [-> | Hne]; [| reflexivity].
    rewrite Hex. reflexivity.
  - rewrite existsb_app. simpl. rewrite orb_false_r. apply orb_comm.
Qed.

Lemma existsb_first_occurrences codes :
  forall keys k,
    existsb (String.eqb k) (fold_left add_key codes keys)
    = existsb (String.eqb k) codes || existsb (String.eqb k) keys.
Proof.
  induction codes as [| code codes IH]; intros keys k; simpl; [reflexivity |].
  rewrite IH, existsb_add_key.
  destruct (String.eqb k code), (existsb (String.eqb k) codes);
    reflexivity.
Qed.

Lemma with_port_row valid_ports r c :
  Demographics.with_port valid_ports r = Ok c ->
  Demographics.source_row c = r
  /\ exists p,
       city_to_port valid_ports (Demographics.city c) = Ok p
       /\ Demographics.port c = of_optional_str p.
Proof.
  unfold Demographics.with_port.
  destruct (city_to_port valid_ports (Demographics.City r)) as [p |] eqn:Hp;
    [| discriminate].
  simpl. intros [= <-]. split; [destruct r; reflexivity |].
  exists p. simpl. auto.
Qed.

End ComposeFacts.

(** ** The properties *)

(** X1. The port pattern on one line. A line is matched exactly when it
    holds four quotes with no newline between the first and the last of
    them, and the two groups of a match are texts between quotes: the line
    is some text, quote, group 1, quote, some text, quote, group 2, quote,
    some text. *)
Theorem port_pattern_shape (line : string) :
  match Regex.re_compiled_search line with
  | Some (code, label) =>
      exists pre mid post,
        line = pre +:+ q +:+ code +:+ q +:+ mid +:+ q +:+ label +:+ q +:+ post
        /\ str_exists Regex.is_newline code = false
        /\ str_exists Regex.is_newline mid = false
        /\ str_exists Regex.is_newline label = false
  | None =>
      forall pre code mid label post,
        str_exists Regex.is_newline code = false ->
        str_exists Regex.is_newline mid = false ->
        str_exists Regex.is_newline label = false ->
        line <> pre +:+ q +:+ code +:+ q +:+ mid +:+ q +:+ label +:+ q +:+ post
  end.
Proof. exact (PatternFacts.search_shape line). Qed.

(** X2. A line written as the label file writes a port entry, with four
    quotes in all and no newline before the last of them, is read as its
    code and its label: the text between the first two quotes and the text
    between the last two. *)
Theorem port_pattern_entry_line (pre code mid label post : string) :
  str_count is_quote pre = O ->
  str_count is_quote code = O ->
  str_count is_quote mid = O ->
  str_count is_quote label = O ->
  str_count is_quote post = O ->
  str_exists Regex.is_newline code = false ->
  str_exists Regex.is_newline mid = false ->
  str_exists Regex.is_newline label = false ->
  Regex.re_compiled_search
    (pre +:+ q +:+ code +:+ q +:+ mid +:+ q +:+ label +:+ q +:+ post)
  = Some (code, label).
Proof. exact (PatternFacts.port_search_entry pre code mid label post). Qed.

Lemma port_pattern_entry_line_witness :
  str_count is_quote "   " = O
  /\ str_count is_quote "ALC" = O
  /\ str_count is_quote "	=	" = O
  /\ str_count is_quote "ALCAN, AK             " = O
  /\ str_count is_quote newline = O
  /\ str_exists Regex.is_newline "ALC" = false
  /\ str_exists Regex.is_newline "	=	" = false
  /\ str_exists Regex.is_newline "ALCAN, AK             " = false
  /\ Regex.re_compiled_search
       ("   " +:+ q +:+ "ALC" +:+ q +:+ "	=	" +:+ q
        +:+ "ALCAN, AK             " +:+ q +:+ newline)
     = Some ("ALC", "ALCAN, AK             ").
Proof.
  do 8 (split; [reflexivity |]).
  apply (port_pattern_entry_line "   " "ALC" "	=	"
           "ALCAN, AK             " newline); reflexivity.
Defined.

(** X3. [get_valid_airport_list] returns a catalog exactly when the pattern
    matches every line of lines[302:893]; when some line of that range is
    not matched it raises, and what it raises is AttributeError. *)
Theorem get_valid_airport_list_outcome (lines : list string) :
  match get_valid_airport_list lines with
  | Ok _ =>
      forall line,
        In line (slice 302 893 lines) ->
        Regex.re_compiled_search line <> None
  | Raise e =>
      e = AttributeError
      /\ exists line,
           In line (slice 302 893 lines)
           /\ Regex.re_compiled_search line = None
  end.
Proof. exact (PortParserFacts.airport_loop_outcome _ []). Qed.

(** X4. The codes of the parsed port catalog, in the order of the dict, are
    the codes of the lines in the order in which each comes first in the
    file: a code that comes again does not move. *)
Theorem parsed_ports_in_file_order
  (lines : list string) (catalog : port_catalog) :
  get_valid_airport_list lines = Ok catalog ->
  map fst catalog = first_occurrences (line_codes (slice 302 893 lines)).
Proof.
  intros Hparse. exact (PortParserFacts.airport_loop_keys _ [] _ Hparse).
Qed.

Lemma parsed_ports_in_file_order_witness :
  get_valid_airport_list repeated_lines = Ok repeated_parsed
  /\ map fst repeated_parsed
     = first_occurrences (line_codes (slice 302 893 repeated_lines)).
Proof.
  assert (H : get_valid_airport_list repeated_lines = Ok repeated_parsed)
    by (vm_compute; reflexivity).
  split; [exact H |].
  exact (parsed_ports_in_file_order repeated_lines repeated_parsed H).
Defined.

(** X5. A parsed port catalog has every code once, and none of its labels
    holds a whitespace character. *)
Theorem parsed_ports_invariant (lines : list string) (catalog : port_catalog) :
  get_valid_airport_list lines = Ok catalog ->
  List.NoDup (map fst catalog)
  /\ forall code label,
       In (code, label) catalog -> str_exists is_space label = false.
Proof.
  intros Hparse. split.
  - rewrite (PortParserFacts.airport_loop_keys _ [] _ Hparse).
    apply PortParserFacts.first_occurrences_NoDup. constructor.
  - apply (PortParserFacts.airport_loop_labels _ [] _ Hparse).
    intros k l [].
Qed.

Lemma parsed_ports_invariant_witness :
  get_valid_airport_list sample_lines = Ok sample_parsed
  /\ List.NoDup (map fst sample_parsed)
  /\ forall code label,
       In (code, label) sample_parsed -> str_exists is_space label = false.
Proof.
  assert (H : get_valid_airport_list sample_lines = Ok sample_parsed)
    by (vm_compute; reflexivity).
  split; [exact H |].
  exact (parsed_ports_invariant sample_lines sample_parsed H).
Defined.

(** X6. When a code comes on several lines, the parsed catalog holds the
    label of the last of them, cleaned of whitespace. *)
Theorem parsed_ports_last_line_wins
  (lines before after : list string) (catalog : port_catalog)
  (line code label : string) :
  get_valid_airport_list lines = Ok catalog ->
  slice 302 893 lines = (before ++ line :: after)%list ->
  Regex.re_compiled_search line = Some (code, label) ->
  (forall line', In line' after -> line_code line' <> Some code) ->
  dict_get catalog code = Some (re_sub_spaces label).
Proof.
  unfold get_valid_airport_list. intros Hparse Hslice Hsearch Hlater.
  rewrite Hslice, PortParserFacts.airport_loop_app in Hparse.
  destruct (airport_loop [] before) as [mid |]; [| discriminate].
  simpl in Hparse. rewrite ParserFacts.airport_step_eq, Hsearch in Hparse.
  simpl in Hparse.
  rewrite (PortParserFacts.airport_loop_last after _ _ code Hparse Hlater).
  rewrite TextFacts.dict_get_set, String.eqb_refl. reflexivity.
Qed.

Lemma parsed_ports_last_line_wins_witness :
  get_valid_airport_list repeated_lines = Ok repeated_parsed
  /\ slice 302 893 repeated_lines
     = (["   'ALC'	=	'ALCAN, AK             '" +:+ newline]
        ++ placeholder_line :: ["   'ALC'	=	'ALCAN 2'" +:+ newline])%list
  /\ Regex.re_compiled_search placeholder_line
     = Some ("XXX", "NOT REPORTED/UNKNOWN  ")
  /\ (forall line',
        In line' ["   'ALC'	=	'ALCAN 2'" +:+ newline] ->
        line_code line' <> Some "XXX")
  /\ dict_get repeated_parsed "XXX"
     = Some (re_sub_spaces "NOT REPORTED/UNKNOWN  ").
Proof.
  assert (H1 : get_valid_airport_list repeated_lines = Ok repeated_parsed)
    by (vm_compute; reflexivity).
  assert (H2 : slice 302 893 repeated_lines
     = (["   'ALC'	=	'ALCAN, AK             '" +:+ newline]
        ++ placeholder_line :: ["   'ALC'	=	'ALCAN 2'" +:+ newline])%list)
    by (vm_compute; reflexivity).
  assert (H3 : Regex.re_compiled_search placeholder_line
               = Some ("XXX", "NOT REPORTED/UNKNOWN  "))
    by (vm_compute; reflexivity).
  assert (H4 : forall line',
             In line' ["   'ALC'	=	'ALCAN 2'" +:+ newline] ->
             line_code line' <> Some "XXX").
  { intros line' [<- | []]. vm_compute. discriminate. }
  split; [exact H1 |]. split; [exact H2 |]. split; [exact H3 |].
  split; [exact H4 |].
  exact (parsed_ports_last_line_wins repeated_lines _ _ repeated_parsed
           _ "XXX" "NOT REPORTED/UNKNOWN  " H1 H2 H3 H4).
Defined.

(** X7. [get_valid_port] with a parsed catalog keeps a port code exactly
    when some line of the port range has it as its code, and gives the
    text Other for every other code. *)
Theorem get_valid_port_after_parse
  (lines : list string) (catalog : port_catalog) (code : string) :
  get_valid_airport_list lines = Ok catalog ->
  get_valid_port catalog (PStr code)
  = if existsb (String.eqb code) (line_codes (slice 302 893 lines))
    then PStr code else PStr "Other".
Proof.
  intros Hparse. unfold get_valid_port, port_key_mem.
  rewrite ComposeFacts.dict_mem_keys.
  rewrite (PortParserFacts.airport_loop_keys _ [] _ Hparse).
  rewrite ComposeFacts.existsb_first_occurrences. simpl.
  rewrite orb_false_r. reflexivity.
Qed.

Lemma get_valid_port_after_parse_witness :
  get_valid_airport_list sample_lines = Ok sample_parsed
  /\ get_valid_port sample_parsed (PStr "XXX")
     = if existsb (String.eqb "XXX") (line_codes (slice 302 893 sample_lines))
       then PStr "XXX" else PStr "Other".
Proof.
  assert (H : get_valid_airport_list sample_lines = Ok sample_parsed)
    by (vm_compute; reflexivity).
  split; [exact H |].
  exact (get_valid_port_after_parse sample_lines sample_parsed "XXX" H).
Defined.

(** X8. A line written as the label file writes a country entry (no digit
    before the code, a code of digits, then text that does not start with a
    digit, and two quotes in all around the label) is read as its code and
    its label. *)
Theorem country_pattern_entry_line (pre code mid label post : string) :
  str_exists is_digit pre = false ->
  code <> EmptyString ->
  str_forall is_digit code = true ->
  (forall c mid', mid = String c mid' -> is_digit c = false) ->
  str_count is_quote mid = O ->
  str_count is_quote label = O ->
  str_count is_quote post = O ->
  str_exists Regex.is_newline mid = false ->
  str_exists Regex.is_newline label = false ->
  CountryRegex.re_compiled_search
    (pre +:+ code +:+ mid +:+ q +:+ label +:+ q +:+ post)
  = Some (code, label).
Proof.
  exact (CountryPatternFacts.country_search_entry pre code mid label post).
Qed.

Lemma country_pattern_entry_line_witness :
  str_exists is_digit "   " = false
  /\ "582" <> EmptyString
  /\ str_forall is_digit "582" = true
  /\ (forall c mid', " =  " = String c mid' -> is_digit c = false)
  /\ str_count is_quote " =  " = O
  /\ str_count is_quote "MEXICO (I-94)" = O
  /\ str_count is_quote newline = O
  /\ str_exists Regex.is_newline " =  " = false
  /\ str_exists Regex.is_newline "MEXICO (I-94)" = false
  /\ CountryRegex.re_compiled_search
       ("   " +:+ "582" +:+ " =  " +:+ q +:+ "MEXICO (I-94)" +:+ q
        +:+ newline)
     = Some ("582", "MEXICO (I-94)").
Proof.
  assert (Hmid : forall c mid', " =  " = String c mid' -> is_digit c = false)
    by (intros c mid' [= <- _]; reflexivity).
  split; [reflexivity |]. split; [discriminate |]. split; [reflexivity |].
  split; [exact Hmid |]. do 5 (split; [reflexivity |]).
  apply (country_pattern_entry_line "   " "582" " =  " "MEXICO (I-94)"
           newline); try reflexivity; [discriminate | exact Hmid].
Defined.

(** X9. [get_valid_country_list] returns a catalog exactly when its pattern
    matches every line of lines[9:245]; when some line of that range is not
    matched it raises AttributeError. The conversion of a matched code with
    [int] never raises. *)
Theorem get_valid_country_list_outcome (lines : list string) :
  match get_valid_country_list lines with
  | Ok _ =>
      forall line,
        In line (slice 9 245 lines) ->
        CountryRegex.re_compiled_search line <> None
  | Raise e =>
      e = AttributeError
      /\ exists line,
           In line (slice 9 245 lines)
           /\ CountryRegex.re_compiled_search line = None
  end.
Proof. exact (CountryParserFacts.country_loop_outcome _ ∅). Qed.

(** X10. Parsing and looking up agree: with the parsed country catalog,
    [get_valid_country] on the number of a line's code (int or float)
    returns the label of the last line of that number, cleaned of
    whitespace. *)
Theorem get_valid_country_after_parse
  (lines before after : list string) (catalog : country_catalog)
  (line : string) (n : Z) (name : string) :
  get_valid_country_list lines = Ok catalog ->
  slice 9 245 lines = (before ++ line :: after)%list ->
  country_entry line = Some (n, name) ->
  (forall line' name',
     In line' after -> country_entry line' <> Some (n, name')) ->
  get_valid_country catalog (PInt n) = Ok (PStr name)
  /\ get_valid_country catalog (PFloat n) = Ok (PStr name).
Proof.
  unfold get_valid_country_list. intros Hparse Hslice Hentry Hlater.
  rewrite Hslice in Hparse.
  pose proof (CountryParserFacts.country_loop_entry _ _ _ _ _ _ _
                Hparse Hentry Hlater) as Hlookup.
  destruct (PipelineFacts.get_valid_country_number catalog n) as [-> ->].
  rewrite Hlookup. split; reflexivity.
Qed.

Lemma get_valid_country_after_parse_witness :
  get_valid_country_list country_lines = Ok country_parsed
  /\ slice 9 245 country_lines
     = ([mexico_line] ++ afghanistan_line :: [albania_line])%list
  /\ country_entry afghanistan_line = Some (236, "AFGHANISTAN")
  /\ (forall line' name',
        In line' [albania_line] ->
        country_entry line' <> Some (236, name'))
  /\ get_valid_country country_parsed (PInt 236) = Ok (PStr "AFGHANISTAN")
  /\ get_valid_country country_parsed (PFloat 236) = Ok (PStr "AFGHANISTAN").
Proof.
  assert (H1 : get_valid_country_list country_lines = Ok country_parsed)
    by (vm_compute; reflexivity).
  assert (H2 : slice 9 245 country_lines
               = ([mexico_line] ++ afghanistan_line :: [albania_line])%list)
    by (vm_compute; reflexivity).
  assert (H3 : country_entry afghanistan_line = Some (236, "AFGHANISTAN"))
    by (vm_compute; reflexivity).
  assert (H4 : forall line' name',
             In line' [albania_line] ->
             country_entry line' <> Some (236, name')).
  { intros line' name' [<- | []]. vm_compute. discriminate. }
  split; [exact H1 |]. split; [exact H2 |]. split; [exact H3 |].
  split; [exact H4 |].
  exact (get_valid_country_after_parse country_lines _ _ country_parsed
           _ 236 "AFGHANISTAN" H1 H2 H3 H4).
Defined.

(** X11. With the parsed country catalog, [get_valid_country] on a number
    that no line of the country range has as its code returns the text
    Other. *)
Theorem get_valid_country_unlisted
  (lines : list string) (catalog : country_catalog) (n : Z) :
  get_valid_country_list lines = Ok catalog ->
  (forall line name,
     In line (slice 9 245 lines) -> country_entry line <> Some (n, name)) ->
  get_valid_country catalog (PInt n) = Ok (PStr "Other")
  /\ get_valid_country catalog (PFloat n) = Ok (PStr "Other").
Proof.
  unfold get_valid_country_list. intros Hparse Hnone.
  pose proof (CountryParserFacts.country_loop_last _ _ _ n Hparse Hnone)
    as Hlookup.
  rewrite lookup_empty in Hlookup.
  destruct (PipelineFacts.get_valid_country_number catalog n) as [-> ->].
  rewrite Hlookup. split; reflexivity.
Qed.

Lemma get_valid_country_unlisted_witness :
  get_valid_country_list country_lines = Ok country_parsed
  /\ (forall line name,
        In line (slice 9 245 country_lines) ->
        country_entry line <> Some (999, name))
  /\ get_valid_country country_parsed (PInt 999) = Ok (PStr "Other")
  /\ get_valid_country country_parsed (PFloat 999) = Ok (PStr "Other").
Proof.
  assert (H1 : get_valid_country_list country_lines = Ok country_parsed)
    by (vm_compute; reflexivity).
  assert (H2 : forall line name,
             In line (slice 9 245 country_lines) ->
             country_entry line <> Some (999, name)).
  { intros line name Hin. vm_compute in Hin.
    destruct Hin as [<- | [<- | [<- | []]]]; vm_compute; discriminate. }
  split; [exact H1 |]. split; [exact H2 |].
  exact (get_valid_country_unlisted country_lines country_parsed 999 H1 H2).
Defined.

(** X12. On a number, an int or a float alike, [get_valid_country] does not
    raise: it returns the name that the catalog holds for the number, and
    the text Other when the catalog holds none. *)
Theorem get_valid_country_on_numbers
  (valid_countries : country_catalog) (n : Z) :
  get_valid_country valid_countries (PInt n)
  = Ok (PStr (default "Other" (valid_countries !! n)))
  /\ get_valid_country valid_countries (PFloat n)
     = Ok (PStr (default "Other" (valid_countries !! n))).
Proof. exact (PipelineFacts.get_valid_country_number valid_countries n). Qed.

(** X13. On a text, [get_valid_country] never gives a name of the catalog:
    when it returns, the text is that of an integer that the catalog does
    not hold, and what it returns is the text Other. *)
Theorem get_valid_country_on_text
  (valid_countries : country_catalog) (s name : string) :
  get_valid_country valid_countries (PStr s) = Ok (PStr name) ->
  name = "Other"
  /\ exists n, int_of_str s = Ok n /\ valid_countries !! n = None.
Proof.
  unfold get_valid_country. simpl.
  destruct (int_of_str s) as [n |]; simpl; [| discriminate].
  destruct (valid_countries !! n) eqn:Hn; simpl; [discriminate |].
  intros [= <-]. split; [reflexivity |]. exists n. auto.
Qed.

Lemma get_valid_country_on_text_witness :
  get_valid_country sample_countries (PStr "999") = Ok (PStr "Other")
  /\ "Other" = "Other"
  /\ exists n, int_of_str "999" = Ok n /\ sample_countries !! n = None.
Proof.
  assert (H : get_valid_country sample_countries (PStr "999")
              = Ok (PStr "Other")) by (vm_compute; reflexivity).
  split; [exact H |].
  exact (get_valid_country_on_text sample_countries "999" "Other" H).
Defined.

(** X14. [get_valid_port] always gives a text, which is a code of the
    catalog or the text Other, and applying it again changes nothing. *)
Theorem get_valid_port_idempotent (valid_ports : port_catalog) (x : pyval) :
  (exists s,
     get_valid_port valid_ports x = PStr s
     /\ (dict_mem valid_ports s = true \/ s = "Other"))
  /\ get_valid_port valid_ports (get_valid_port valid_ports x)
     = get_valid_port valid_ports x.
Proof.
  split; [apply UdfFacts.get_valid_port_text
         | apply UdfFacts.get_valid_port_idem].
Qed.

(** X15. [convert_mode] depends on the number that its argument holds only:
    1 gives Air, 2 gives Sea, 3 gives Land, and every other number (a float
    with a fractional part, NaN and the infinities too), a null and a text
    give Not reported. *)
Theorem convert_mode_by_value (x : pyval) :
  convert_mode x
  = PStr match num_value x with
         | Some 1 => "Air"
         | Some 2 => "Sea"
         | Some 3 => "Land"
         | _ => "Not reported"
         end.
Proof.
  destruct x as [| n | n | s | m e | | b]; try reflexivity;
    (destruct n as [| p | p]; try reflexivity;
     do 4 (destruct p as [p | p |]; try reflexivity)).
Qed.

(** X16. [convert_visa] depends on the number that its argument holds only:
    1 gives Business, 2 gives Pleasure, 3 gives Student, and every other
    number (a float with a fractional part, NaN and the infinities too), a
    null and a text give Unknown. *)
Theorem convert_visa_by_value (x : pyval) :
  convert_visa x
  = PStr match num_value x with
         | Some 1 => "Business"
         | Some 2 => "Pleasure"
         | Some 3 => "Student"
         | _ => "Unknown"
         end.
Proof.
  destruct x as [| n | n | s | m e | | b]; try reflexivity;
    (destruct n as [| p | p]; try reflexivity;
     do 3 (destruct p as [p | p |]; try reflexivity)).
Qed.

(** X17. On every offset of whole days that leads before 0001-01-01 or past
    9999-12-31, [convert_to_datetime] raises OverflowError. *)
Theorem convert_to_datetime_raises_outside (d : Z) :
  d < -715509 \/ 2936549 < d ->
  convert_to_datetime (PInt d) = Raise OverflowError
  /\ convert_to_datetime (PFloat d) = Raise OverflowError.
Proof. exact (UdfFacts.overflow_outside_range d). Qed.

Lemma convert_to_datetime_raises_outside_witness :
  (-715510 < -715509 \/ 2936549 < -715510)
  /\ convert_to_datetime (PInt (-715510)) = Raise OverflowError
  /\ convert_to_datetime (PFloat (-715510)) = Raise OverflowError.
Proof.
  split; [left; lia |].
  apply (convert_to_datetime_raises_outside (-715510)). left; lia.
Defined.

(** X18. The null policy applied twice is the null policy applied once. *)
Theorem fillna_idempotent (c : clean_row) : fillna (fillna c) = fillna c.
Proof.
  unfold fillna. simpl.
  rewrite !ChainFacts.fill_fill, ChainFacts.fill_double_fill_double.
  reflexivity.
Qed.

(** X19. After [fillna] none of the five columns of its dict is null, and
    the age is not NaN either; each of them keeps the value it had when
    that was not null (for the age, a column of doubles: not null and not
    NaN; a NaN age gets the default like a null one), and the nine other
    columns are as they were. *)
Theorem fillna_columns (c : clean_row) :
  (state_of_residence (fillna c) <> PNone
   /\ (immigrant_age (fillna c) <> PNone /\ immigrant_age (fillna c) <> PNan)
   /\ airline_code (fillna c) <> PNone
   /\ airline_flight_number (fillna c) <> PNone
   /\ gender (fillna c) <> PNone)
  /\ ((state_of_residence c <> PNone ->
       state_of_residence (fillna c) = state_of_residence c)
      /\ (immigrant_age c <> PNone -> immigrant_age c <> PNan ->
          immigrant_age (fillna c) = immigrant_age c)
      /\ (immigrant_age c = PNan -> immigrant_age (fillna c) = PFloat (-1))
      /\ (airline_code c <> PNone -> airline_code (fillna c) = airline_code c)
      /\ (airline_flight_number c <> PNone ->
          airline_flight_number (fillna c) = airline_flight_number c)
      /\ (gender c <> PNone -> gender (fillna c) = gender c))
  /\ (immigration_id (fillna c) = immigration_id c
      /\ immigration_year (fillna c) = immigration_year c
      /\ immigration_month (fillna c) = immigration_month c
      /\ origin_country (fillna c) = origin_country c
      /\ arrival_port (fillna c) = arrival_port c
      /\ arrival_date (fillna c) = arrival_date c
      /\ port_type (fillna c) = port_type c
      /\ visitor_type (fillna c) = visitor_type c
      /\ visa_type (fillna c) = visa_type c).
Proof.
  split; [| split].
  - split; [apply ChainFacts.fill_filled; discriminate |].
    split; [apply ChainFacts.fill_double_filled; discriminate |].
    repeat split; apply ChainFacts.fill_filled; discriminate.
  - split; [apply ChainFacts.fill_id |].
    split; [apply ChainFacts.fill_double_id |].
    split; [simpl; intros ->; reflexivity |].
    repeat split; apply ChainFacts.fill_id.
  - repeat split.
Qed.

(** X20. In a row that the column steps give, the four decoded columns
    [origin_country], [arrival_port], [port_type] and [visitor_type] are
    texts, never null; [arrival_date] is what [convert_to_datetime] returns
    on [arrdate], which is null or a text of four digits, dash, two digits,
    dash, two digits that reads as a date of the calendar; and the nine
    other columns are the raw ones under their new names. *)
Theorem select_columns_decoded
  (valid_ports : port_catalog) (valid_countries : country_catalog)
  (r : immigration_row) (c : clean_row) :
  select_columns valid_ports valid_countries r = Ok c ->
  (exists country arrival mode visitor,
     origin_country c = PStr country
     /\ arrival_port c = PStr arrival
     /\ port_type c = PStr mode
     /\ visitor_type c = PStr visitor)
  /\ (exists converted,
        convert_to_datetime (arrdate r) = Ok converted
        /\ arrival_date c = of_optional_str converted)
  /\ (arrival_date c = PNone
      \/ exists text dt,
           arrival_date c = PStr text
           /\ read_iso text = Some dt /\ Date.valid dt)
  /\ immigration_id c = cicid r
  /\ immigration_year c = i94yr r
  /\ immigration_month c = i94mon r
  /\ state_of_residence c = i94addr r
  /\ immigrant_age c = i94bir r
  /\ airline_code c = airline r
  /\ airline_flight_number c = fltno r
  /\ visa_type c = visatype r
  /\ gender c = gender_raw r.
Proof.
  unfold select_columns.
  destruct (get_valid_country valid_countries (i94res r)) as [country |] eqn:Hc;
    [| discriminate].
  simpl.
  destruct (convert_to_datetime (arrdate r)) as [converted |] eqn:Hd;
    [| discriminate].
  simpl. intros [= <-]. simpl.
  split; [| split; [eauto | split; [| repeat split]]].
  - assert (Hcountry : exists s, country = PStr s).
    { unfold get_valid_country in Hc.
      destruct (py_int (i94res r)) as [n |]; [| discriminate]. simpl in Hc.
      destruct (valid_countries !! n).
      - destruct (country_getitem valid_countries (i94res r));
          [| discriminate].
        simpl in Hc. injection Hc as <-. eauto.
      - injection Hc as <-. eauto. }
    destruct Hcountry as [s ->].
    destruct (UdfFacts.get_valid_port_text valid_ports (i94port r))
      as (arrival & -> & _).
    exists s, arrival. unfold convert_mode, convert_visa.
    destruct (num_dict_get mode_dict (i94mode r)),
      (num_dict_get visa_dict (i94visa r));
      do 2 eexists; repeat split; reflexivity.
  - destruct converted as [text |]; [right | left; reflexivity].
    destruct (TimedeltaFacts.convert_to_datetime_text _ _ Hd)
      as (dt & Hread & Hvalid).
    exists text, dt. auto.
Qed.

Lemma select_columns_decoded_witness :
  exists c,
    select_columns sample_ports sample_countries (sample_row 7 "NYC" PNone)
    = Ok c
    /\ (exists country arrival mode visitor,
          origin_country c = PStr country
          /\ arrival_port c = PStr arrival
          /\ port_type c = PStr mode
          /\ visitor_type c = PStr visitor)
    /\ (exists converted,
          convert_to_datetime (arrdate (sample_row 7 "NYC" PNone))
          = Ok converted
          /\ arrival_date c = of_optional_str converted)
    /\ (arrival_date c = PNone
        \/ exists text dt,
             arrival_date c = PStr text
             /\ read_iso text = Some dt /\ Date.valid dt)
    /\ immigration_id c = cicid (sample_row 7 "NYC" PNone)
    /\ immigration_year c = i94yr (sample_row 7 "NYC" PNone)
    /\ immigration_month c = i94mon (sample_row 7 "NYC" PNone)
    /\ state_of_residence c = i94addr (sample_row 7 "NYC" PNone)
    /\ immigrant_age c = i94bir (sample_row 7 "NYC" PNone)
    /\ airline_code c = airline (sample_row 7 "NYC" PNone)
    /\ airline_flight_number c = fltno (sample_row 7 "NYC" PNone)
    /\ visa_type c = visatype (sample_row 7 "NYC" PNone)
    /\ gender c = gender_raw (sample_row 7 "NYC" PNone).
Proof.
  eexists. split; [vm_compute; reflexivity |].
  apply (select_columns_decoded sample_ports sample_countries
           (sample_row 7 "NYC" PNone)).
  vm_compute. reflexivity.
Defined.

(** X21. What the chain emits and when it returns. The filter tests the
    port code, whatever the transport mode is: the rows that pass are the
    rows whose [i94port] is the text Air, when Air is a code of the port
    catalog, and no row otherwise. The chain emits the select of these
    rows, one for one and in their order, each with the text Air as its
    [arrival_port]; it raises exactly when the select raises on one of
    them. A row of another port is dropped before the other UDFs see it,
    so nothing in it can make the chain raise. *)
Theorem immigration_df_clean_keeps_port_air
  (valid_ports : port_catalog) (valid_countries : country_catalog)
  (df : list immigration_row) :
  let air_rows :=
    if dict_mem valid_ports "Air"
    then List.filter (fun r => sql_eq_str (i94port r) "Air") df
    else [] in
  match immigration_df_clean valid_ports valid_countries df with
  | Ok out =>
      Forall2 (fun r c => select_columns valid_ports valid_countries r = Ok c)
        air_rows out
      /\ forall c, In c out -> arrival_port c = PStr "Air"
  | Raise e =>
      exists r,
        In r air_rows
        /\ select_columns valid_ports valid_countries r = Raise e
  end.
Proof.
  intros air_rows.
  pose proof (ChainFacts.pushed_filter_rows valid_ports df) as Hrows.
  fold air_rows in Hrows.
  pose proof (ChainFacts.traverse_outcome
                (select_columns valid_ports valid_countries) air_rows)
    as Hout.
  unfold immigration_df_clean. rewrite Hrows.
  destruct (traverse (select_columns valid_ports valid_countries) air_rows)
    as [out |] eqn:Hrun; [| exact Hout].
  split; [apply ChainFacts.traverse_forall2, Hrun |].
  intros c Hin.
  apply (PipelineFacts.immigration_df_clean_emitted
           valid_ports valid_countries df out c); [| exact Hin].
  unfold immigration_df_clean. rewrite Hrows. exact Hrun.
Qed.

(** X22. With a parsed port catalog, a city name that holds a whitespace
    character gets no port: the labels of the catalog hold none. *)
Theorem city_with_whitespace_has_no_port
  (lines : list string) (valid_ports : port_catalog) (city : string) :
  get_valid_airport_list lines = Ok valid_ports ->
  str_exists is_space city = true ->
  city_to_port valid_ports (PStr city) = Ok None.
Proof.
  intros Hparse Hcity. apply CityFacts.city_with_space; [| exact Hcity].
  apply (PortParserFacts.airport_loop_labels _ [] _ Hparse).
  intros k l [].
Qed.

Lemma city_with_whitespace_has_no_port_witness :
  get_valid_airport_list sample_lines = Ok sample_parsed
  /\ str_exists is_space "New York" = true
  /\ city_to_port sample_parsed (PStr "New York") = Ok None.
Proof.
  assert (H : get_valid_airport_list sample_lines = Ok sample_parsed)
    by (vm_compute; reflexivity).
  split; [exact H |]. split; [reflexivity |].
  exact (city_with_whitespace_has_no_port sample_lines sample_parsed
           "New York" H eq_refl).
Defined.

(** X23. The empty city name gets the first code of the catalog, whatever
    its label. *)
Theorem empty_city_takes_first_port
  (code label : string) (rest : port_catalog) :
  city_to_port ((code, label) :: rest) (PStr EmptyString) = Ok (Some code).
Proof.
  unfold city_to_port. simpl. unfold dict_getitem. simpl.
  rewrite String.eqb_refl. simpl.
  rewrite CityFacts.str_contains_empty. reflexivity.
Qed.

(** X24. Two city names that differ in letter case only get the same
    port. *)
Theorem city_to_port_ignores_case
  (valid_ports : port_catalog) (a b : string) :
  str_lower a = str_lower b ->
  city_to_port valid_ports (PStr a) = city_to_port valid_ports (PStr b).
Proof. intros Hab. apply CityFacts.loop_same_lower, Hab. Qed.

Lemma city_to_port_ignores_case_witness :
  str_lower "NEWARK" = str_lower "Newark"
  /\ city_to_port sample_ports (PStr "NEWARK")
     = city_to_port sample_ports (PStr "Newark").
Proof.
  split; [reflexivity |].
  apply (city_to_port_ignores_case sample_ports "NEWARK" "Newark").
  reflexivity.
Defined.

(** X25. The parser and the resolver together: with a parsed port catalog
    (its codes are distinct as it is built), what [city_to_port] returns on
    a city name is the first match: the code of the first entry, in the
    order of the file, whose label holds the name, letter case set aside,
    or a null port when no label does. *)
Theorem city_to_port_after_parse
  (lines : list string) (valid_ports : port_catalog) (city : string)
  (port : option string) :
  get_valid_airport_list lines = Ok valid_ports ->
  city_to_port valid_ports (PStr city) = Ok port
  <-> first_match valid_ports city port.
Proof.
  intros Hparse.
  destruct (ResolverFacts.loop_first_match city valid_ports [])
    as (port0 & Hreturn & Hfirst).
  - simpl. rewrite (PortParserFacts.airport_loop_keys _ [] _ Hparse).
    apply PortParserFacts.first_occurrences_NoDup. constructor.
  - intros k l [].
  - change (city_to_port valid_ports (PStr city) = Ok port0) in Hreturn.
    change (first_match valid_ports city port0) in Hfirst.
    rewrite Hreturn. split.
    + intros [= <-]. exact Hfirst.
    + intros Hport. f_equal.
      exact (ResolverFacts.first_match_unique _ _ _ _ Hfirst Hport).
Qed.

Lemma city_to_port_after_parse_witness :
  get_valid_airport_list sample_lines = Ok sample_parsed
  /\ city_to_port sample_parsed (PStr "Alcan") = Ok (Some "ALC")
  /\ first_match sample_parsed "Alcan" (Some "ALC").
Proof.
  assert (H : get_valid_airport_list sample_lines = Ok sample_parsed)
    by (vm_compute; reflexivity).
  assert (Hreturn : city_to_port sample_parsed (PStr "Alcan")
                    = Ok (Some "ALC")) by (vm_compute; reflexivity).
  split; [exact H |]. split; [exact Hreturn |].
  exact (proj1 (city_to_port_after_parse sample_lines sample_parsed "Alcan"
                  (Some "ALC") H) Hreturn).
Defined.

(** X26. [demographics_df_clean] keeps the rows as they come, one for one
    and in their order, duplicates too, and gives each the port that
    [city_to_port] returns on its city. *)
Theorem demographics_df_clean_rows
  (valid_ports : port_catalog) (df : list Demographics.raw_row)
  (out : list Demographics.clean_row) :
  Demographics.demographics_df_clean valid_ports df = Ok out ->
  map Demographics.source_row out = df
  /\ Forall (fun c =>
               exists p,
                 city_to_port valid_ports (Demographics.city c) = Ok p
                 /\ Demographics.port c = of_optional_str p) out.
Proof.
  unfold Demographics.demographics_df_clean. intros Hrun.
  apply ChainFacts.traverse_forall2 in Hrun.
  induction Hrun as [| r c df out Hrow _ [IHrows IHports]].
  - split; constructor.
  - apply ComposeFacts.with_port_row in Hrow. destruct Hrow as [Hsrc Hport].
    split; [simpl; congruence | constructor; assumption].
Qed.

Lemma demographics_df_clean_rows_witness :
  exists out,
    Demographics.demographics_df_clean sample_ports demographics_rows = Ok out
    /\ map Demographics.source_row out = demographics_rows
    /\ Forall (fun c =>
                 exists p,
                   city_to_port sample_ports (Demographics.city c) = Ok p
                   /\ Demographics.port c = of_optional_str p) out.
Proof.
  eexists. split; [vm_compute; reflexivity |].
  apply (demographics_df_clean_rows sample_ports demographics_rows).
  vm_compute. reflexivity.
Defined.

(** X27. With a port catalog that has an entry, [demographics_df_clean]
    returns exactly when the city of every row is a text; when the city of
    some row is a null (or a number) it raises AttributeError. *)
Theorem demographics_df_clean_outcome
  (valid_ports : port_catalog) (df : list Demographics.raw_row) :
  valid_ports <> [] ->
  match Demographics.demographics_df_clean valid_ports df with
  | Ok _ => forall r, In r df -> exists s, Demographics.City r = PStr s
  | Raise e =>
      e = AttributeError
      /\ exists r, In r df /\ forall s, Demographics.City r <> PStr s
  end.
Proof.
  intros Hne. unfold Demographics.demographics_df_clean.
  pose proof (ChainFacts.traverse_outcome
                (Demographics.with_port valid_ports) df) as Hout.
  destruct (traverse _ df) as [out | e].
  - intros r Hin. destruct (Hout r Hin) as [c Hc].
    destruct (Demographics.City r) as [| n | n | s | m j | | b] eqn:Hcity;
      eauto;
      exfalso; unfold Demographics.with_port, city_to_port in Hc;
      rewrite Hcity in Hc;
      destruct valid_ports as [| [k l] rest]; try congruence;
      simpl in Hc; discriminate.
  - destruct Hout as (r & Hin & Hraise).
    apply ChainFacts.with_port_raise in Hraise. destruct Hraise as [-> Hcity].
    split; [reflexivity |]. exists r. auto.
Qed.

Lemma demographics_df_clean_outcome_witness :
  sample_ports <> []
  /\ match Demographics.demographics_df_clean sample_ports
             [demographics_row (PStr "Newark"); demographics_row PNone] with
     | Ok _ =>
         forall r,
           In r [demographics_row (PStr "Newark"); demographics_row PNone] ->
           exists s, Demographics.City r = PStr s
     | Raise e =>
         e = AttributeError
         /\ exists r,
              In r [demographics_row (PStr "Newark"); demographics_row PNone]
              /\ forall s, Demographics.City r <> PStr s
     end.
Proof.
  split; [discriminate |].
  apply (demographics_df_clean_outcome sample_ports
           [demographics_row (PStr "Newark"); demographics_row PNone]).
  discriminate.
Defined.

Module ReturnFacts.

(** [get_valid_country] returns exactly on these values. *)
Lemma get_valid_country_returns (valid_countries : country_catalog) x :
  returns (get_valid_country valid_countries x)
  <-> country_returns valid_countries x.
Proof.
  unfold get_valid_country, returns.
  destruct x as [| n | n | s | m e | | b]; simpl.
  - split; [intros [a H]; discriminate | tauto].
  - split; [tauto | intros _].
    destruct (valid_countries !! n); eexists; reflexivity.
  - split; [tauto | intros _].
    destruct (valid_countries !! n); eexists; reflexivity.
  - destruct (int_of_str s) as [n |]; simpl.
    + destruct (valid_countries !! n) eqn:Hn; simpl.
      * split; [intros [a H]; discriminate |].
        intros (n' & [= <-] & H). congruence.
      * split; [eauto | intros _; eexists; reflexivity].
    + split; [intros [a H]; discriminate | intros (n & H & _); discriminate].
  - destruct (valid_countries !! Z.quot (frac_num m) (frac_den e)); simpl.
    + split; [intros [a H]; discriminate | discriminate].
    + split; [reflexivity | intros _; eexists; reflexivity].
  - split; [intros [a H]; discriminate | tauto].
  - split; [intros [a H]; discriminate | tauto].
Qed.

(** [convert_to_datetime] returns on a number by the days counted in it. *)
Lemma convert_to_datetime_returns_days x k :
  days_of x = Some k -> truthy x = true ->
  returns (convert_to_datetime x) <-> -715509 <= k <= 2936549.
Proof.
  intros Hdays Htruthy.
  destruct (TimedeltaFacts.convert_to_datetime_days x k Hdays Htruthy)
    as [Hin Hout].
  split.
  - intros [a Ha].
    destruct (Z_lt_le_dec k (-715509)) as [Hlo | Hlo];
      [rewrite Hout in Ha by lia; discriminate |].
    destruct (Z_lt_le_dec 2936549 k) as [Hhi | Hhi];
      [rewrite Hout in Ha by lia; discriminate |].
    lia.
  - intros Hk. destruct (Hin Hk) as (dt & -> & _). eexists; reflexivity.
Qed.

Lemma convert_to_datetime_returns x :
  (date_returns (-715509) 2936548 x -> returns (convert_to_datetime x))
  /\ (returns (convert_to_datetime x) -> date_returns (-715510) 2936549 x).
Proof.
  destruct x as [| n | n | s | m e | | b]; simpl.
  - split; [intros _; eexists; reflexivity | tauto].
  - destruct (Z.eq_dec n 0) as [-> | Hnz];
      [split; [intros _; eexists; reflexivity | auto] |].
    rewrite (convert_to_datetime_returns_days (PInt n) n eq_refl)
      by (apply negb_true_iff, Z.eqb_neq; exact Hnz).
    split; [intros [H | H]; [contradiction | exact H] | auto].
  - destruct (Z.eq_dec n 0) as [-> | Hnz];
      [split; [intros _; eexists; reflexivity | auto] |].
    rewrite (convert_to_datetime_returns_days (PFloat n) n eq_refl)
      by (apply negb_true_iff, Z.eqb_neq; exact Hnz).
    split; [intros [H | H]; [contradiction | exact H] | auto].
  - destruct s as [| c s].
    + split; [intros _; eexists; reflexivity | auto].
    + split; [discriminate | intros [a Ha]; discriminate].
  - rewrite (convert_to_datetime_returns_days (PFrac m e) _ eq_refl eq_refl).
    destruct (TimedeltaFacts.timedelta_frac_days m e) as [Hk _].
    simpl in Hk. split; intros H; lia.
  - split; [tauto | intros [a Ha]; discriminate].
  - split; [tauto | intros [a Ha]; discriminate].
Qed.

Lemma select_returns_both valid_ports valid_countries r :
  returns (select_columns valid_ports valid_countries r)
  <-> returns (get_valid_country valid_countries (i94res r))
      /\ returns (convert_to_datetime (arrdate r)).
Proof.
  unfold select_columns, returns.
  destruct (get_valid_country valid_countries (i94res r)) as [country |];
    simpl.
  - destruct (convert_to_datetime (arrdate r)) as [arrival |]; simpl.
    + split; [eauto | intros _; eexists; reflexivity].
    + split; [intros [a H]; discriminate | intros [_ [a H]]; discriminate].
  - split; [intros [a H]; discriminate | intros [[a H] _]; discriminate].
Qed.

End ReturnFacts.

(** X29. When the column steps return on a row. Two columns decide, one for
    each UDF that can raise, and no other column can make the steps raise.
    [i94res] must be a whole number, or a float with a fractional part
    whose whole part is not a code of the country catalog, or the text of
    an integer that is not a code. [arrdate] must be null, zero, the empty
    text, or a number whose days stay within the dates of the library: for
    a whole number, between -715509 and 2936549; for a float with a
    fractional part it is enough that the whole number under it lies
    between -715509 and 2936548, and necessary that it lies between
    -715510 and 2936549. *)
Theorem select_columns_returns
  (valid_ports : port_catalog) (valid_countries : country_catalog)
  (r : immigration_row) :
  (country_returns valid_countries (i94res r) ->
   date_returns (-715509) 2936548 (arrdate r) ->
   returns (select_columns valid_ports valid_countries r))
  /\ (returns (select_columns valid_ports valid_countries r) ->
      country_returns valid_countries (i94res r)
      /\ date_returns (-715510) 2936549 (arrdate r)).
Proof.
  rewrite ReturnFacts.select_returns_both.
  rewrite ReturnFacts.get_valid_country_returns.
  destruct (ReturnFacts.convert_to_datetime_returns (arrdate r))
    as [Henough Hneeded].
  split; [auto | intros [Hc Hd]; auto].
Qed.

Lemma select_columns_returns_witness :
  country_returns sample_countries (i94res fraction_row)
  /\ date_returns (-715509) 2936548 (arrdate fraction_row)
  /\ returns (select_columns sample_ports sample_countries fraction_row).
Proof.
  assert (H1 : country_returns sample_countries (i94res fraction_row))
    by reflexivity.
  assert (H2 : date_returns (-715509) 2936548 (arrdate fraction_row))
    by (vm_compute; split; discriminate).
  split; [exact H1 |]. split; [exact H2 |].
  exact (proj1 (select_columns_returns sample_ports sample_countries
                  fraction_row) H1 H2).
Defined.

(** X30. On a float with a fractional part [get_valid_country] tests the
    whole part, cut toward zero, against the codes, but looks the float
    itself up: it raises KeyError when the whole part is a code, and
    returns the text Other when it is not. On NaN it raises ValueError, on
    an infinity OverflowError. *)
Theorem get_valid_country_on_fractions
  (valid_countries : country_catalog) (m : Z) (e : positive) :
  get_valid_country valid_countries (PFrac m e)
  = match valid_countries !! Z.quot (frac_num m) (frac_den e) with
    | Some _ => Raise KeyError
    | None => Ok (PStr "Other")
    end
  /\ get_valid_country valid_countries PNan = Raise ValueError
  /\ forall negative,
       get_valid_country valid_countries (PInf negative)
       = Raise OverflowError.
Proof.
  split; [| split; [reflexivity | intros negative; reflexivity]].
  unfold get_valid_country. simpl.
  destruct (valid_countries !! Z.quot (frac_num m) (frac_den e));
    reflexivity.
Qed.

(** X31. The filter as written and the filter as it runs. When no UDF
    raises on any row of the input, [immigration_df_clean] emits the rows
    of the select that meet the written condition on [arrival_port], in
    their order: evaluating the filter first changes the outcome only for
    an input with a row on which a UDF of the select raises. *)
Theorem filter_after_select_agrees
  (valid_ports : port_catalog) (valid_countries : country_catalog)
  (df : list immigration_row) (selected : list clean_row) :
  traverse (select_columns valid_ports valid_countries) df = Ok selected ->
  immigration_df_clean valid_ports valid_countries df
  = Ok (List.filter filter_condition selected).
Proof.
  apply PipelineFacts.immigration_df_clean_as_written.
Qed.

Lemma filter_after_select_agrees_witness :
  exists selected,
    traverse (select_columns air_ports sample_countries)
      [sample_row 7 "Air" (PFloat 2); sample_row 8 "NYC" (PFloat 1)]
    = Ok selected
    /\ length selected = 2%nat
    /\ length (List.filter filter_condition selected) = 1%nat
    /\ immigration_df_clean air_ports sample_countries
         [sample_row 7 "Air" (PFloat 2); sample_row 8 "NYC" (PFloat 1)]
       = Ok (List.filter filter_condition selected).
Proof.
  eexists. split; [vm_compute; reflexivity |].
  split; [reflexivity |]. split; [reflexivity |].
  apply (filter_after_select_agrees air_ports sample_countries
           [sample_row 7 "Air" (PFloat 2); sample_row 8 "NYC" (PFloat 1)]).
  vm_compute. reflexivity.
Defined.
